(** * maze_game: the trainer simulation (trainer.py) and the level editor
    (level_editor.py)

    A shallow embedding of [Trainer] from [trainer.py]: level loading,
    the movement resolver ([get_new_position], [get_valid_moves]), the
    combat branches of the enemy action [match], decision selection, the
    episode loop of [play_game_no_display], trajectory generation and
    [play_game_display] without its drawing; and of [LevelEditor] from
    [level_editor.py]: opening, resizing, cell updates, the event loop and
    saving.

    Conventions of the embedding.
    - Python integers are [Z]; the level grid is a [list (list Z)] of cell
      codes, indexed with Python's rules (negative indices count from the
      end, anything else out of range raises [IndexError]).
    - An exception is a value of [PyError]; fallible code lives in the
      [result] monad.
    - [math.sqrt(d2) <= k] on an integer [d2] and a small integer [k] is
      written [d2 <=? k * k]: the square root is monotone and exact on
      perfect squares.  This is exact for [d2] below [FLOAT_SAFE]; from
      2^1024 on, [math.sqrt] raises [OverflowError], which is not
      modelled.
    - Values exchanged with the neural network (observations and outputs)
      are rationals [Q]; comparison of finite floats is comparison of the
      rationals they denote.  A division [a / b] of integers is the exact
      quotient; Python raises [OverflowError] when the quotient is beyond
      the range of floats, which cannot happen for [a] below [FLOAT_SAFE]
      in absolute value, and is not modelled.
    - Positions on a level are bounded by the lengths of its lists, far
      inside that range ([level_fits], [level_positions_float_safe]).
      Beyond it the definitions return where the code raises
      [OverflowError].
    - [genome.fitness] is a floating point accumulator.  It is modelled by
      the ordered log of the updates applied to it ([FitnessTerm]); the
      float value is the left-to-right sum of the log. *)

From Stdlib Require Import ZArith QArith List Bool Lia Sorted.
Import ListNotations.

#[local] Open Scope Z_scope.

(** ** Exceptions and the error monad *)

Inductive PyError : Type :=
| IndexError
| ValueError
| ZeroDivisionError
| RuntimeError.

Inductive result (A : Type) : Type :=
| Ok (a : A)
| Err (e : PyError).

Arguments Ok {A} a.
Arguments Err {A} e.

Definition bind {A B : Type} (m : result A) (k : A -> result B) : result B :=
  match m with
  | Ok a => k a
  | Err e => Err e
  end.

Notation "x <- m ;; k" := (bind m (fun x => k))
  (at level 61, m at next level, right associativity).
Notation "' p <- m ;; k" := (bind m (fun p => k))
  (at level 61, p pattern, m at next level, right associativity).

Definition is_ok {A : Type} (m : result A) : bool :=
  match m with
  | Ok _ => true
  | Err _ => false
  end.

(** ** Module level constants *)

Definition GAMES_PER_GENERATION : Z := 10.
Definition MAX_PLAYER_MOVES : Z := 100.
Definition PLAYER_STARTING_HEALTH : Z := 100.

Definition ENEMY_SHOOT_DAMAGE : Z := 20.
Definition ENEMY_HIT_DAMAGE : Z := 50.

Definition WALL_CELL_STATE_CODE : Z := 1.
Definition PLAYER_CELL_STATE_CODE : Z := 2.
Definition ENEMY_CELL_STATE_CODE : Z := 3.

Inductive EnemyAction : Type :=
| MOVE_LEFT
| MOVE_RIGHT
| MOVE_UP
| MOVE_DOWN
| STAND_STILL
| SHOOT_PLAYER
| HIT_PLAYER.

(** [EnemyAction(decision)]: the enum lookup by value. *)
Definition EnemyAction_of_value (decision : Z) : result EnemyAction :=
  if decision =? 0 then Ok MOVE_LEFT
  else if decision =? 1 then Ok MOVE_RIGHT
  else if decision =? 2 then Ok MOVE_UP
  else if decision =? 3 then Ok MOVE_DOWN
  else if decision =? 4 then Ok STAND_STILL
  else if decision =? 5 then Ok SHOOT_PLAYER
  else if decision =? 6 then Ok HIT_PLAYER
  else Err ValueError.

(** ** Python list indexing *)

Definition len {A : Type} (l : list A) : Z := Z.of_nat (length l).

(** [l[i]] *)
Definition py_index {A : Type} (l : list A) (i : Z) : result A :=
  let j := if i <? 0 then len l + i else i in
  if j <? 0 then Err IndexError
  else match nth_error l (Z.to_nat j) with
       | Some a => Ok a
       | None => Err IndexError
       end.

(** [range(lo, hi)] *)
Definition py_range (lo hi : Z) : list Z :=
  map (fun k => lo + Z.of_nat k) (seq 0 (Z.to_nat (hi - lo))).

(** [enumerate(l)], counting from [start] *)
Fixpoint enumerate_from {A : Type} (start : Z) (l : list A) : list (Z * A) :=
  match l with
  | [] => []
  | a :: rest => (start, a) :: enumerate_from (start + 1) rest
  end.

Definition enumerate {A : Type} (l : list A) : list (Z * A) :=
  enumerate_from 0 l.

(** ** The trainer object *)

Abbreviation Grid := (list (list Z)) (only parsing).
Abbreviation Pos := (Z * Z)%type (only parsing).

(** The attributes [__init__] sets.  [player_start] is [None] as long as
    [player_start_x], [player_start_y] have not been assigned. *)
Record Trainer : Type := mkTrainer {
  game_grid : Grid;
  game_grid_height : Z;
  game_grid_width : Z;
  player_start : option Pos;
  enemy_start_positions : list Pos
}.

(** The inner [for x, cell_state in enumerate(row)] of
    [find_start_positions]. *)
Fixpoint find_in_row (y : Z) (cells : list (Z * Z))
    (acc : option Pos * list Pos) : option Pos * list Pos :=
  match cells with
  | [] => acc
  | (x, cell_state) :: rest =>
      let '(player, enemies) := acc in
      if cell_state =? PLAYER_CELL_STATE_CODE then
        find_in_row y rest (Some (x, y), enemies)
      else if cell_state =? ENEMY_CELL_STATE_CODE then
        find_in_row y rest (player, enemies ++ [(x, y)])
      else find_in_row y rest acc
  end.

(** The outer [for y, row in enumerate(self.game_grid)]. *)
Fixpoint find_in_rows (rows : list (Z * list Z))
    (acc : option Pos * list Pos) : option Pos * list Pos :=
  match rows with
  | [] => acc
  | (y, row) :: rest => find_in_rows rest (find_in_row y (enumerate row) acc)
  end.

Definition find_start_positions (grid : Grid) : option Pos * list Pos :=
  find_in_rows (enumerate grid) (None, []).

(** [Trainer.__init__], from the decoded JSON grid on. *)
Definition Trainer_init (grid : Grid) : result Trainer :=
  let height := len grid in
  row0 <- py_index grid 0 ;;
  let width := len row0 in
  let '(player, enemies) := find_start_positions grid in
  Ok (mkTrainer grid height width player enemies).

(** [self.game_grid[y][x]] *)
Definition grid_at (t : Trainer) (y x : Z) : result Z :=
  row <- py_index (game_grid t) y ;;
  py_index row x.

(** ** Movement resolver *)

Definition get_new_position (t : Trainer) (current_x current_y : Z)
    (horizontal_movement vertical_movement : Z) : result Pos :=
  if horizontal_movement =? 1 then
    if current_x <? game_grid_width t - 1 then
      c <- grid_at t current_y (current_x + 1) ;;
      if negb (c =? WALL_CELL_STATE_CODE) then Ok (current_x + 1, current_y)
      else Ok (current_x, current_y)
    else Ok (current_x, current_y)
  else if horizontal_movement =? -1 then
    if current_x >? 0 then
      c <- grid_at t current_y (current_x - 1) ;;
      if negb (c =? WALL_CELL_STATE_CODE) then Ok (current_x - 1, current_y)
      else Ok (current_x, current_y)
    else Ok (current_x, current_y)
  else if vertical_movement =? 1 then
    if (current_x =? game_grid_width t - 1)
       && (current_y <? game_grid_height t - 1) then
      Ok (current_x, current_y + 1)
    else if current_y <? game_grid_height t - 1 then
      c <- grid_at t (current_y + 1) current_x ;;
      if negb (c =? WALL_CELL_STATE_CODE) then Ok (current_x, current_y + 1)
      else Ok (current_x, current_y)
    else Ok (current_x, current_y)
  else if vertical_movement =? -1 then
    if current_y >? 0 then
      c <- grid_at t (current_y - 1) current_x ;;
      if negb (c =? WALL_CELL_STATE_CODE) then Ok (current_x, current_y - 1)
      else Ok (current_x, current_y)
    else Ok (current_x, current_y)
  else Ok (current_x, current_y).

(** One conditional [valid_moves.append] guarded by a bounds test and a
    wall test, in that order. *)
Definition append_if_open (t : Trainer) (in_bounds : bool) (y x : Z)
    (target : Pos) (valid_moves : list Pos) : result (list Pos) :=
  if in_bounds then
    c <- grid_at t y x ;;
    if negb (c =? WALL_CELL_STATE_CODE) then Ok (valid_moves ++ [target])
    else Ok valid_moves
  else Ok valid_moves.

Definition get_valid_moves (t : Trainer) (x y : Z) : result (list Pos) :=
  let valid_moves := [(x, y)] in
  valid_moves <- append_if_open t (x >? 0) y (x - 1) (x - 1, y) valid_moves ;;
  valid_moves <- append_if_open t (x <? game_grid_width t - 1) y (x + 1)
                   (x + 1, y) valid_moves ;;
  valid_moves <- append_if_open t (y >? 0) (y - 1) x (x, y - 1) valid_moves ;;
  let valid_moves :=
    if (x =? game_grid_width t - 1) && (y =? game_grid_height t - 1)
    then valid_moves ++ [(x, y + 1)] else valid_moves in
  append_if_open t (y <? game_grid_height t - 1) (y + 1) x (x, y + 1)
    valid_moves.

(** ** The range in which the float operations are modelled exactly *)

(** Integers below this bound convert to a float, so [math.sqrt] of them
    and quotients with them as numerator do not raise [OverflowError]. *)
Definition FLOAT_SAFE : Z := 2 ^ 1023.

(** Both [(x + 1) / width] and [(y + 1) / height] of a position are within
    the range of floats. *)
Definition float_safe_pos (p : Pos) : Prop :=
  Z.abs (fst p + 1) < FLOAT_SAFE /\ Z.abs (snd p + 1) < FLOAT_SAFE.

(** The largest length of a Python list ([sys.maxsize]). *)
Definition LIST_MAX : Z := 2 ^ 63 - 1.

(** The sides of the level are lengths of lists. *)
Definition level_fits (t : Trainer) : Prop :=
  game_grid_width t <= LIST_MAX /\ game_grid_height t <= LIST_MAX.

(** ** Combat resolver *)

(** The argument of [math.sqrt] in the three distance computations.  The
    comparisons of the root with 3 and with 1 below are exact while it is
    less than [FLOAT_SAFE]. *)
Definition dist2 (player_x player_y enemy_x enemy_y : Z) : Z :=
  (player_x - enemy_x) ^ 2 + (player_y - enemy_y) ^ 2.

(** [all(f(x) for x in xs)]: the generator is consumed left to right and
    [all] stops at the first false element. *)
Fixpoint py_all (f : Z -> result bool) (xs : list Z) : result bool :=
  match xs with
  | [] => Ok true
  | x :: rest => b <- f x ;; if b then py_all f rest else Ok false
  end.

(** [a and b], with [b] evaluated only when [a] holds. *)
Definition py_and (a : bool) (b : result bool) : result bool :=
  if a then b else Ok false.

(** [all(self.game_grid[y][x] != WALL_CELL_STATE_CODE for x in range(lo, hi))] *)
Definition row_clear (t : Trainer) (y lo hi : Z) : result bool :=
  py_all (fun x => c <- grid_at t y x ;; Ok (negb (c =? WALL_CELL_STATE_CODE)))
         (py_range lo hi).

(** [all(self.game_grid[y][x] != WALL_CELL_STATE_CODE for y in range(lo, hi))] *)
Definition column_clear (t : Trainer) (x lo hi : Z) : result bool :=
  py_all (fun y => c <- grid_at t y x ;; Ok (negb (c =? WALL_CELL_STATE_CODE)))
         (py_range lo hi).

(** The [if ... elif ...] pair under "player horizontally aligned". *)
Definition shoot_along_row (t : Trainer) (player_x enemy_x enemy_y : Z)
    (player_health : Z) : result Z :=
  c1 <- py_and (enemy_x <=? player_x) (row_clear t enemy_y enemy_x player_x) ;;
  if c1 then Ok (player_health - ENEMY_SHOOT_DAMAGE)
  else
    c2 <- py_and (enemy_x >? player_x) (row_clear t enemy_y player_x enemy_x) ;;
    if c2 then Ok (player_health - ENEMY_SHOOT_DAMAGE)
    else Ok player_health.

(** The [if ... elif ...] pair under "vertically aligned". *)
Definition shoot_along_column (t : Trainer) (player_y enemy_x enemy_y : Z)
    (player_health : Z) : result Z :=
  c1 <- py_and (enemy_y <=? player_y)
          (column_clear t enemy_x enemy_y player_y) ;;
  if c1 then Ok (player_health - ENEMY_SHOOT_DAMAGE)
  else
    c2 <- py_and (enemy_y >? player_y)
            (column_clear t enemy_x player_y enemy_y) ;;
    if c2 then Ok (player_health - ENEMY_SHOOT_DAMAGE)
    else Ok player_health.

(** [case EnemyAction.SHOOT_PLAYER]: the new [player_health]. *)
Definition shoot_player (t : Trainer) (player_x player_y enemy_x enemy_y : Z)
    (player_health : Z) : result Z :=
  if dist2 player_x player_y enemy_x enemy_y <=? 3 * 3 then
    player_health <-
      (if enemy_y =? player_y
       then shoot_along_row t player_x enemy_x enemy_y player_health
       else Ok player_health) ;;
    if enemy_x =? player_x
    then shoot_along_column t player_y enemy_x enemy_y player_health
    else Ok player_health
  else Ok player_health.

(** [case EnemyAction.HIT_PLAYER]: the new [player_health]. *)
Definition hit_player (player_x player_y enemy_x enemy_y : Z)
    (player_health : Z) : Z :=
  if dist2 player_x player_y enemy_x enemy_y <=? 1 * 1
  then player_health - ENEMY_HIT_DAMAGE
  else player_health.

(** ** Decision policy and decision selection *)

(** [neural_network.activate]: opaque, and allowed to raise. *)
Definition Policy : Type := list Q -> result (list Q).

(** [a / b] on integers, for a quotient within the range of floats. *)
Definition py_div (a b : Z) : result Q :=
  if b =? 0 then Err ZeroDivisionError
  else Ok (inject_Z a / inject_Z b)%Q.

(** The [for x, y in enemy_positions] that extends [network_inputs]. *)
Fixpoint append_enemy_inputs (t : Trainer) (enemy_positions : list Pos)
    (network_inputs : list Q) : result (list Q) :=
  match enemy_positions with
  | [] => Ok network_inputs
  | (x, y) :: rest =>
      a <- py_div (x + 1) (game_grid_width t) ;;
      b <- py_div (y + 1) (game_grid_height t) ;;
      append_enemy_inputs t rest (network_inputs ++ [a; b])
  end.

Definition network_inputs (t : Trainer) (enemy_index : Z)
    (enemy_positions : list Pos) (player_x player_y player_health : Z)
    : result (list Q) :=
  a <- py_div (enemy_index + 1) (len enemy_positions) ;;
  b <- py_div (player_x + 1) (game_grid_width t) ;;
  c <- py_div (player_y + 1) (game_grid_height t) ;;
  d <- py_div player_health PLAYER_STARTING_HEALTH ;;
  append_enemy_inputs t enemy_positions [a; b; c; d].

(** [value > largest_value] *)
Definition Qgtb (value largest_value : Q) : bool :=
  negb (Qle_bool value largest_value).

(** The [for i, value in enumerate(output)] loop; returns [decision]. *)
Fixpoint select_loop (output : list (Z * Q)) (largest_value : Q)
    (decision : Z) : Z :=
  match output with
  | [] => decision
  | (i, value) :: rest =>
      if Qgtb value largest_value then select_loop rest value i
      else select_loop rest largest_value decision
  end.

Definition select_decision (output : list Q) : Z :=
  select_loop (enumerate output) (inject_Z (-1)) (-1).

(** ** Fitness accumulator *)

Inductive FitnessTerm : Type :=
| MoveReward                 (* genome.fitness += 0.1 *)
| DistancePenalty (d2 : Z)   (* genome.fitness -= sqrt(d2) / MAX_PLAYER_MOVES**2 *)
| TerminalSub (amount : Z)   (* genome.fitness -= amount *)
| TerminalAdd (amount : Z).  (* genome.fitness += amount *)

Abbreviation Fitness := (list FitnessTerm) (only parsing).

Definition is_terminal (term : FitnessTerm) : bool :=
  match term with
  | TerminalSub _ | TerminalAdd _ => true
  | _ => false
  end.

(** ** Episode simulator *)

Record EpisodeState : Type := mkEpisode {
  player_health : Z;
  enemy_positions : list Pos;
  moves_made : Z;
  fitness : Fitness
}.

(** [a != b] on two positions. *)
Definition pos_neqb (a b : Pos) : bool :=
  negb ((fst a =? fst b) && (snd a =? snd b)).

(** The [match decision] statement: new enemy position and new health. *)
Definition apply_action (t : Trainer) (action : EnemyAction)
    (player_x player_y enemy_x enemy_y player_health : Z)
    : result (Pos * Z) :=
  match action with
  | MOVE_LEFT =>
      p <- get_new_position t enemy_x enemy_y (-1) 0 ;; Ok (p, player_health)
  | MOVE_RIGHT =>
      p <- get_new_position t enemy_x enemy_y 1 0 ;; Ok (p, player_health)
  | MOVE_UP =>
      p <- get_new_position t enemy_x enemy_y 0 (-1) ;; Ok (p, player_health)
  | MOVE_DOWN =>
      p <- get_new_position t enemy_x enemy_y 0 1 ;; Ok (p, player_health)
  | STAND_STILL => Ok ((enemy_x, enemy_y), player_health)
  | SHOOT_PLAYER =>
      h <- shoot_player t player_x player_y enemy_x enemy_y player_health ;;
      Ok ((enemy_x, enemy_y), h)
  | HIT_PLAYER =>
      Ok ((enemy_x, enemy_y),
          hit_player player_x player_y enemy_x enemy_y player_health)
  end.

(** Body of the loop over [enumerate(enemy_positions)] up to the health
    test.  The iterator has already yielded [done] and now yields [enemy];
    [enemy_positions] is [done ++ enemy :: rest], and the assignment to
    [enemy_positions[enemy_index]] replaces [enemy]. *)
Definition enemy_turn (t : Trainer) (policy : Policy) (player_x player_y : Z)
    (done : list Pos) (enemy : Pos) (rest : list Pos)
    (health : Z) (fit : Fitness) : result (Pos * Z * Fitness) :=
  let '(enemy_x, enemy_y) := enemy in
  inputs <- network_inputs t (len done) (done ++ enemy :: rest)
              player_x player_y health ;;
  output <- policy inputs ;;
  decision <- EnemyAction_of_value (select_decision output) ;;
  '(moved, health) <-
     apply_action t decision player_x player_y enemy_x enemy_y health ;;
  let fit := if pos_neqb enemy moved then fit ++ [MoveReward] else fit in
  let fit :=
    fit ++ [DistancePenalty (dist2 player_x player_y (fst moved) (snd moved))] in
  Ok (moved, health, fit).

Fixpoint enemies_loop (t : Trainer) (policy : Policy) (player_x player_y : Z)
    (done todo : list Pos) (health : Z) (fit : Fitness)
    : result (list Pos * Z * Fitness) :=
  match todo with
  | [] => Ok (done, health, fit)
  | enemy :: rest =>
      '(moved, health, fit) <-
         enemy_turn t policy player_x player_y done enemy rest health fit ;;
      if health <=? 0 then Ok (done ++ moved :: rest, health, fit)
      else enemies_loop t policy player_x player_y (done ++ [moved]) rest
             health fit
  end.

(** How the loop over [moves] was left: by the [break] at the escape
    coordinate, by the [break] on [player_health <= 0], or by running out
    of positions. *)
Inductive Outcome : Type :=
| Escaped
| Defeated
| MoveLimit.

Definition is_escape (t : Trainer) (p : Pos) : bool :=
  (fst p =? game_grid_width t - 1) && (snd p =? game_grid_height t).

Fixpoint moves_loop (t : Trainer) (policy : Policy) (moves : list Pos)
    (st : EpisodeState) : result (Outcome * EpisodeState) :=
  match moves with
  | [] => Ok (MoveLimit, st)
  | (player_x, player_y) :: rest =>
      let made := moves_made st + 1 in
      if is_escape t (player_x, player_y) then
        Ok (Escaped,
            mkEpisode (player_health st) (enemy_positions st) made (fitness st))
      else
        '(enemies, health, fit) <-
           enemies_loop t policy player_x player_y [] (enemy_positions st)
             (player_health st) (fitness st) ;;
        let st := mkEpisode health enemies made fit in
        if health <=? 0 then Ok (Defeated, st)
        else moves_loop t policy rest st
  end.

(** The "calculate fitness" statement after the loop over [moves]. *)
Definition terminal_term (health made : Z) : FitnessTerm :=
  let amount :=
    (MAX_PLAYER_MOVES - made) ^ 2 + (PLAYER_STARTING_HEALTH - health) in
  if health >? 0 then TerminalSub amount else TerminalAdd amount.

(** One iteration of [for moves in player_moves]. *)
Definition play_trajectory (t : Trainer) (policy : Policy) (moves : list Pos)
    (fit : Fitness) : result (Outcome * EpisodeState) :=
  let st :=
    mkEpisode PLAYER_STARTING_HEALTH (enemy_start_positions t) 0 fit in
  '(outcome, st) <- moves_loop t policy moves st ;;
  Ok (outcome,
      mkEpisode (player_health st) (enemy_positions st) (moves_made st)
        (fitness st ++ [terminal_term (player_health st) (moves_made st)])).

Fixpoint play_game_no_display (t : Trainer) (policy : Policy)
    (player_moves : list (list Pos)) (fit : Fitness) : result Fitness :=
  match player_moves with
  | [] => Ok fit
  | moves :: rest =>
      '(_, st) <- play_trajectory t policy moves fit ;;
      play_game_no_display t policy rest (fitness st)
  end.

(** [genome.fitness = 0] followed by the game. *)
Definition eval_genomes_no_display (t : Trainer) (policy : Policy)
    (player_moves : list (list Pos)) : result Fitness :=
  play_game_no_display t policy player_moves [].

(** ** Well-formed levels and example levels *)

(** A rectangular level: [H] rows of [W] cells each. *)
Definition well_formed (t : Trainer) : Prop :=
  game_grid_height t = len (game_grid t) /\
  Forall (fun row => len row = game_grid_width t) (game_grid t).

Definition in_bounds (t : Trainer) (p : Pos) : Prop :=
  0 <= fst p < game_grid_width t /\ 0 <= snd p < game_grid_height t.

Definition is_wall (t : Trainer) (p : Pos) : Prop :=
  grid_at t (snd p) (fst p) = Ok WALL_CELL_STATE_CODE.

(** The trainer [__init__] builds, for levels known to load. *)
Definition trainer_of (grid : Grid) : Trainer :=
  match Trainer_init grid with
  | Ok t => t
  | Err _ => mkTrainer grid (len grid) 0 None []
  end.

(** A 1 x 1 level holding only the player spawn. *)
Definition level_1x1 : Grid := [[2]].

(** A 2 x 2 level whose bottom right cell is a wall. *)
Definition level_wall_corner : Grid :=
  [[2; 3];
   [0; 1]].

(** A 3 x 3 level without walls, player spawn at (0, 0), one enemy. *)
Definition level_open : Grid :=
  [[2; 0; 0];
   [0; 3; 0];
   [0; 0; 0]].

(** A 3 x 3 level with an enemy spawn at (0, 1), a wall at (1, 1) and the
    player spawn at (2, 1). *)
Definition level_blocked : Grid :=
  [[0; 0; 0];
   [3; 1; 2];
   [0; 0; 0]].

(** Levels that a validating loader would turn down. *)
Definition level_ragged : Grid := [[2; 0]; [0]].
Definition level_zero_width : Grid := [[]].
Definition level_no_player : Grid := [[0; 3]; [0; 0]].

(** A policy whose output always peaks at index [k] of seven. *)
Definition constant_policy (k : nat) : Policy :=
  fun _ =>
    Ok (map (fun i => if Nat.eqb i k then inject_Z 1 else inject_Z 0)
            (seq 0 7)).

(** Does a level hold a cell with the player code? *)
Definition has_player_spawn (grid : Grid) : bool :=
  existsb (existsb (fun c => c =? PLAYER_CELL_STATE_CODE)) grid.

(** Do all rows have the length of the first one? *)
Definition rectangular (grid : Grid) : bool :=
  match grid with
  | [] => true
  | row0 :: _ => forallb (fun row => len row =? len row0) grid
  end.

(** The four unit directions as (horizontal, vertical) movement. *)
Definition unit_direction (h v : Z) : Prop :=
  (h = 1 /\ v = 0) \/ (h = -1 /\ v = 0) \/ (h = 0 /\ v = 1) \/ (h = 0 /\ v = -1).

(** What an entry of the list of moves from (x, y) may be: the current
    cell, an in-bounds cell that is not a wall, or, from the bottom right
    cell only, the escape coordinate. *)
Definition valid_entry (t : Trainer) (x y : Z) (p : Pos) : Prop :=
  p = (x, y) \/
  (in_bounds t p /\ ~ is_wall t p) \/
  (p = (game_grid_width t - 1, game_grid_height t) /\
   (x, y) = (game_grid_width t - 1, game_grid_height t - 1)).

(** ** Predicates on policies, trajectories and episodes *)

(** The policy answers every observation with a vector whose selected
    index names an action. *)
Definition policy_decides (policy : Policy) : Prop :=
  forall inputs, exists output,
    policy inputs = Ok output /\ 0 <= select_decision output <= 6.

(** The policy answers every observation with [STAND_STILL]. *)
Definition always_stands (policy : Policy) : Prop :=
  forall inputs, exists output,
    policy inputs = Ok output /\ select_decision output = 4.

(** Every position of the trajectory is a cell of the level or the escape
    coordinate. *)
Definition trajectory_on_level (t : Trainer) (moves : list Pos) : Prop :=
  Forall (fun p => in_bounds t p \/ is_escape t p = true) moves.


Definition count_terminal (fit : Fitness) : nat :=
  length (filter is_terminal fit).

Definition no_terminal (steps : Fitness) : Prop :=
  Forall (fun term => is_terminal term = false) steps.

Definition only_distance_penalties (steps : Fitness) : Prop :=
  Forall (fun term => exists d2, term = DistancePenalty d2) steps.

(** ** Further parts of [trainer.py] *)

(** The value of each member of the [EnemyAction] enum. *)
Definition EnemyAction_value (action : EnemyAction) : Z :=
  match action with
  | MOVE_LEFT => 0
  | MOVE_RIGHT => 1
  | MOVE_UP => 2
  | MOVE_DOWN => 3
  | STAND_STILL => 4
  | SHOOT_PLAYER => 5
  | HIT_PLAYER => 6
  end.

(** Number of orthogonal steps between two positions. *)
Definition manhattan (p q : Pos) : Z :=
  Z.abs (fst p - fst q) + Z.abs (snd p - snd q).

Definition is_distance_penalty (term : FitnessTerm) : bool :=
  match term with
  | DistancePenalty _ => true
  | _ => false
  end.

Definition count_distance (fit : Fitness) : nat :=
  length (filter is_distance_penalty fit).

Definition count_move_reward (fit : Fitness) : nat :=
  length (filter (fun term => match term with MoveReward => true | _ => false end)
            fit).

(** [random.choice(seq)]: [seq[randbelow(len(seq))]], with the raw draw
    supplied from outside; an empty sequence raises [IndexError]. *)
Definition random_choice {A : Type} (draw : nat) (l : list A) : result A :=
  match l with
  | [] => Err IndexError
  | _ :: _ => py_index l (Z.of_nat (draw mod length l))
  end.

(** The inner [for _ in range(MAX_PLAYER_MOVES)] of
    [generate_player_moves].  [rand n] is the [n]-th draw of the random
    generator and [n] counts the draws made so far. *)
Fixpoint random_walk (t : Trainer) (rand : nat -> nat) (fuel n : nat)
    (player_x player_y : Z) (current_moves : list Pos)
    : result (list Pos * nat) :=
  match fuel with
  | O => Ok (current_moves, n)
  | S fuel' =>
      valid_moves <- get_valid_moves t player_x player_y ;;
      p <- random_choice (rand n) valid_moves ;;
      let current_moves := current_moves ++ [p] in
      if is_escape t p then Ok (current_moves, S n)
      else random_walk t rand fuel' (S n) (fst p) (snd p) current_moves
  end.

(** The outer [for _ in range(GAMES_PER_GENERATION)]. *)
Fixpoint generate_games (t : Trainer) (rand : nat -> nat) (games n : nat)
    (start : Pos) (moves : list (list Pos)) : result (list (list Pos)) :=
  match games with
  | O => Ok moves
  | S games' =>
      '(current_moves, n) <-
         random_walk t rand (Z.to_nat MAX_PLAYER_MOVES) n
           (fst start) (snd start) [] ;;
      generate_games t rand games' n start (moves ++ [current_moves])
  end.

(** Result of code that reads an attribute which may never have been
    assigned. *)
Inductive attr_result (A : Type) : Type :=
| Returned (a : A)
| AttributeError
| Raised (e : PyError).

Arguments Returned {A} a.
Arguments AttributeError {A}.
Arguments Raised {A} e.

(** [Trainer.generate_player_moves]; reading [self.player_start_x] raises
    [AttributeError] when no player cell was found at load time. *)
Definition generate_player_moves (t : Trainer) (rand : nat -> nat)
    : attr_result (list (list Pos)) :=
  match player_start t with
  | None => AttributeError
  | Some start =>
      match generate_games t rand (Z.to_nat GAMES_PER_GENERATION) 0 start []
      with
      | Ok moves => Returned moves
      | Err e => Raised e
      end
  end.

(** *** [play_game_display]: the game logic

    The calls that draw a frame are left out: with the positions on the
    level, what they draw lies on the surface of the grid.  The statements
    before the loops, which can raise, are in [display_setup] further
    down.

    The enemy turn is the one of [play_game_no_display] without the two
    updates of [genome.fitness]. *)
Definition enemy_turn_display (t : Trainer) (policy : Policy)
    (player_x player_y : Z) (done : list Pos) (enemy : Pos) (rest : list Pos)
    (health : Z) : result (Pos * Z) :=
  let '(enemy_x, enemy_y) := enemy in
  inputs <- network_inputs t (len done) (done ++ enemy :: rest)
              player_x player_y health ;;
  output <- policy inputs ;;
  decision <- EnemyAction_of_value (select_decision output) ;;
  apply_action t decision player_x player_y enemy_x enemy_y health.

Fixpoint enemies_loop_display (t : Trainer) (policy : Policy)
    (player_x player_y : Z) (done todo : list Pos) (health : Z)
    : result (list Pos * Z) :=
  match todo with
  | [] => Ok (done, health)
  | enemy :: rest =>
      '(moved, health) <-
         enemy_turn_display t policy player_x player_y done enemy rest health ;;
      if health <=? 0 then Ok (done ++ moved :: rest, health)
      else enemies_loop_display t policy player_x player_y (done ++ [moved])
             rest health
  end.

Fixpoint moves_loop_display (t : Trainer) (policy : Policy)
    (moves : list Pos) (st : EpisodeState) : result (Outcome * EpisodeState) :=
  match moves with
  | [] => Ok (MoveLimit, st)
  | (player_x, player_y) :: rest =>
      let made := moves_made st + 1 in
      if is_escape t (player_x, player_y) then
        Ok (Escaped,
            mkEpisode (player_health st) (enemy_positions st) made (fitness st))
      else
        '(enemies, health) <-
           enemies_loop_display t policy player_x player_y []
             (enemy_positions st) (player_health st) ;;
        let st := mkEpisode health enemies made (fitness st) in
        if health <=? 0 then Ok (Defeated, st)
        else moves_loop_display t policy rest st
  end.

Definition play_trajectory_display (t : Trainer) (policy : Policy)
    (moves : list Pos) (fit : Fitness) : result (Outcome * EpisodeState) :=
  let st :=
    mkEpisode PLAYER_STARTING_HEALTH (enemy_start_positions t) 0 fit in
  '(outcome, st) <- moves_loop_display t policy moves st ;;
  Ok (outcome,
      mkEpisode (player_health st) (enemy_positions st) (moves_made st)
        (fitness st ++ [terminal_term (player_health st) (moves_made st)])).

(** The [for moves in player_moves] loop of [play_game_display]. *)
Fixpoint display_trajectories (t : Trainer) (policy : Policy)
    (player_moves : list (list Pos)) (fit : Fitness) : result Fitness :=
  match player_moves with
  | [] => Ok fit
  | moves :: rest =>
      '(_, st) <- play_trajectory_display t policy moves fit ;;
      display_trajectories t policy rest (fitness st)
  end.

(** What a trajectory's headless log keeps in the displayed game. *)
Definition drop_step_terms (st0 : Fitness) (st : EpisodeState) : EpisodeState :=
  mkEpisode (player_health st) (enemy_positions st) (moves_made st)
    (st0 ++ [terminal_term (player_health st) (moves_made st)]).

(** The test [self.game_grid[y][x] != WALL_CELL_STATE_CODE] as a boolean,
    false where the cell cannot be read. *)
Definition open_cell (t : Trainer) (x y : Z) : bool :=
  match grid_at t y x with
  | Ok c => negb (c =? WALL_CELL_STATE_CODE)
  | Err _ => false
  end.

(** The bottom right cell, from which the escape coordinate is offered. *)
Definition at_corner (t : Trainer) (x y : Z) : bool :=
  (x =? game_grid_width t - 1) && (y =? game_grid_height t - 1).

(** A 3 x 3 level with a wall in the middle of the last column. *)
Definition level_wall_last_column : Grid :=
  [[2; 0; 3];
   [0; 0; 1];
   [0; 0; 0]].

(** Row-major order on positions: earlier row first, then earlier column. *)
Definition row_major_lt (p q : Pos) : Prop :=
  snd p < snd q \/ (snd p = snd q /\ fst p < fst q).

(** Results with the log [fit] put in front of the log they carry. *)
Definition prepend_log {A : Type} (fit : Fitness) (r : result (A * Fitness))
    : result (A * Fitness) :=
  match r with
  | Ok (a, f) => Ok (a, fit ++ f)
  | Err e => Err e
  end.

Definition prepend_episode (fit : Fitness)
    (r : result (Outcome * EpisodeState)) : result (Outcome * EpisodeState) :=
  match r with
  | Ok (outcome, st) =>
      Ok (outcome,
          mkEpisode (player_health st) (enemy_positions st) (moves_made st)
            (fit ++ fitness st))
  | Err e => Err e
  end.

Definition prepend_fitness (fit : Fitness) (r : result Fitness)
    : result Fitness :=
  match r with
  | Ok f => Ok (fit ++ f)
  | Err e => Err e
  end.

(** A policy that raises [e] whatever it is asked. *)
Definition raising_policy (e : PyError) : Policy := fun _ => Err e.

(** A random walk from [from]: every position is at most one orthogonal
    step from the one before, is a cell of the level that is no wall, or
    is the escape coordinate, after which the walk stops. *)
Fixpoint walk_ok (t : Trainer) (from : Pos) (walk : list Pos) : Prop :=
  match walk with
  | [] => True
  | p :: rest =>
      manhattan p from <= 1 /\
      ((in_bounds t p /\ ~ is_wall t p /\ walk_ok t p rest) \/
       (is_escape t p = true /\ rest = []))
  end.

Definition ends_in_escape (t : Trainer) (walk : list Pos) : Prop :=
  exists init p, walk = init ++ [p] /\ is_escape t p = true.

(** What [generate_player_moves] promises of one trajectory. *)
Definition generated_trajectory (t : Trainer) (start : Pos) (walk : list Pos)
    : Prop :=
  (1 <= length walk <= Z.to_nat MAX_PLAYER_MOVES)%nat /\
  (length walk = Z.to_nat MAX_PLAYER_MOVES \/ ends_in_escape t walk) /\
  walk_ok t start walk.

(** A result with the log it carries forgotten. *)
Definition drop_log {A : Type} (r : result (A * Fitness)) : result A :=
  match r with
  | Ok (a, _) => Ok a
  | Err e => Err e
  end.

(** ** The level editor ([level_editor.py])

    Drawing is left out; of pygame the geometry of [Rect] and the opening
    of the window are modelled: [Surface((w, h))] refuses a negative size
    with [pygame.error] (a [RuntimeError]), [get_rect(center=(cx, cy))]
    places a [w] by [h] rectangle with its centre there, [collidepoint]
    holds for the points from the left and top edges on, up to but without
    the right and bottom edges, and [display.set_mode] succeeds or raises
    [pygame.error] as the video system decides.  Memory for a surface that
    fits in the window is taken to be there.  The grid written by
    [json.dump] is taken to be read back unchanged by [json.load]. *)

Module Editor.

Inductive CellState : Type :=
| EMPTY
| WALL
| PLAYER
| ENEMY.

Record Rect : Type := mkRect {
  rect_left : Z;
  rect_top : Z;
  rect_width : Z;
  rect_height : Z
}.

Definition surface_rect (w h cx cy : Z) : result Rect :=
  if (w <? 0) || (h <? 0) then Err RuntimeError
  else Ok (mkRect (cx - w / 2) (cy - h / 2) w h).

Definition collidepoint (r : Rect) (x y : Z) : bool :=
  (rect_left r <=? x) && (x <? rect_left r + rect_width r)
  && (rect_top r <=? y) && (y <? rect_top r + rect_height r).

(** [a // b] *)
Definition py_floordiv (a b : Z) : result Z :=
  if b =? 0 then Err ZeroDivisionError else Ok (a / b).

(** [l.pop()]: the list without its last element. *)
Definition py_pop {A : Type} (l : list A) : result (list A) :=
  match l with
  | [] => Err IndexError
  | _ :: _ => Ok (removelast l)
  end.

Fixpoint set_nth {A : Type} (n : nat) (v : A) (l : list A) : list A :=
  match l, n with
  | [], _ => []
  | _ :: rest, O => v :: rest
  | a :: rest, S n' => a :: set_nth n' v rest
  end.

(** [l[i] = v] *)
Definition py_setitem {A : Type} (l : list A) (i : Z) (v : A)
    : result (list A) :=
  let j := if i <? 0 then len l + i else i in
  if (j <? 0) || (len l <=? j) then Err IndexError
  else Ok (set_nth (Z.to_nat j) v l).

(** A loop body applied to every element of a list, left to right. *)
Fixpoint for_each {A B : Type} (f : A -> result B) (l : list A)
    : result (list B) :=
  match l with
  | [] => Ok []
  | a :: rest => b <- f a ;; bs <- for_each f rest ;; Ok (b :: bs)
  end.

Record LevelEditor : Type := mkEditor {
  screen_width : Z;
  screen_height : Z;
  grid_margin_x : Z;
  grid_margin_y : Z;
  grid_width : Z;
  grid_height : Z;
  cell_size : Z;
  grid_rect : Rect;
  grid : list (list CellState);
  left_click_draw_mode : CellState
}.

(** The three assignments to [cell_size], [grid_surface] and [grid_rect]
    shared by [__init__] and [update_grid_dimensions]. *)
Definition layout (screen_width screen_height margin_x margin_y : Z)
    (width height : Z) : result (Z * Rect) :=
  a <- py_floordiv (screen_width - margin_x * 2) width ;;
  b <- py_floordiv (screen_height - margin_y * 2) height ;;
  let cell_size := Z.min a b in
  rect <- surface_rect (cell_size * width) (cell_size * height)
            (screen_width / 2) (screen_height / 2) ;;
  Ok (cell_size, rect).

(** [pygame.display.set_mode((w, h))]: whether the video system opens a
    window of that size is not decided by the program; [video w h] tells.
    A refusal is a [pygame.error], a [RuntimeError]. *)
Definition set_mode (video : Z -> Z -> bool) (w h : Z) : result unit :=
  if video w h then Ok tt else Err RuntimeError.

(** [LevelEditor.__init__] *)
Definition init (video : Z -> Z -> bool) (screen_width screen_height : Z)
    : result LevelEditor :=
  let grid_margin_x := 50 in
  let grid_margin_y := 50 in
  let grid_width := 25 in
  let grid_height := 25 in
  '(cell_size, rect) <-
     layout screen_width screen_height grid_margin_x grid_margin_y
       grid_width grid_height ;;
  let grid :=
    repeat (repeat EMPTY (Z.to_nat grid_width)) (Z.to_nat grid_height) in
  _ <- set_mode video screen_width screen_height ;;
  Ok (mkEditor screen_width screen_height grid_margin_x grid_margin_y
        grid_width grid_height cell_size rect grid WALL).

Definition update_grid_dimensions (ed : LevelEditor)
    (width_increment height_increment : Z) : result LevelEditor :=
  rows <-
    (if (width_increment =? -1) && (grid_width ed >? 1) then
       for_each py_pop (grid ed)
     else if width_increment =? 1 then
       Ok (map (fun row => row ++ [EMPTY]) (grid ed))
     else Ok (grid ed)) ;;
  rows <-
    (if (height_increment =? -1) && (grid_height ed >? 1) then py_pop rows
     else if height_increment =? 1 then
       Ok (rows ++ [repeat EMPTY (Z.to_nat (grid_width ed))])
     else Ok rows) ;;
  let width := Z.max 1 (grid_width ed + width_increment) in
  let height := Z.max 1 (grid_height ed + height_increment) in
  '(cell_size, rect) <-
     layout (screen_width ed) (screen_height ed) (grid_margin_x ed)
       (grid_margin_y ed) width height ;;
  Ok (mkEditor (screen_width ed) (screen_height ed) (grid_margin_x ed)
        (grid_margin_y ed) width height cell_size rect rows
        (left_click_draw_mode ed)).

Definition update_cell_state (ed : LevelEditor) (mouse_pos : Z * Z)
    (state : CellState) : result LevelEditor :=
  let '(mouse_x, mouse_y) := mouse_pos in
  if negb (collidepoint (grid_rect ed) mouse_x mouse_y) then Ok ed
  else
    x <- py_floordiv (mouse_x - rect_left (grid_rect ed)) (cell_size ed) ;;
    y <- py_floordiv (mouse_y - rect_top (grid_rect ed)) (cell_size ed) ;;
    row <- py_index (grid ed) y ;;
    row <- py_setitem row x state ;;
    rows <- py_setitem (grid ed) y row ;;
    Ok (mkEditor (screen_width ed) (screen_height ed) (grid_margin_x ed)
          (grid_margin_y ed) (grid_width ed) (grid_height ed) (cell_size ed)
          (grid_rect ed) rows (left_click_draw_mode ed)).

(** The integer written for each cell state when the level is saved. *)
Definition cell_code (state : CellState) : Z :=
  match state with
  | EMPTY => 0
  | WALL => 1
  | PLAYER => 2
  | ENEMY => 3
  end.

(** The grid dumped to [grid.json] on K_RETURN. *)
Definition export_grid (ed : LevelEditor) : Grid :=
  map (map cell_code) (grid ed).





(** The state of the cell in column [x] of row [y], both counted from 0. *)
Definition cell_at (rows : list (list CellState)) (x y : Z)
    : option CellState :=
  match nth_error rows (Z.to_nat y) with
  | Some row => nth_error row (Z.to_nat x)
  | None => None
  end.

(** The grid has [grid_height] rows of [grid_width] cells, both at least 1. *)
Definition grid_ok (ed : LevelEditor) : Prop :=
  1 <= grid_width ed /\ 1 <= grid_height ed /\
  len (grid ed) = grid_height ed /\
  Forall (fun row => len row = grid_width ed) (grid ed).

(** The grid is in shape and the layout fits it. *)
Definition editor_ok (ed : LevelEditor) : Prop :=
  grid_ok ed /\
  grid_margin_x ed * 2 <= screen_width ed /\
  grid_margin_y ed * 2 <= screen_height ed /\
  0 <= cell_size ed /\
  rect_width (grid_rect ed) = cell_size ed * grid_width ed /\
  rect_height (grid_rect ed) = cell_size ed * grid_height ed.

End Editor.

(** *** [play_game_display]: the statements before the loops

    The window ([video] tells whether the video system opens it), the
    cell size and the surface of the grid.  The font and the clock do not
    depend on the level. *)
Definition display_setup (video : Z -> Z -> bool) (t : Trainer) : result Z :=
  _ <- Editor.set_mode video 800 600 ;;
  a <- Editor.py_floordiv (800 - 50 * 2) (game_grid_width t) ;;
  b <- Editor.py_floordiv (600 - 50 * 2) (game_grid_height t) ;;
  let cell_size := Z.min a b in
  _ <- Editor.surface_rect (cell_size * game_grid_width t)
         (cell_size * game_grid_height t) (800 / 2) (600 / 2) ;;
  Ok cell_size.

Definition play_game_display (video : Z -> Z -> bool) (t : Trainer)
    (policy : Policy) (player_moves : list (list Pos)) (fit : Fitness)
    : result Fitness :=
  _ <- display_setup video t ;;
  display_trajectories t policy player_moves fit.

(** A level file as the editor writes it: at least one row, all rows of
    one length, every cell one of the four codes. *)
Definition level_ok (grid : Grid) : Prop :=
  grid <> [] /\ rectangular grid = true /\
  Forall (Forall (fun c => 0 <= c <= 3)) grid.

(** The editor as [LevelEditor()] opens it, on the default 800 x 600
    screen. *)
Definition default_editor : Editor.LevelEditor :=
  Editor.mkEditor 800 600 50 50 25 25 20 (Editor.mkRect 150 50 500 500)
    (repeat (repeat Editor.EMPTY 25) 25) Editor.WALL.

(** ** Lemmas on indexing *)

Lemma py_index_in_range {A : Type} (l : list A) (i : Z) :
  0 <= i < len l ->
  exists a, py_index l i = Ok a /\ nth_error l (Z.to_nat i) = Some a.
Proof.
  intros Hi. unfold py_index, len in *.
  destruct (Z.ltb_spec i 0) as [Hneg | _]; [lia |].
  destruct (Z.ltb_spec i 0) as [Hneg | _]; [lia |].
  destruct (nth_error l (Z.to_nat i)) as [a |] eqn:Hnth.
  - exists a. split; reflexivity.
  - apply nth_error_None in Hnth. lia.
Qed.

Lemma py_index_nil {A : Type} (i : Z) : @py_index A [] i = Err IndexError.
Proof.
  unfold py_index, len. cbn [length].
  destruct (i <? 0); destruct (_ <? 0); try reflexivity;
    destruct (Z.to_nat _); reflexivity.
Qed.

Lemma grid_at_in_bounds (t : Trainer) (x y : Z) :
  well_formed t -> in_bounds t (x, y) ->
  exists c, grid_at t y x = Ok c.
Proof.
  intros [Hh Hrows] [Hx Hy]. cbn [fst snd] in *.
  unfold grid_at.
  destruct (py_index_in_range (game_grid t) y) as (row & Hrow & Hnth);
    [lia |].
  rewrite Hrow. cbn [bind].
  assert (Hlen : len row = game_grid_width t).
  { rewrite Forall_forall in Hrows. apply Hrows.
    eapply nth_error_In; eassumption. }
  destruct (py_index_in_range row x) as (c & Hc & _); [lia |].
  exists c. exact Hc.
Qed.

Lemma trainer_init_fields (grid : Grid) (row0 : list Z) (rest : Grid) :
  grid = row0 :: rest ->
  Trainer_init grid =
    Ok (mkTrainer grid (len grid) (len row0)
          (fst (find_start_positions grid)) (snd (find_start_positions grid))).
Proof.
  intros ->. unfold Trainer_init.
  change (py_index (row0 :: rest) 0) with (Ok (A := list Z) row0).
  cbn [bind]. destruct (find_start_positions (row0 :: rest)). reflexivity.
Qed.

(** ** Level loading *)

Lemma existsb_enumerate_from {A : Type} (f : A -> bool) (l : list A) :
  forall start,
    existsb (fun ia => f (snd ia)) (enumerate_from start l) = existsb f l.
Proof.
  induction l as [| a l IH]; intros start; cbn; [reflexivity |].
  rewrite IH. reflexivity.
Qed.

Lemma find_in_row_player (y : Z) (cells : list (Z * Z)) :
  forall acc,
    fst (find_in_row y cells acc) = None <->
    fst acc = None /\
    existsb (fun xc => snd xc =? PLAYER_CELL_STATE_CODE) cells = false.
Proof.
  induction cells as [| [x c] cells IH]; intros [player enemies]; cbn.
  - tauto.
  - destruct (Z.eqb_spec c PLAYER_CELL_STATE_CODE) as [-> | Hc].
    + rewrite IH. cbn. split; [intros [H _]; discriminate H | intros [_ H]; discriminate H].
    + destruct (c =? ENEMY_CELL_STATE_CODE); rewrite IH; cbn; tauto.
Qed.

Lemma find_in_rows_player (rows : list (Z * list Z)) :
  forall acc,
    fst (find_in_rows rows acc) = None <->
    fst acc = None /\
    existsb (fun yr => existsb (fun c => c =? PLAYER_CELL_STATE_CODE) (snd yr))
      rows = false.
Proof.
  induction rows as [| [y row] rows IH]; intros acc; cbn.
  - tauto.
  - rewrite IH, find_in_row_player. unfold enumerate.
    rewrite (existsb_enumerate_from (fun c => c =? PLAYER_CELL_STATE_CODE)).
    rewrite orb_false_iff. tauto.
Qed.

Lemma find_start_positions_player (grid : Grid) :
  fst (find_start_positions grid) = None <-> has_player_spawn grid = false.
Proof.
  unfold find_start_positions, has_player_spawn, enumerate.
  rewrite find_in_rows_player. cbn [fst].
  rewrite (existsb_enumerate_from
             (existsb (fun c => c =? PLAYER_CELL_STATE_CODE))).
  tauto.
Qed.

(** C3 (counterexample).  Levels with rows of different lengths, with zero
    width, or without a player spawn are loaded without any error. *)
Lemma trainer_init_accepts_invalid_levels :
  rectangular level_ragged = false /\
  is_ok (Trainer_init level_ragged) = true /\
  len (hd [] level_zero_width) = 0 /\
  is_ok (Trainer_init level_zero_width) = true /\
  has_player_spawn level_no_player = false /\
  is_ok (Trainer_init level_no_player) = true.
Proof. repeat split; reflexivity. Qed.

(** C3 (amended).  Loading a level validates nothing: it raises exactly
    when the level has no rows (height zero), and then an [IndexError]
    from reading the first row.  Every other level, whatever its row
    lengths, its width or its spawn cells, is loaded, with height the row
    count, width the length of the first row, and the player start left
    unset exactly when no cell holds the player code. *)
Theorem trainer_init_fails_only_without_rows :
  forall grid : Grid,
    (Trainer_init grid = Err IndexError <-> grid = []) /\
    (grid <> [] ->
     exists t, Trainer_init grid = Ok t /\
       game_grid t = grid /\
       game_grid_height t = len grid /\
       game_grid_width t = len (hd [] grid) /\
       (player_start t = None <-> has_player_spawn grid = false)).
Proof.
  intros [| row0 rest].
  - split; [split; reflexivity | intros H; contradiction].
  - rewrite (trainer_init_fields (row0 :: rest) row0 rest eq_refl).
    split; [split; discriminate |].
    intros _. eexists. split; [reflexivity |].
    cbn [game_grid game_grid_height game_grid_width player_start hd].
    repeat split; try apply find_start_positions_player.
Qed.

(** ** Movement resolver: [get_new_position] *)

(** C1.  From the bottom right cell (W-1, H-1) a down move does not reach
    the escape coordinate (W-1, H): the first test of the "go down" branch
    asks for [current_y < H - 1], which fails on the last row, the second
    test fails for the same reason, and the position is returned as it
    came.  This holds on every level; no cell is read. *)
Theorem get_new_position_corner_down_stays :
  forall t : Trainer,
    let x := game_grid_width t - 1 in
    let y := game_grid_height t - 1 in
    get_new_position t x y 0 1 = Ok (x, y) /\
    get_new_position t x y 0 1 <> Ok (x, game_grid_height t).
Proof.
  intros t x y.
  assert (H : get_new_position t x y 0 1 = Ok (x, y)).
  { unfold get_new_position. cbn [Z.eqb].
    change (0 =? 1) with false. change (0 =? -1) with false. cbv iota.
    change (1 =? 1) with true. cbv iota.
    subst y. rewrite Z.ltb_irrefl, andb_false_r. reflexivity. }
  split; [exact H |].
  rewrite H. intros Heq. injection Heq as Heq. subst y. lia.
Qed.

(** On the smallest level: at (0, 0) of the 1 x 1 level, moving down
    returns (0, 0), not the escape coordinate (0, 1). *)
Example get_new_position_corner_down_1x1 :
  get_new_position (trainer_of level_1x1) 0 0 0 1 = Ok (0, 0).
Proof. reflexivity. Qed.

(** C2.  In the last column a down move enters a wall: on the 2 x 2 level
    with a wall at (1, 1), the in-bounds position (1, 0) moving down is
    sent to (1, 1), although that cell is a wall. *)
Theorem get_new_position_down_into_wall :
  let t := trainer_of level_wall_corner in
  well_formed t /\
  in_bounds t (1, 0) /\
  is_wall t (1, 1) /\
  get_new_position t 1 0 0 1 = Ok (1, 1).
Proof.
  cbv zeta. split; [| split; [| split]].
  - split; [reflexivity | repeat constructor].
  - split; cbn; lia.
  - reflexivity.
  - reflexivity.
Qed.

Ltac grid_cell t x y c Hc :=
  let H := fresh "H" in
  assert (H : exists c, grid_at t y x = Ok c)
    by (apply grid_at_in_bounds; [assumption | split; cbn [fst snd]; lia]);
  destruct H as [c Hc]; rewrite Hc; cbn [bind].

(** On a rectangular level every move from an in-bounds position returns,
    and the returned position is in bounds. *)
Lemma get_new_position_in_bounds (t : Trainer) (x y h v : Z) :
  well_formed t -> in_bounds t (x, y) ->
  exists p, get_new_position t x y h v = Ok p /\ in_bounds t p.
Proof.
  intros Hwf Hin. pose proof Hin as [Hx Hy]. cbn [fst snd] in Hx, Hy.
  unfold get_new_position.
  destruct (h =? 1).
  { destruct (Z.ltb_spec x (game_grid_width t - 1)).
    - grid_cell t (x + 1) y c Hc.
      destruct (negb _); eexists; (split; [reflexivity |]);
        split; cbn [fst snd]; lia.
    - eexists; split; [reflexivity | exact Hin]. }
  destruct (h =? -1).
  { destruct (Z.gtb_spec x 0).
    - grid_cell t (x - 1) y c Hc.
      destruct (negb _); eexists; (split; [reflexivity |]);
        split; cbn [fst snd]; lia.
    - eexists; split; [reflexivity | exact Hin]. }
  destruct (v =? 1).
  { destruct (Z.eqb_spec x (game_grid_width t - 1));
      destruct (Z.ltb_spec y (game_grid_height t - 1)); cbn [andb].
    - eexists; split; [reflexivity |]. split; cbn [fst snd]; lia.
    - eexists; split; [reflexivity | exact Hin].
    - grid_cell t x (y + 1) c Hc.
      destruct (negb _); eexists; (split; [reflexivity |]);
        split; cbn [fst snd]; lia.
    - eexists; split; [reflexivity | exact Hin]. }
  destruct (v =? -1).
  { destruct (Z.gtb_spec y 0).
    - grid_cell t x (y - 1) c Hc.
      destruct (negb _); eexists; (split; [reflexivity |]);
        split; cbn [fst snd]; lia.
    - eexists; split; [reflexivity | exact Hin]. }
  eexists; split; [reflexivity | exact Hin].
Qed.

(** Extent of the defect behind C2: away from the last column's down
    move, a move whose target is a wall or lies off the grid returns the
    position unchanged. *)
Lemma get_new_position_blocked (t : Trainer) (x y h v : Z) :
  well_formed t -> in_bounds t (x, y) -> unit_direction h v ->
  ~ in_bounds t (x + h, y + v) \/ is_wall t (x + h, y + v) ->
  ~ (v = 1 /\ x = game_grid_width t - 1 /\ y < game_grid_height t - 1) ->
  get_new_position t x y h v = Ok (x, y).
Proof.
  intros Hwf Hin Hdir Htarget Hnot.
  pose proof Hin as [Hx Hy]. cbn [fst snd] in Hx, Hy.
  unfold in_bounds, is_wall in Htarget. cbn [fst snd] in Htarget.
  unfold get_new_position.
  destruct Hdir as [[-> ->] | [[-> ->] | [[-> ->] | [-> ->]]]]; cbn [Z.eqb];
    cbv iota.
  - destruct (Z.ltb_spec x (game_grid_width t - 1)); [| reflexivity].
    destruct Htarget as [Hoff | Hwall]; [lia |].
    rewrite Z.add_0_r in Hwall. rewrite Hwall. reflexivity.
  - change (-1 =? 1) with false. change (-1 =? -1) with true. cbv iota.
    destruct (Z.gtb_spec x 0); [| reflexivity].
    destruct Htarget as [Hoff | Hwall]; [lia |].
    rewrite Z.add_0_r in Hwall.
    replace (x - 1) with (x + -1) by lia. rewrite Hwall. reflexivity.
  - change (0 =? 1) with false. change (0 =? -1) with false.
    change (1 =? 1) with true. cbv iota.
    destruct (Z.eqb_spec x (game_grid_width t - 1));
      destruct (Z.ltb_spec y (game_grid_height t - 1)); cbn [andb];
      try reflexivity; [lia |].
    destruct Htarget as [Hoff | Hwall]; [lia |].
    rewrite Z.add_0_r in Hwall. rewrite Hwall. reflexivity.
  - change (0 =? 1) with false. change (0 =? -1) with false.
    change (-1 =? 1) with false. change (-1 =? -1) with true. cbv iota.
    destruct (Z.gtb_spec y 0); [| reflexivity].
    destruct Htarget as [Hoff | Hwall]; [lia |].
    rewrite Z.add_0_r in Hwall.
    replace (y - 1) with (y + -1) by lia. rewrite Hwall. reflexivity.
Qed.

(** ** Movement resolver: [get_valid_moves] *)

Lemma append_if_open_keeps (t : Trainer) (P : Pos -> Prop) (b : bool)
    (x y : Z) (moves : list Pos) :
  well_formed t ->
  (b = true -> in_bounds t (x, y)) ->
  (in_bounds t (x, y) -> ~ is_wall t (x, y) -> P (x, y)) ->
  Forall P moves ->
  exists moves', append_if_open t b y x (x, y) moves = Ok moves' /\
    Forall P moves' /\ incl moves moves'.
Proof.
  intros Hwf Hb HP Hall. unfold append_if_open.
  destruct b.
  - specialize (Hb eq_refl).
    destruct (grid_at_in_bounds t x y Hwf Hb) as [c Hc].
    rewrite Hc. cbn [bind].
    destruct (Z.eqb_spec c WALL_CELL_STATE_CODE) as [-> | Hne]; cbn [negb].
    + exists moves. split; [reflexivity |]. split; [exact Hall | apply incl_refl].
    + exists (moves ++ [(x, y)]). split; [reflexivity |]. split.
      * apply Forall_app. split; [exact Hall |].
        constructor; [| constructor]. apply HP; [exact Hb |].
        unfold is_wall. cbn [fst snd]. rewrite Hc. congruence.
      * apply incl_appl, incl_refl.
  - exists moves. split; [reflexivity |]. split; [exact Hall | apply incl_refl].
Qed.

(** C6.  From an in-bounds position of a rectangular level,
    [get_valid_moves] returns a list that contains the current cell; every
    entry other than the current cell is an in-bounds cell that is not a
    wall or, only when standing at (W-1, H-1), the escape coordinate
    (W-1, H); so when the current cell is itself no wall, the list holds no
    wall and no out-of-bounds cell apart from that escape entry; and at
    (W-1, H-1) the escape coordinate is in the list. *)
Theorem get_valid_moves_sound :
  forall (t : Trainer) (x y : Z),
    well_formed t -> in_bounds t (x, y) ->
    exists moves, get_valid_moves t x y = Ok moves /\
      In (x, y) moves /\
      (forall p, In p moves -> valid_entry t x y p) /\
      (~ is_wall t (x, y) ->
       forall p, In p moves ->
         (in_bounds t p /\ ~ is_wall t p) \/
         (p = (game_grid_width t - 1, game_grid_height t) /\
          (x, y) = (game_grid_width t - 1, game_grid_height t - 1))) /\
      ((x, y) = (game_grid_width t - 1, game_grid_height t - 1) ->
       In (game_grid_width t - 1, game_grid_height t) moves).
Proof.
  intros t x y Hwf Hin. pose proof Hin as [Hx Hy]. cbn [fst snd] in Hx, Hy.
  set (P := valid_entry t x y).
  assert (Hopen : forall q, in_bounds t q -> ~ is_wall t q -> P q).
  { intros q Hq Hw. right. left. split; assumption. }
  assert (H0 : Forall P [(x, y)]).
  { constructor; [left; reflexivity | constructor]. }
  unfold get_valid_moves.
  destruct (append_if_open_keeps t P (x >? 0) (x - 1) y [(x, y)] Hwf)
    as (m1 & E1 & F1 & I1); auto.
  { intros Hb. apply Z.gtb_lt in Hb. split; cbn [fst snd]; lia. }
  rewrite E1. cbn [bind].
  destruct (append_if_open_keeps t P (x <? game_grid_width t - 1) (x + 1) y
              m1 Hwf) as (m2 & E2 & F2 & I2); auto.
  { intros Hb. apply Z.ltb_lt in Hb. split; cbn [fst snd]; lia. }
  rewrite E2. cbn [bind].
  destruct (append_if_open_keeps t P (y >? 0) x (y - 1) m2 Hwf)
    as (m3 & E3 & F3 & I3); auto.
  { intros Hb. apply Z.gtb_lt in Hb. split; cbn [fst snd]; lia. }
  rewrite E3. cbn [bind].
  set (m4 := if (x =? game_grid_width t - 1) && (y =? game_grid_height t - 1)
             then m3 ++ [(x, y + 1)] else m3).
  assert (F4 : Forall P m4).
  { subst m4.
    destruct (Z.eqb_spec x (game_grid_width t - 1)) as [Ex | Ex];
      destruct (Z.eqb_spec y (game_grid_height t - 1)) as [Ey | Ey];
      cbn [andb]; try exact F3.
    apply Forall_app. split; [exact F3 |].
    constructor; [| constructor]. right. right.
    split; f_equal; lia. }
  assert (I4 : incl m3 m4).
  { subst m4. destruct (_ && _); [apply incl_appl |]; apply incl_refl. }
  assert (C4 : (x, y) = (game_grid_width t - 1, game_grid_height t - 1) ->
               In (game_grid_width t - 1, game_grid_height t) m4).
  { intros Heq. injection Heq as Ex Ey. subst m4.
    destruct (Z.eqb_spec x (game_grid_width t - 1)); [| contradiction].
    destruct (Z.eqb_spec y (game_grid_height t - 1)); [| contradiction].
    cbn [andb]. apply in_or_app. right. left. f_equal; lia. }
  destruct (append_if_open_keeps t P (y <? game_grid_height t - 1) x (y + 1)
              m4 Hwf) as (m5 & E5 & F5 & I5); auto.
  { intros Hb. apply Z.ltb_lt in Hb. split; cbn [fst snd]; lia. }
  exists m5. split; [exact E5 |].
  rewrite Forall_forall in F5.
  split; [| split; [| split]].
  - apply I5, I4, I3, I2, I1. left. reflexivity.
  - exact F5.
  - intros Hnw p Hp. destruct (F5 p Hp) as [-> | [H | H]].
    + left. split; assumption.
    + left. exact H.
    + right. exact H.
  - intros Heq. apply I5, C4, Heq.
Qed.

(** C6 (witness): the bottom right cell of the open 3 x 3 level. *)
Lemma get_valid_moves_sound_witness :
  exists moves, get_valid_moves (trainer_of level_open) 2 2 = Ok moves /\
    In (2, 2) moves /\ In (2, 3) moves.
Proof.
  destruct (get_valid_moves_sound (trainer_of level_open) 2 2)
    as (moves & E & Hcur & _ & _ & Hesc).
  - split; [reflexivity | repeat constructor].
  - split; cbn; lia.
  - exists moves. split; [exact E |]. split; [exact Hcur |].
    apply Hesc. reflexivity.
Defined.

(** ** Combat resolver *)

Lemma py_range_empty (lo hi : Z) : hi <= lo -> py_range lo hi = [].
Proof.
  intros H. unfold py_range.
  replace (Z.to_nat (hi - lo)) with 0%nat by lia. reflexivity.
Qed.

Lemma py_range_step (lo hi : Z) :
  lo < hi -> py_range lo hi = lo :: py_range (lo + 1) hi.
Proof.
  intros H. unfold py_range.
  replace (Z.to_nat (hi - lo)) with (S (Z.to_nat (hi - (lo + 1)))) by lia.
  cbn [seq map]. rewrite <- seq_shift, map_map. f_equal; [cbn; lia |].
  apply map_ext. intros k. lia.
Qed.

(** [all] over a range answers [False] as soon as it meets a failing
    element, provided the elements before it can be evaluated. *)
Lemma py_all_stops (f : Z -> result bool) (x : Z) :
  f x = Ok false ->
  forall (n : nat) (lo hi : Z),
    Z.to_nat (x - lo) = n -> lo <= x < hi ->
    (forall k, lo <= k < x -> is_ok (f k) = true) ->
    py_all f (py_range lo hi) = Ok false.
Proof.
  intros Hx. induction n as [| n IH]; intros lo hi Hn Hlo Hok.
  - assert (lo = x) by lia. subst lo.
    rewrite py_range_step by lia. cbn [py_all]. rewrite Hx. reflexivity.
  - rewrite py_range_step by lia. cbn [py_all].
    destruct (f lo) as [b | e] eqn:Hf.
    + cbn [bind]. destruct b; [| reflexivity].
      apply IH; [lia | lia |]. intros k Hk. apply Hok. lia.
    + specialize (Hok lo ltac:(lia)). rewrite Hf in Hok. discriminate Hok.
Qed.

(** [all] over a range returns when every element can be evaluated. *)
Lemma py_all_total (f : Z -> result bool) :
  forall (n : nat) (lo hi : Z),
    Z.to_nat (hi - lo) = n ->
    (forall k, lo <= k < hi -> is_ok (f k) = true) ->
    exists b, py_all f (py_range lo hi) = Ok b.
Proof.
  induction n as [| n IH]; intros lo hi Hn Hok.
  - rewrite py_range_empty by lia. exists true. reflexivity.
  - rewrite py_range_step by lia. cbn [py_all].
    destruct (f lo) as [b | e] eqn:Hf.
    + cbn [bind]. destruct b; [| exists false; reflexivity].
      apply IH; [lia |]. intros k Hk. apply Hok. lia.
    + specialize (Hok lo ltac:(lia)). rewrite Hf in Hok. discriminate Hok.
Qed.

Lemma open_cell_ok (t : Trainer) (x y : Z) :
  well_formed t -> in_bounds t (x, y) ->
  is_ok (c <- grid_at t y x ;; Ok (negb (c =? WALL_CELL_STATE_CODE))) = true.
Proof.
  intros Hwf Hin. destruct (grid_at_in_bounds t x y Hwf Hin) as [c ->].
  reflexivity.
Qed.

Lemma row_clear_total (t : Trainer) (y lo hi : Z) :
  well_formed t -> 0 <= y < game_grid_height t ->
  0 <= lo -> hi <= game_grid_width t ->
  exists b, row_clear t y lo hi = Ok b.
Proof.
  intros Hwf Hy Hlo Hhi. unfold row_clear.
  eapply py_all_total; [reflexivity |].
  intros k Hk. apply open_cell_ok; [exact Hwf |].
  split; cbn [fst snd]; lia.
Qed.

Lemma column_clear_total (t : Trainer) (x lo hi : Z) :
  well_formed t -> 0 <= x < game_grid_width t ->
  0 <= lo -> hi <= game_grid_height t ->
  exists b, column_clear t x lo hi = Ok b.
Proof.
  intros Hwf Hx Hlo Hhi. unfold column_clear.
  eapply py_all_total; [reflexivity |].
  intros k Hk. apply open_cell_ok; [exact Hwf |].
  split; cbn [fst snd]; lia.
Qed.

Lemma row_clear_blocked (t : Trainer) (y lo hi x : Z) :
  well_formed t -> 0 <= y < game_grid_height t ->
  0 <= lo -> hi <= game_grid_width t ->
  lo <= x < hi -> is_wall t (x, y) ->
  row_clear t y lo hi = Ok false.
Proof.
  intros Hwf Hy Hlo Hhi Hx Hwall. unfold row_clear.
  eapply py_all_stops with (x := x); [| reflexivity | exact Hx |].
  - unfold is_wall in Hwall. cbn [fst snd] in Hwall. rewrite Hwall.
    reflexivity.
  - intros k Hk. apply open_cell_ok; [exact Hwf |].
    split; cbn [fst snd]; lia.
Qed.

Lemma column_clear_blocked (t : Trainer) (x lo hi y : Z) :
  well_formed t -> 0 <= x < game_grid_width t ->
  0 <= lo -> hi <= game_grid_height t ->
  lo <= y < hi -> is_wall t (x, y) ->
  column_clear t x lo hi = Ok false.
Proof.
  intros Hwf Hx Hlo Hhi Hy Hwall. unfold column_clear.
  eapply py_all_stops with (x := y); [| reflexivity | exact Hy |].
  - unfold is_wall in Hwall. cbn [fst snd] in Hwall. rewrite Hwall.
    reflexivity.
  - intros k Hk. apply open_cell_ok; [exact Hwf |].
    split; cbn [fst snd]; lia.
Qed.

Lemma dist2_same (x y : Z) : dist2 x y x y = 0.
Proof. unfold dist2. rewrite !Z.sub_diag. reflexivity. Qed.

(** C4.  When attacker and player stand on the same cell, a shot passes
    the row test and the column test (both ranges of cells to inspect are
    empty), so the 20 points are taken twice: health drops by 40.  No cell
    of the level is read. *)
Theorem shoot_player_same_cell_hits_twice :
  forall (t : Trainer) (x y health : Z),
    shoot_player t x y x y health = Ok (health - 2 * ENEMY_SHOOT_DAMAGE) /\
    apply_action t SHOOT_PLAYER x y x y health = Ok ((x, y), health - 40).
Proof.
  intros t x y health.
  assert (H : shoot_player t x y x y health = Ok (health - 40)).
  { unfold shoot_player. rewrite dist2_same. cbn [Z.leb Z.mul Z.compare Pos.mul].
    cbv iota. rewrite !Z.eqb_refl.
    unfold shoot_along_row, shoot_along_column, row_clear, column_clear.
    rewrite !py_range_empty by lia. rewrite !Z.leb_refl. cbn.
    f_equal. unfold ENEMY_SHOOT_DAMAGE. lia. }
  split.
  - rewrite H. reflexivity.
  - cbn [apply_action]. rewrite H. reflexivity.
Qed.

Lemma shoot_player_blocked (t : Trainer) (px py ex ey health : Z) :
  well_formed t -> in_bounds t (ex, ey) -> in_bounds t (px, py) ->
  (ey = py /\
   exists x, Z.min ex px < x < Z.max ex px /\ is_wall t (x, ey)) \/
  (ex = px /\
   exists y, Z.min ey py < y < Z.max ey py /\ is_wall t (ex, y)) ->
  shoot_player t px py ex ey health = Ok health.
Proof.
  intros Hwf [Hex Hey] [Hpx Hpy] Hblock. cbn [fst snd] in *.
  unfold shoot_player.
  destruct (dist2 px py ex ey <=? 3 * 3); [| reflexivity].
  destruct Hblock as [[-> (x & Hx & Hwall)] | [-> (y & Hy & Hwall)]].
  - rewrite Z.eqb_refl. unfold shoot_along_row.
    destruct (Z.leb_spec ex px) as [Hle | Hgt]; cbn [py_and].
    + rewrite (row_clear_blocked t py ex px x) by (assumption || lia).
      cbn [bind]. destruct (Z.gtb_spec ex px); [lia |]. cbn [py_and bind].
      destruct (Z.eqb_spec ex px); [lia | reflexivity].
    + cbn [bind]. destruct (Z.gtb_spec ex px); [| lia]. cbn [py_and].
      rewrite (row_clear_blocked t py px ex x) by (assumption || lia).
      cbn [bind]. destruct (Z.eqb_spec ex px); [lia | reflexivity].
  - destruct (Z.eqb_spec ey py); [lia |]. cbn [bind].
    rewrite Z.eqb_refl. unfold shoot_along_column.
    destruct (Z.leb_spec ey py) as [Hle | Hgt]; cbn [py_and].
    + rewrite (column_clear_blocked t px ey py y) by (assumption || lia).
      cbn [bind]. destruct (Z.gtb_spec ey py); [lia |]. reflexivity.
    + cbn [bind]. destruct (Z.gtb_spec ey py); [| lia]. cbn [py_and].
      rewrite (column_clear_blocked t px py ey y) by (assumption || lia).
      reflexivity.
Qed.

(** C7.  On a rectangular level, with attacker and player in bounds, a
    wall strictly between them on their shared row or shared column makes
    [SHOOT_PLAYER] leave the health (and the attacker) as they were.  In
    particular, on any such level with a wall at (1, 1), the enemy at
    (0, 1) shooting at the player at (2, 1) deals no damage. *)
Theorem shoot_blocked_by_wall_between :
  forall (t : Trainer),
    well_formed t ->
    (forall px py ex ey health,
       in_bounds t (ex, ey) -> in_bounds t (px, py) ->
       (ey = py /\
        exists x, Z.min ex px < x < Z.max ex px /\ is_wall t (x, ey)) \/
       (ex = px /\
        exists y, Z.min ey py < y < Z.max ey py /\ is_wall t (ex, y)) ->
       apply_action t SHOOT_PLAYER px py ex ey health
       = Ok ((ex, ey), health)) /\
    (3 <= game_grid_width t -> 2 <= game_grid_height t ->
     is_wall t (1, 1) ->
     forall health,
       apply_action t SHOOT_PLAYER 2 1 0 1 health = Ok ((0, 1), health)).
Proof.
  intros t Hwf.
  assert (G : forall px py ex ey health,
             in_bounds t (ex, ey) -> in_bounds t (px, py) ->
             (ey = py /\
              exists x, Z.min ex px < x < Z.max ex px /\ is_wall t (x, ey)) \/
             (ex = px /\
              exists y, Z.min ey py < y < Z.max ey py /\ is_wall t (ex, y)) ->
             apply_action t SHOOT_PLAYER px py ex ey health
             = Ok ((ex, ey), health)).
  { intros px py ex ey health He Hp Hb. cbn [apply_action].
    rewrite (shoot_player_blocked t px py ex ey health Hwf He Hp Hb).
    reflexivity. }
  split; [exact G |].
  intros HW HH Hwall health. apply G.
  - split; cbn [fst snd]; lia.
  - split; cbn [fst snd]; lia.
  - left. split; [reflexivity |]. exists 1. split; [lia | exact Hwall].
Qed.

(** C7 (witness): the level of the example, health 100. *)
Lemma shoot_blocked_by_wall_between_witness :
  apply_action (trainer_of level_blocked) SHOOT_PLAYER 2 1 0 1 100
  = Ok ((0, 1), 100).
Proof.
  refine (proj2 (shoot_blocked_by_wall_between (trainer_of level_blocked) _)
            _ _ _ 100).
  - split; [reflexivity | repeat constructor].
  - cbn. lia.
  - cbn. lia.
  - reflexivity.
Defined.

(** Positions on a level, the escape coordinate included, are within the
    range in which the distance and the observation are computed. *)
Lemma level_positions_float_safe (t : Trainer) (p e : Pos) :
  level_fits t ->
  in_bounds t p \/ is_escape t p = true ->
  in_bounds t e ->
  dist2 (fst p) (snd p) (fst e) (snd e) < FLOAT_SAFE /\
  float_safe_pos p /\ float_safe_pos e.
Proof.
  intros [HW HH] Hp [Hex Hey]. unfold LIST_MAX in HW, HH.
  set (M := 2 ^ 63) in *.
  assert (HM : 0 < M) by (unfold M; lia).
  assert (Hpx : 0 <= fst p < M /\ 0 <= snd p <= M).
  { destruct Hp as [[Hx Hy] | Hesc]; [lia |].
    unfold is_escape in Hesc. apply andb_prop in Hesc as [Hx Hy].
    apply Z.eqb_eq in Hx, Hy. lia. }
  assert (Hbig : 2 * (M * M) + M + 1 < FLOAT_SAFE)
    by (unfold M, FLOAT_SAFE; vm_compute; reflexivity).
  assert (Hdx : (fst p - fst e) ^ 2 <= M * M)
    by (rewrite Z.pow_2_r; nia).
  assert (Hdy : (snd p - snd e) ^ 2 <= M * M)
    by (rewrite Z.pow_2_r; nia).
  assert (HMM : 0 <= M * M) by nia.
  unfold dist2, float_safe_pos. repeat split; lia.
Qed.

(** C8.  For attacker and player at a squared distance below
    [FLOAT_SAFE], where [math.sqrt] returns: [SHOOT_PLAYER] leaves the
    health unchanged when the squared distance exceeds 9 (distance above
    3) or when attacker and player share neither row nor column.
    [HIT_PLAYER] never reads the level: it takes exactly 50 points when
    the squared distance is at most 1 (distance at most 1) and nothing
    otherwise, whatever the walls. *)
Theorem shoot_and_hit_ranges :
  forall (t : Trainer) (px py ex ey health : Z),
    dist2 px py ex ey < FLOAT_SAFE ->
    (9 < dist2 px py ex ey \/ (ex <> px /\ ey <> py) ->
     apply_action t SHOOT_PLAYER px py ex ey health = Ok ((ex, ey), health)) /\
    (exists health',
       apply_action t HIT_PLAYER px py ex ey health = Ok ((ex, ey), health') /\
       (health' = health - 50 <-> dist2 px py ex ey <= 1) /\
       (health' = health <-> 1 < dist2 px py ex ey)).
Proof.
  intros t px py ex ey health _. split.
  - intros Hfar. cbn [apply_action]. unfold shoot_player.
    destruct (Z.leb_spec (dist2 px py ex ey) (3 * 3)) as [Hnear | _];
      [| reflexivity].
    destruct Hfar as [Hfar | [Hx Hy]]; [lia |].
    destruct (Z.eqb_spec ey py); [contradiction |]. cbn [bind].
    destruct (Z.eqb_spec ex px); [contradiction |]. reflexivity.
  - cbn [apply_action]. eexists. split; [reflexivity |].
    unfold hit_player, ENEMY_HIT_DAMAGE.
    destruct (Z.leb_spec (dist2 px py ex ey) (1 * 1)); lia.
Qed.

(** C8 (witness): a shot over distance 4 along a row, and a shot at a
    player on the diagonal. *)
Lemma shoot_and_hit_ranges_witness :
  apply_action (trainer_of level_open) SHOOT_PLAYER 4 0 0 0 100
  = Ok ((0, 0), 100) /\
  apply_action (trainer_of level_open) SHOOT_PLAYER 1 1 0 0 100
  = Ok ((0, 0), 100).
Proof.
  split.
  - refine (proj1 (shoot_and_hit_ranges (trainer_of level_open) 4 0 0 0 100
                     _) _).
    + vm_compute. reflexivity.
    + left. vm_compute. reflexivity.
  - refine (proj1 (shoot_and_hit_ranges (trainer_of level_open) 1 1 0 0 100
                     _) _).
    + vm_compute. reflexivity.
    + right. split; lia.
Defined.

(** ** Decision selection *)

Lemma Qgtb_true (value largest : Q) :
  Qgtb value largest = true <-> (largest < value)%Q.
Proof.
  unfold Qgtb. rewrite negb_true_iff. split.
  - intros H. apply Qnot_le_lt. intros Hle.
    apply Qle_bool_iff in Hle. congruence.
  - intros H. destruct (Qle_bool value largest) eqn:E; [| reflexivity].
    apply Qle_bool_iff in E. exfalso. eapply Qlt_not_le; eassumption.
Qed.

Lemma Qgtb_false (value largest : Q) :
  Qgtb value largest = false <-> (value <= largest)%Q.
Proof.
  unfold Qgtb. rewrite negb_false_iff. apply Qle_bool_iff.
Qed.

(** The selection loop either keeps the decision it started with, and
    then no remaining value exceeds the running maximum, or it returns the
    first position of the largest remaining value, which exceeds the
    running maximum it started with. *)
Lemma select_loop_spec (output : list Q) :
  forall (start : Z) (largest : Q) (decision : Z),
    let r := select_loop (enumerate_from start output) largest decision in
    (r = decision /\ forall v, In v output -> (v <= largest)%Q) \/
    (exists k : nat,
       (k < length output)%nat /\ r = start + Z.of_nat k /\
       (largest < nth k output 0)%Q /\
       (forall j, (j < length output)%nat ->
                  (nth j output 0 <= nth k output 0)%Q) /\
       (forall j, (j < k)%nat -> (nth j output 0 < nth k output 0)%Q)).
Proof.
  induction output as [| value rest IH]; intros start largest decision r.
  - left. split; [reflexivity | intros v []].
  - subst r. cbn [enumerate_from select_loop].
    destruct (Qgtb value largest) eqn:Hcmp.
    + apply Qgtb_true in Hcmp. right.
      destruct (IH (start + 1) value start) as [[Hr Hall] | (k & Hk & Hr & Hgt & Hmax & Hfirst)].
      * exists 0%nat. cbn [nth length].
        split; [lia |]. split; [rewrite Hr; lia |]. split; [exact Hcmp |].
        split.
        -- intros [| j] Hj; [apply Qle_refl |].
           cbn [nth]. apply Hall, nth_In. cbn [length] in Hj. lia.
        -- intros j Hj. lia.
      * exists (S k). cbn [nth length].
        split; [lia |]. split; [rewrite Hr; lia |].
        split; [eapply Qlt_trans; eassumption |].
        split.
        -- intros [| j] Hj; [apply Qlt_le_weak, Hgt |].
           cbn [nth]. apply Hmax. cbn [length] in Hj. lia.
        -- intros [| j] Hj; [exact Hgt |].
           cbn [nth]. apply Hfirst. lia.
    + apply Qgtb_false in Hcmp.
      destruct (IH (start + 1) largest decision) as [[Hr Hall] | (k & Hk & Hr & Hgt & Hmax & Hfirst)].
      * left. split; [exact Hr |].
        intros v [<- | Hv]; [exact Hcmp | apply Hall, Hv].
      * right. exists (S k). cbn [nth length].
        split; [lia |]. split; [rewrite Hr; lia |].
        split; [exact Hgt |].
        split.
        -- intros [| j] Hj.
           ++ apply Qlt_le_weak. eapply Qle_lt_trans; eassumption.
           ++ cbn [nth]. apply Hmax. cbn [length] in Hj. lia.
        -- intros [| j] Hj.
           ++ eapply Qle_lt_trans; eassumption.
           ++ cbn [nth]. apply Hfirst. lia.
Qed.

(** C10.  The running maximum starts at -1 and only a strictly greater
    value replaces it.  If some output exceeds -1, the decision is the
    first index that attains the maximum of the output vector.  If every
    output is at most -1 (or the vector is empty), the decision stays -1
    and [EnemyAction(-1)] raises [ValueError]: no action is produced. *)
Theorem select_decision_first_maximum :
  forall output : list Q,
    ((exists v, In v output /\ (inject_Z (-1) < v)%Q) ->
     exists i : nat,
       select_decision output = Z.of_nat i /\
       (i < length output)%nat /\
       (forall j, (j < length output)%nat ->
                  (nth j output 0 <= nth i output 0)%Q) /\
       (forall j, (j < i)%nat -> (nth j output 0 < nth i output 0)%Q)) /\
    ((forall v, In v output -> (v <= inject_Z (-1))%Q) ->
     select_decision output = -1 /\
     EnemyAction_of_value (select_decision output) = Err ValueError).
Proof.
  intros output. unfold select_decision, enumerate.
  destruct (select_loop_spec output 0 (inject_Z (-1)) (-1))
    as [[Hr Hall] | (k & Hk & Hr & Hgt & Hmax & Hfirst)].
  - split.
    + intros (v & Hv & Hgt). exfalso.
      eapply Qlt_not_le; [exact Hgt | apply Hall, Hv].
    + intros _. rewrite Hr. split; reflexivity.
  - split.
    + intros _. exists k. rewrite Hr.
      split; [lia |]. split; [exact Hk |]. split; assumption.
    + intros Hall. exfalso.
      eapply Qlt_not_le; [exact Hgt |]. apply Hall, nth_In, Hk.
Qed.

(** C10 (witness): a tie between indices 1 and 3 goes to index 1; a vector
    of values at most -1 selects nothing. *)
Lemma select_decision_first_maximum_witness :
  (exists i : nat,
     select_decision [inject_Z 0; inject_Z 2; inject_Z 1; inject_Z 2]
     = Z.of_nat i /\
     (forall j, (j < i)%nat ->
        (nth j [inject_Z 0; inject_Z 2; inject_Z 1; inject_Z 2] 0
         < nth i [inject_Z 0; inject_Z 2; inject_Z 1; inject_Z 2] 0)%Q)) /\
  EnemyAction_of_value (select_decision [inject_Z (-1); inject_Z (-3)])
  = Err ValueError.
Proof.
  split.
  - destruct (proj1 (select_decision_first_maximum
                       [inject_Z 0; inject_Z 2; inject_Z 1; inject_Z 2]))
      as (i & Hi & _ & _ & Hfirst).
    + exists (inject_Z 2). split; [cbn; tauto | reflexivity].
    + exists i. split; assumption.
  - apply (proj2 (select_decision_first_maximum
                    [inject_Z (-1); inject_Z (-3)])).
    intros v [<- | [<- | []]]; vm_compute; discriminate.
Defined.

Example select_decision_tie :
  select_decision [inject_Z 0; inject_Z 2; inject_Z 1; inject_Z 2] = 1.
Proof. reflexivity. Qed.

(** ** Episode simulator: the fitness log *)

Lemma no_terminal_app (a b : Fitness) :
  no_terminal a -> no_terminal b -> no_terminal (a ++ b).
Proof. intros Ha Hb. apply Forall_app. split; assumption. Qed.

Lemma count_terminal_app (a b : Fitness) :
  count_terminal (a ++ b) = (count_terminal a + count_terminal b)%nat.
Proof. unfold count_terminal. rewrite filter_app, length_app. reflexivity. Qed.

Lemma count_terminal_none (steps : Fitness) :
  no_terminal steps -> count_terminal steps = 0%nat.
Proof.
  unfold count_terminal. induction 1 as [| term steps Hterm _ IH];
    [reflexivity |].
  cbn [filter]. rewrite Hterm. exact IH.
Qed.

Lemma terminal_term_is_terminal (health made : Z) :
  is_terminal (terminal_term health made) = true.
Proof. unfold terminal_term. destruct (health >? 0); reflexivity. Qed.

(** One enemy turn appends the optional move reward and the distance
    penalty, and nothing else. *)
Lemma enemy_turn_fitness (t : Trainer) (policy : Policy) (px py : Z)
    (done : list Pos) (enemy : Pos) (rest : list Pos) (health : Z)
    (fit : Fitness) (moved : Pos) (health' : Z) (fit' : Fitness) :
  enemy_turn t policy px py done enemy rest health fit
  = Ok (moved, health', fit') ->
  exists steps, fit' = fit ++ steps /\ no_terminal steps.
Proof.
  unfold enemy_turn. destruct enemy as [ex ey].
  destruct (network_inputs _ _ _ _ _ _) as [inputs |]; [| discriminate].
  cbn [bind]. destruct (policy inputs) as [output |]; [| discriminate].
  cbn [bind]. destruct (EnemyAction_of_value _) as [action |]; [| discriminate].
  cbn [bind]. destruct (apply_action _ _ _ _ _ _ _) as [[m h] |];
    [| discriminate].
  cbn [bind]. intros H. injection H as <- <- <-.
  destruct (pos_neqb (ex, ey) m).
  - exists [MoveReward; DistancePenalty (dist2 px py (fst m) (snd m))].
    split; [rewrite <- app_assoc; reflexivity | repeat constructor].
  - exists [DistancePenalty (dist2 px py (fst m) (snd m))].
    split; [reflexivity | repeat constructor].
Qed.

Lemma enemies_loop_fitness (t : Trainer) (policy : Policy) (px py : Z)
    (todo : list Pos) :
  forall done health fit enemies health' fit',
    enemies_loop t policy px py done todo health fit
    = Ok (enemies, health', fit') ->
    exists steps, fit' = fit ++ steps /\ no_terminal steps.
Proof.
  induction todo as [| enemy rest IH];
    intros done health fit enemies health' fit' H; cbn [enemies_loop] in H.
  - injection H as <- <- <-. exists []. split; [symmetry; apply app_nil_r |].
    constructor.
  - destruct (enemy_turn _ _ _ _ _ _ _ _ _) as [[[m h] f] |] eqn:Hturn;
      [| discriminate].
    cbn [bind] in H.
    destruct (enemy_turn_fitness _ _ _ _ _ _ _ _ _ _ _ _ Hturn)
      as (s1 & -> & Hs1).
    destruct (h <=? 0).
    + injection H as <- <- <-. exists s1. split; [reflexivity | exact Hs1].
    + destruct (IH _ _ _ _ _ _ H) as (s2 & -> & Hs2).
      exists (s1 ++ s2). split; [rewrite app_assoc; reflexivity |].
      apply no_terminal_app; assumption.
Qed.

Lemma moves_loop_fitness (t : Trainer) (policy : Policy) (moves : list Pos) :
  forall st outcome st',
    moves_loop t policy moves st = Ok (outcome, st') ->
    exists steps, fitness st' = fitness st ++ steps /\ no_terminal steps.
Proof.
  induction moves as [| [px py] rest IH]; intros st outcome st' H;
    cbn [moves_loop] in H.
  - injection H as <- <-. exists []. split; [symmetry; apply app_nil_r |].
    constructor.
  - destruct (is_escape t (px, py)).
    + injection H as <- <-. exists [].
      split; [symmetry; apply app_nil_r | constructor].
    + destruct (enemies_loop _ _ _ _ _ _ _ _) as [[[es h] f] |] eqn:Hloop;
        [| discriminate].
      cbn [bind] in H.
      destruct (enemies_loop_fitness _ _ _ _ _ _ _ _ _ _ _ Hloop)
        as (s1 & -> & Hs1).
      destruct (h <=? 0).
      * injection H as <- <-. exists s1. split; [reflexivity | exact Hs1].
      * destruct (IH _ _ _ H) as (s2 & Hfit & Hs2). cbn [fitness] in Hfit.
        exists (s1 ++ s2). split; [rewrite Hfit, app_assoc; reflexivity |].
        apply no_terminal_app; assumption.
Qed.

Lemma play_trajectory_fitness (t : Trainer) (policy : Policy)
    (moves : list Pos) (fit : Fitness) (outcome : Outcome)
    (st : EpisodeState) :
  play_trajectory t policy moves fit = Ok (outcome, st) ->
  exists steps,
    fitness st
    = fit ++ steps ++ [terminal_term (player_health st) (moves_made st)] /\
    no_terminal steps.
Proof.
  unfold play_trajectory.
  destruct (moves_loop _ _ _ _) as [[o st1] |] eqn:Hloop; [| discriminate].
  cbn [bind]. intros H. injection H as <- <-.
  destruct (moves_loop_fitness _ _ _ _ _ _ Hloop) as (steps & Hfit & Hsteps).
  cbn [fitness] in Hfit. exists steps.
  cbn [fitness player_health moves_made]. rewrite Hfit, app_assoc.
  split; [reflexivity | exact Hsteps].
Qed.

Lemma play_game_count_terminal (t : Trainer) (policy : Policy)
    (player_moves : list (list Pos)) :
  forall fit fit',
    play_game_no_display t policy player_moves fit = Ok fit' ->
    count_terminal fit' = (count_terminal fit + length player_moves)%nat.
Proof.
  induction player_moves as [| moves rest IH]; intros fit fit' H;
    cbn [play_game_no_display] in H.
  - injection H as <-. cbn [length]. lia.
  - destruct (play_trajectory _ _ _ _) as [[o st] |] eqn:Hplay;
      [| discriminate].
    cbn [bind] in H. rewrite (IH _ _ H).
    destruct (play_trajectory_fitness _ _ _ _ _ _ Hplay) as (steps & -> & Hs).
    rewrite !count_terminal_app, (count_terminal_none steps Hs).
    unfold count_terminal at 2. cbn [filter].
    rewrite terminal_term_is_terminal. cbn [length]. lia.
Qed.

(** ** Episode simulator: a policy that always stands still *)

Lemma append_enemy_inputs_total (t : Trainer) (positions : list Pos) :
  game_grid_width t <> 0 -> game_grid_height t <> 0 ->
  forall inputs, exists inputs',
    append_enemy_inputs t positions inputs = Ok inputs'.
Proof.
  intros HW HH. induction positions as [| [x y] rest IH]; intros inputs;
    cbn [append_enemy_inputs].
  - exists inputs. reflexivity.
  - unfold py_div.
    destruct (Z.eqb_spec (game_grid_width t) 0); [contradiction |].
    destruct (Z.eqb_spec (game_grid_height t) 0); [contradiction |].
    cbn [bind]. apply IH.
Qed.

Lemma network_inputs_total (t : Trainer) (enemy_index : Z)
    (positions : list Pos) (px py health : Z) :
  game_grid_width t <> 0 -> game_grid_height t <> 0 -> positions <> [] ->
  exists inputs,
    network_inputs t enemy_index positions px py health = Ok inputs.
Proof.
  intros HW HH Hne. unfold network_inputs, py_div at 1 2 3 4.
  destruct (Z.eqb_spec (len positions) 0) as [Hlen | _].
  { destruct positions; [contradiction | unfold len in Hlen; cbn in Hlen; lia]. }
  destruct (Z.eqb_spec (game_grid_width t) 0); [contradiction |].
  destruct (Z.eqb_spec (game_grid_height t) 0); [contradiction |].
  cbn [bind]. apply append_enemy_inputs_total; assumption.
Qed.

Lemma pos_neqb_same (p : Pos) : pos_neqb p p = false.
Proof. unfold pos_neqb. rewrite !Z.eqb_refl. reflexivity. Qed.

Lemma enemy_turn_stands (t : Trainer) (policy : Policy) (px py : Z)
    (done : list Pos) (enemy : Pos) (rest : list Pos) (health : Z)
    (fit : Fitness) :
  game_grid_width t <> 0 -> game_grid_height t <> 0 ->
  always_stands policy ->
  enemy_turn t policy px py done enemy rest health fit
  = Ok (enemy, health,
        fit ++ [DistancePenalty (dist2 px py (fst enemy) (snd enemy))]).
Proof.
  intros HW HH Hstand. unfold enemy_turn. destruct enemy as [ex ey].
  destruct (network_inputs_total t (len done) (done ++ (ex, ey) :: rest)
              px py health HW HH) as [inputs ->].
  { intros Hnil. apply app_eq_nil in Hnil. destruct Hnil; discriminate. }
  cbn [bind]. destruct (Hstand inputs) as (output & -> & Hsel).
  cbn [bind]. rewrite Hsel.
  change (EnemyAction_of_value 4) with (Ok STAND_STILL).
  cbn [bind apply_action].
  rewrite pos_neqb_same. reflexivity.
Qed.

Lemma enemies_loop_stands (t : Trainer) (policy : Policy) (px py : Z)
    (todo : list Pos) :
  game_grid_width t <> 0 -> game_grid_height t <> 0 ->
  always_stands policy ->
  forall done health fit,
    0 < health ->
    exists steps,
      enemies_loop t policy px py done todo health fit
      = Ok (done ++ todo, health, fit ++ steps) /\
      only_distance_penalties steps.
Proof.
  intros HW HH Hstand. induction todo as [| enemy rest IH];
    intros done health fit Hpos; cbn [enemies_loop].
  - exists []. rewrite !app_nil_r. split; [reflexivity | constructor].
  - rewrite enemy_turn_stands by assumption. cbn [bind].
    destruct (Z.leb_spec health 0); [lia |].
    destruct (IH (done ++ [enemy]) health
                (fit ++ [DistancePenalty (dist2 px py (fst enemy) (snd enemy))])
                Hpos) as (steps & -> & Hsteps).
    exists (DistancePenalty (dist2 px py (fst enemy) (snd enemy)) :: steps).
    rewrite <- !app_assoc. split; [reflexivity |].
    constructor; [eexists; reflexivity | exact Hsteps].
Qed.

Lemma moves_loop_stands (t : Trainer) (policy : Policy) (moves : list Pos) :
  game_grid_width t <> 0 -> game_grid_height t <> 0 ->
  always_stands policy ->
  Forall (fun p => is_escape t p = false) moves ->
  forall st,
    0 < player_health st ->
    exists steps,
      moves_loop t policy moves st
      = Ok (MoveLimit,
            mkEpisode (player_health st) (enemy_positions st)
              (moves_made st + len moves) (fitness st ++ steps)) /\
      only_distance_penalties steps.
Proof.
  intros HW HH Hstand Hmoves.
  induction Hmoves as [| [px py] rest Hp _ IH]; intros st Hpos;
    cbn [moves_loop].
  - exists []. rewrite app_nil_r. unfold len. cbn [length Z.of_nat].
    rewrite Z.add_0_r. destruct st. split; [reflexivity | constructor].
  - rewrite Hp.
    destruct (enemies_loop_stands t policy px py (enemy_positions st) HW HH
                Hstand [] (player_health st) (fitness st) Hpos)
      as (s1 & -> & Hs1).
    cbn [bind app]. destruct (Z.leb_spec (player_health st) 0); [lia |].
    destruct (IH (mkEpisode (player_health st) (enemy_positions st)
                    (moves_made st + 1) (fitness st ++ s1)) Hpos)
      as (s2 & -> & Hs2).
    cbn [player_health enemy_positions moves_made fitness].
    exists (s1 ++ s2). split.
    + do 2 f_equal. f_equal; [unfold len; cbn [length]; lia |].
      symmetry. apply app_assoc.
    + apply Forall_app. split; assumption.
Qed.

(** C5.  When the simulation of a trajectory returns, the fitness log is
    the log it started from, then the per-step terms (move rewards and
    distance penalties, no terminal term among them), then exactly one
    terminal term of magnitude (MAX_PLAYER_MOVES - moves_made)^2 +
    (PLAYER_STARTING_HEALTH - player_health): subtracted when the final
    health is positive, added otherwise.  A whole batch adds one terminal
    term per trajectory.  For the trajectory [(1,0); (2,0)] on any 3 x 3
    level under a policy that always stands still, the episode ends with
    health 100 after 2 moves, the terminal term is the subtraction of
    9604, and no move reward is ever logged. *)
Theorem terminal_adjustment_once :
  forall (t : Trainer) (policy : Policy),
    (forall moves fit outcome st,
       play_trajectory t policy moves fit = Ok (outcome, st) ->
       let amount := (MAX_PLAYER_MOVES - moves_made st) ^ 2
                     + (PLAYER_STARTING_HEALTH - player_health st) in
       exists steps,
         no_terminal steps /\
         (0 < player_health st ->
          fitness st = fit ++ steps ++ [TerminalSub amount]) /\
         (player_health st <= 0 ->
          fitness st = fit ++ steps ++ [TerminalAdd amount])) /\
    (forall player_moves fit fit',
       play_game_no_display t policy player_moves fit = Ok fit' ->
       count_terminal fit'
       = (count_terminal fit + length player_moves)%nat) /\
    (game_grid_width t = 3 -> game_grid_height t = 3 ->
     always_stands policy ->
     exists st steps,
       play_trajectory t policy [(1, 0); (2, 0)] [] = Ok (MoveLimit, st) /\
       player_health st = 100 /\ moves_made st = 2 /\
       fitness st = steps ++ [TerminalSub 9604] /\
       only_distance_penalties steps /\
       ~ In MoveReward (fitness st)).
Proof.
  intros t policy. split; [| split].
  - intros moves fit outcome st Hplay amount.
    destruct (play_trajectory_fitness _ _ _ _ _ _ Hplay) as (steps & Hfit & Hs).
    exists steps. split; [exact Hs |].
    unfold terminal_term in Hfit. fold amount in Hfit.
    destruct (Z.gtb_spec (player_health st) 0); split; intros; (exact Hfit || lia).
  - apply play_game_count_terminal.
  - intros HW HH Hstand. unfold play_trajectory.
    destruct (moves_loop_stands t policy [(1, 0); (2, 0)]) with
      (st := mkEpisode PLAYER_STARTING_HEALTH (enemy_start_positions t) 0 [])
      as (steps & -> & Hsteps); try assumption; try lia.
    { unfold is_escape. rewrite HW, HH. repeat constructor. }
    { reflexivity. }
    cbn [bind player_health enemy_positions moves_made fitness app].
    eexists. exists steps. split; [reflexivity |].
    cbn [player_health moves_made fitness].
    split; [reflexivity |]. split; [reflexivity |]. split; [reflexivity |].
    split; [exact Hsteps |].
    intros Hin. apply in_app_or in Hin. destruct Hin as [Hin | [Hin | []]].
    + unfold only_distance_penalties in Hsteps. rewrite Forall_forall in Hsteps.
      destruct (Hsteps _ Hin) as [d2 Hd]. discriminate Hd.
    + discriminate Hin.
Qed.

(** C5 (witness): the open 3 x 3 level with one enemy at (1, 1). *)
Lemma terminal_adjustment_once_witness :
  exists st steps,
    play_trajectory (trainer_of level_open) (constant_policy 4)
      [(1, 0); (2, 0)] [] = Ok (MoveLimit, st) /\
    fitness st = steps ++ [TerminalSub 9604] /\
    ~ In MoveReward (fitness st).
Proof.
  destruct (proj2 (proj2 (terminal_adjustment_once (trainer_of level_open)
                            (constant_policy 4))))
    as (st & steps & Hplay & _ & _ & Hfit & _ & Hno).
  - reflexivity.
  - reflexivity.
  - intros inputs. eexists. split; reflexivity.
  - exists st, steps. split; [exact Hplay |]. split; assumption.
Defined.

(** The log of that episode, term by term. *)
Example play_trajectory_open_level :
  play_trajectory (trainer_of level_open) (constant_policy 4)
    [(1, 0); (2, 0)] []
  = Ok (MoveLimit,
        mkEpisode 100 [(1, 1)] 2
          [DistancePenalty 1; DistancePenalty 2; TerminalSub 9604]).
Proof. vm_compute. reflexivity. Qed.

(** ** Episode simulator: termination *)

Lemma EnemyAction_of_value_total (decision : Z) :
  0 <= decision <= 6 -> exists action, EnemyAction_of_value decision = Ok action.
Proof.
  intros H.
  assert (Hcases : decision = 0 \/ decision = 1 \/ decision = 2 \/
                   decision = 3 \/ decision = 4 \/ decision = 5 \/
                   decision = 6) by lia.
  destruct Hcases as [-> | [-> | [-> | [-> | [-> | [-> | ->]]]]]];
    eexists; reflexivity.
Qed.

Lemma shoot_along_row_total (t : Trainer) (px ex ey health : Z) :
  well_formed t -> 0 <= ey < game_grid_height t ->
  0 <= ex < game_grid_width t -> 0 <= px < game_grid_width t ->
  exists health', shoot_along_row t px ex ey health = Ok health'.
Proof.
  intros Hwf Hy Hex Hpx. unfold shoot_along_row.
  destruct (row_clear_total t ey ex px Hwf Hy) as [b1 E1]; [lia | lia |].
  destruct (row_clear_total t ey px ex Hwf Hy) as [b2 E2]; [lia | lia |].
  rewrite E1, E2.
  destruct (ex <=? px), (ex >? px), b1, b2; cbn; eexists; reflexivity.
Qed.

Lemma shoot_along_column_total (t : Trainer) (py ex ey health : Z) :
  well_formed t -> 0 <= ex < game_grid_width t ->
  0 <= ey < game_grid_height t -> 0 <= py < game_grid_height t ->
  exists health', shoot_along_column t py ex ey health = Ok health'.
Proof.
  intros Hwf Hx Hey Hpy. unfold shoot_along_column.
  destruct (column_clear_total t ex ey py Hwf Hx) as [b1 E1]; [lia | lia |].
  destruct (column_clear_total t ex py ey Hwf Hx) as [b2 E2]; [lia | lia |].
  rewrite E1, E2.
  destruct (ey <=? py), (ey >? py), b1, b2; cbn; eexists; reflexivity.
Qed.

Lemma shoot_player_total (t : Trainer) (px py ex ey health : Z) :
  well_formed t -> in_bounds t (ex, ey) -> in_bounds t (px, py) ->
  exists health', shoot_player t px py ex ey health = Ok health'.
Proof.
  intros Hwf [Hex Hey] [Hpx Hpy]. cbn [fst snd] in *. unfold shoot_player.
  destruct (_ <=? _); [| eexists; reflexivity].
  assert (Hrow : exists h1,
             (if ey =? py then shoot_along_row t px ex ey health
              else Ok health) = Ok h1).
  { destruct (ey =? py); [| eexists; reflexivity].
    apply shoot_along_row_total; assumption. }
  destruct Hrow as [h1 ->]. cbn [bind].
  destruct (ex =? px); [| eexists; reflexivity].
  apply shoot_along_column_total; assumption.
Qed.

Lemma apply_action_total (t : Trainer) (action : EnemyAction)
    (px py ex ey health : Z) :
  well_formed t -> in_bounds t (ex, ey) -> in_bounds t (px, py) ->
  exists moved health',
    apply_action t action px py ex ey health = Ok (moved, health') /\
    in_bounds t moved.
Proof.
  intros Hwf He Hp.
  destruct action; cbn [apply_action];
    try (match goal with
         | |- context [get_new_position t ex ey ?h ?v] =>
             destruct (get_new_position_in_bounds t ex ey h v Hwf He)
               as (p & -> & Hin);
             cbn [bind]; exists p, health; split; [reflexivity | exact Hin]
         end).
  - exists (ex, ey), health. split; [reflexivity | exact He].
  - destruct (shoot_player_total t px py ex ey health Hwf He Hp) as [h' ->].
    cbn [bind]. exists (ex, ey), h'. split; [reflexivity | exact He].
  - eexists. eexists. split; [reflexivity | exact He].
Qed.

Lemma enemy_turn_total (t : Trainer) (policy : Policy) (px py : Z)
    (done : list Pos) (enemy : Pos) (rest : list Pos) (health : Z)
    (fit : Fitness) :
  well_formed t -> policy_decides policy ->
  in_bounds t enemy -> in_bounds t (px, py) ->
  exists moved health' fit',
    enemy_turn t policy px py done enemy rest health fit
    = Ok (moved, health', fit') /\
    in_bounds t moved.
Proof.
  intros Hwf Hpol He Hp. unfold enemy_turn. destruct enemy as [ex ey].
  pose proof He as [Hx Hy]. cbn [fst snd] in Hx, Hy.
  destruct (network_inputs_total t (len done) (done ++ (ex, ey) :: rest)
              px py health) as [inputs ->]; [lia | lia | |].
  { intros Hnil. apply app_eq_nil in Hnil. destruct Hnil; discriminate. }
  cbn [bind]. destruct (Hpol inputs) as (output & -> & Hsel).
  cbn [bind]. destruct (EnemyAction_of_value_total _ Hsel) as [action ->].
  cbn [bind].
  destruct (apply_action_total t action px py ex ey health Hwf He Hp)
    as (moved & h' & -> & Hin).
  cbn [bind]. eexists. eexists. eexists. split; [reflexivity | exact Hin].
Qed.

Lemma enemies_loop_total (t : Trainer) (policy : Policy) (px py : Z)
    (todo : list Pos) :
  well_formed t -> policy_decides policy -> in_bounds t (px, py) ->
  forall done health fit,
    Forall (in_bounds t) done -> Forall (in_bounds t) todo ->
    exists enemies health' fit',
      enemies_loop t policy px py done todo health fit
      = Ok (enemies, health', fit') /\
      Forall (in_bounds t) enemies.
Proof.
  intros Hwf Hpol Hp. induction todo as [| enemy rest IH];
    intros done health fit Hdone Htodo; cbn [enemies_loop].
  - eexists. eexists. eexists. split; [reflexivity | exact Hdone].
  - inversion Htodo as [| ? ? He Hrest]; subst.
    destruct (enemy_turn_total t policy px py done enemy rest health fit
                Hwf Hpol He Hp) as (moved & h' & f' & -> & Hin).
    cbn [bind]. destruct (h' <=? 0).
    + eexists. eexists. eexists. split; [reflexivity |].
      apply Forall_app. split; [exact Hdone |]. constructor; assumption.
    + apply IH; [| exact Hrest].
      apply Forall_app. split; [exact Hdone |]. constructor; [exact Hin |].
      constructor.
Qed.

Lemma moves_loop_total (t : Trainer) (policy : Policy) (moves : list Pos) :
  well_formed t -> policy_decides policy -> trajectory_on_level t moves ->
  forall st,
    0 < player_health st -> Forall (in_bounds t) (enemy_positions st) ->
    exists outcome st' (k : nat),
      moves_loop t policy moves st = Ok (outcome, st') /\
      moves_made st' = moves_made st + Z.of_nat k /\
      (k <= length moves)%nat /\
      match outcome with
      | Escaped =>
          0 < player_health st' /\ (1 <= k)%nat /\
          exists p, nth_error moves (k - 1) = Some p /\ is_escape t p = true
      | Defeated => player_health st' <= 0
      | MoveLimit =>
          0 < player_health st' /\ k = length moves /\
          Forall (fun p => is_escape t p = false) moves
      end.
Proof.
  intros Hwf Hpol Hmoves.
  induction Hmoves as [| [px py] rest Hp _ IH]; intros st Hpos Henemies;
    cbn [moves_loop].
  - exists MoveLimit, st, 0%nat. cbn [length Z.of_nat].
    split; [reflexivity |]. split; [lia |]. split; [lia |].
    split; [exact Hpos |]. split; [reflexivity | constructor].
  - destruct (is_escape t (px, py)) eqn:Hesc.
    + eexists Escaped, _, 1%nat. split; [reflexivity |].
      cbn [moves_made player_health length Nat.sub nth_error].
      split; [lia |]. split; [lia |]. split; [exact Hpos |].
      split; [lia |]. exists (px, py). split; [reflexivity | exact Hesc].
    + destruct Hp as [Hp | Hp]; [| congruence].
      destruct (enemies_loop_total t policy px py (enemy_positions st)
                  Hwf Hpol Hp [] (player_health st) (fitness st))
        as (es & h & f & -> & Hes); [constructor | exact Henemies |].
      cbn [bind]. destruct (Z.leb_spec h 0) as [Hdead | Halive].
      * eexists Defeated, _, 1%nat. split; [reflexivity |].
        cbn [moves_made player_health length].
        split; [lia |]. split; [lia | exact Hdead].
      * destruct (IH (mkEpisode h es (moves_made st + 1) f) Halive Hes)
          as (outcome & st' & k & -> & Hmade & Hk & Hout).
        cbn [moves_made] in Hmade.
        exists outcome, st', (S k). split; [reflexivity |].
        split; [lia |]. split; [cbn [length]; lia |].
        destruct outcome.
        -- destruct Hout as (Hh & Hk1 & p & Hnth & Hpesc).
           split; [exact Hh |]. split; [lia |]. exists p.
           split; [| exact Hpesc].
           destruct k as [| k']; [lia |].
           cbn [Nat.sub nth_error]. cbn [Nat.sub] in Hnth.
           rewrite Nat.sub_0_r in Hnth. exact Hnth.
        -- exact Hout.
        -- destruct Hout as (Hh & -> & Hall).
           split; [exact Hh |]. split; [reflexivity |].
           constructor; assumption.
Qed.



(** The three ways an episode ends, on the open level. *)
Example episode_escaped :
  play_trajectory (trainer_of level_open) (constant_policy 4)
    [(2, 2); (2, 3)] []
  = Ok (Escaped,
        mkEpisode 100 [(1, 1)] 2 [DistancePenalty 2; TerminalSub 9604]).
Proof. vm_compute. reflexivity. Qed.

Example episode_defeated :
  play_trajectory (trainer_of level_open) (constant_policy 6)
    [(1, 0); (1, 0); (1, 0)] []
  = Ok (Defeated,
        mkEpisode 0 [(1, 1)] 2
          [DistancePenalty 1; DistancePenalty 1; TerminalAdd 9704]).
Proof. vm_compute. reflexivity. Qed.

Example episode_move_limit :
  play_trajectory (trainer_of level_open) (constant_policy 0)
    [(2, 0)] []
  = Ok (MoveLimit,
        mkEpisode 100 [(0, 1)] 1
          [MoveReward; DistancePenalty 5; TerminalSub 9801]).
Proof. vm_compute. reflexivity. Qed.

(** C3 (witness): the open level has rows, so it loads. *)
Lemma trainer_init_fails_only_without_rows_witness :
  exists t, Trainer_init level_open = Ok t /\ game_grid_width t = 3.
Proof.
  destruct (proj2 (trainer_init_fails_only_without_rows level_open))
    as (t & Hinit & _ & _ & Hwidth & _).
  - discriminate.
  - exists t. split; [exact Hinit | exact Hwidth].
Defined.

(** ** Loaded rectangular levels are well formed *)

Lemma find_in_row_enemies (P : Z * Z -> Prop) (y : Z) (row : list Z) :
  forall start acc,
    Forall P (snd acc) ->
    (forall x, start <= x < start + len row -> P (x, y)) ->
    Forall P (snd (find_in_row y (enumerate_from start row) acc)).
Proof.
  induction row as [| c row IH]; intros start [player enemies] Hacc HP;
    cbn [enumerate_from find_in_row].
  - exact Hacc.
  - assert (HP' : forall x, start + 1 <= x < start + 1 + len row -> P (x, y)).
    { intros x Hx. apply HP. unfold len in *. cbn [length]. lia. }
    destruct (c =? PLAYER_CELL_STATE_CODE); [apply IH; assumption |].
    destruct (c =? ENEMY_CELL_STATE_CODE); [| apply IH; assumption].
    apply IH; [| exact HP']. cbn [snd] in *.
    apply Forall_app. split; [exact Hacc |].
    constructor; [| constructor]. apply HP. unfold len. cbn [length]. lia.
Qed.

Lemma find_in_rows_enemies (P : Z * Z -> Prop) (rows : list (list Z)) :
  forall start acc,
    Forall P (snd acc) ->
    (forall x y row,
       In row rows -> start <= y < start + len rows -> 0 <= x < len row ->
       P (x, y)) ->
    Forall P (snd (find_in_rows (enumerate_from start rows) acc)).
Proof.
  induction rows as [| row rows IH]; intros start acc Hacc HP;
    cbn [enumerate_from find_in_rows].
  - exact Hacc.
  - apply IH.
    + unfold enumerate. apply find_in_row_enemies; [exact Hacc |].
      intros x Hx. apply (HP x start row); [left; reflexivity | | lia].
      unfold len. cbn [length]. lia.
    + intros x y r Hr Hy Hx. apply (HP x y r); [right; exact Hr | | exact Hx].
      unfold len in *. cbn [length]. lia.
Qed.

(** A rectangular level that loads gives a well-formed trainer whose
    enemies start in bounds. *)
Lemma trainer_init_well_formed (grid : Grid) (t : Trainer) :
  Trainer_init grid = Ok t -> rectangular grid = true ->
  well_formed t /\ Forall (in_bounds t) (enemy_start_positions t).
Proof.
  destruct grid as [| row0 rest]; [discriminate |].
  rewrite (trainer_init_fields (row0 :: rest) row0 rest eq_refl).
  intros H Hrect. injection H as <-.
  unfold rectangular in Hrect. rewrite forallb_forall in Hrect.
  assert (Hrows : forall row, In row (row0 :: rest) -> len row = len row0).
  { intros row Hrow. apply Z.eqb_eq, Hrect, Hrow. }
  split.
  - split; [reflexivity |]. cbn [game_grid game_grid_width].
    apply Forall_forall. exact Hrows.
  - cbn [enemy_start_positions]. unfold find_start_positions, enumerate.
    apply find_in_rows_enemies; [constructor |].
    intros x y row Hrow Hy Hx. split; cbn [fst snd game_grid_width game_grid_height].
    + rewrite <- (Hrows row Hrow). exact Hx.
    + lia.
Qed.

(** ** More on [get_new_position] *)

Lemma get_new_position_cases (t : Trainer) (x y h v : Z) (p : Z * Z) :
  get_new_position t x y h v = Ok p ->
  p = (x, y) \/
  (h = 1 /\ p = (x + 1, y)) \/
  (h = -1 /\ p = (x - 1, y)) \/
  (h <> 1 /\ h <> -1 /\ v = 1 /\ p = (x, y + 1)) \/
  (h <> 1 /\ h <> -1 /\ v = -1 /\ p = (x, y - 1)).
Proof.
  unfold get_new_position.
  destruct (Z.eqb_spec h 1) as [Hh1 | Hh1].
  { destruct (x <? _); [| intros H; injection H as <-; tauto].
    destruct (grid_at _ _ _) as [c |]; [cbn [bind] | discriminate].
    destruct (negb _); intros H; injection H as <-; tauto. }
  destruct (Z.eqb_spec h (-1)) as [Hh2 | Hh2].
  { destruct (x >? 0); [| intros H; injection H as <-; tauto].
    destruct (grid_at _ _ _) as [c |]; [cbn [bind] | discriminate].
    destruct (negb _); intros H; injection H as <-; tauto. }
  destruct (Z.eqb_spec v 1) as [Hv1 | Hv1].
  { destruct (_ && _); [intros H; injection H as <-; tauto |].
    destruct (y <? _); [| intros H; injection H as <-; tauto].
    destruct (grid_at _ _ _) as [c |]; [cbn [bind] | discriminate].
    destruct (negb _); intros H; injection H as <-; tauto. }
  destruct (Z.eqb_spec v (-1)) as [Hv2 | Hv2].
  { destruct (y >? 0); [| intros H; injection H as <-; tauto].
    destruct (grid_at _ _ _) as [c |]; [cbn [bind] | discriminate].
    destruct (negb _); intros H; injection H as <-; tauto. }
  intros H; injection H as <-; tauto.
Qed.

Lemma get_new_position_manhattan (t : Trainer) (x y h v : Z) (p : Z * Z) :
  get_new_position t x y h v = Ok p -> manhattan p (x, y) <= 1.
Proof.
  intros H. apply get_new_position_cases in H. unfold manhattan.
  destruct H as [-> | [[_ ->] | [[_ ->] | [(_ & _ & _ & ->) | (_ & _ & _ & ->)]]]];
    cbn [fst snd]; lia.
Qed.

Lemma is_wall_open_cell (t : Trainer) (x y : Z) :
  well_formed t -> in_bounds t (x, y) ->
  (open_cell t x y = true <-> ~ is_wall t (x, y)).
Proof.
  intros Hwf Hin. unfold open_cell, is_wall. cbn [fst snd].
  destruct (grid_at_in_bounds t x y Hwf Hin) as [c ->].
  destruct (Z.eqb_spec c WALL_CELL_STATE_CODE) as [-> | Hne]; cbn [negb].
  - split; [discriminate | intros H; exfalso; apply H; reflexivity].
  - split; [intros _ H; injection H as H; contradiction | reflexivity].
Qed.

Lemma get_new_position_open (t : Trainer) (x y h v : Z) :
  well_formed t -> in_bounds t (x, y) -> unit_direction h v ->
  in_bounds t (x + h, y + v) -> ~ is_wall t (x + h, y + v) ->
  get_new_position t x y h v = Ok (x + h, y + v).
Proof.
  intros Hwf Hin Hdir Htgt Hopen.
  pose proof Hin as [Hx Hy]. pose proof Htgt as [Htx Hty].
  cbn [fst snd] in Hx, Hy, Htx, Hty.
  apply (is_wall_open_cell t _ _ Hwf Htgt) in Hopen. unfold open_cell in Hopen.
  unfold get_new_position.
  destruct Hdir as [[-> ->] | [[-> ->] | [[-> ->] | [-> ->]]]].
  - change (1 =? 1) with true. cbv iota.
    destruct (Z.ltb_spec x (game_grid_width t - 1)); [| lia].
    rewrite Z.add_0_r in *. destruct (grid_at t y (x + 1)) as [c |];
      [| discriminate]. cbn [bind]. rewrite Hopen. reflexivity.
  - change (-1 =? 1) with false. change (-1 =? -1) with true. cbv iota.
    destruct (Z.gtb_spec x 0); [| lia].
    rewrite Z.add_0_r in *. replace (x - 1) with (x + -1) by lia.
    destruct (grid_at t y (x + -1)) as [c |]; [| discriminate].
    cbn [bind]. rewrite Hopen. reflexivity.
  - change (0 =? 1) with false. change (0 =? -1) with false.
    change (1 =? 1) with true. cbv iota. rewrite Z.add_0_r in *.
    destruct ((x =? game_grid_width t - 1) && (y <? game_grid_height t - 1));
      [reflexivity |].
    destruct (Z.ltb_spec y (game_grid_height t - 1)); [| lia].
    destruct (grid_at t (y + 1) x) as [c |]; [| discriminate].
    cbn [bind]. rewrite Hopen. reflexivity.
  - change (0 =? 1) with false. change (0 =? -1) with false.
    change (-1 =? 1) with false. change (-1 =? -1) with true. cbv iota.
    rewrite Z.add_0_r in *. destruct (Z.gtb_spec y 0); [| lia].
    replace (y - 1) with (y + -1) by lia.
    destruct (grid_at t (y + -1) x) as [c |]; [| discriminate].
    cbn [bind]. rewrite Hopen. reflexivity.
Qed.

(** X1.  Whatever the level and the arguments, a move that returns gives
    the position it was given or exactly one orthogonal step from it,
    never a diagonal or a longer one.  The horizontal argument wins over
    the vertical one, and when neither is 1 or -1 the position comes back
    unchanged without the level being read. *)
Theorem get_new_position_single_step :
  forall (t : Trainer) (x y h v : Z),
    (forall p, get_new_position t x y h v = Ok p ->
       manhattan p (x, y) <= 1 /\
       (p = (x, y) \/
        (h = 1 /\ p = (x + 1, y)) \/
        (h = -1 /\ p = (x - 1, y)) \/
        (h <> 1 /\ h <> -1 /\ v = 1 /\ p = (x, y + 1)) \/
        (h <> 1 /\ h <> -1 /\ v = -1 /\ p = (x, y - 1)))) /\
    (h = 1 \/ h = -1 ->
     get_new_position t x y h v = get_new_position t x y h 0) /\
    (h <> 1 -> h <> -1 -> v <> 1 -> v <> -1 ->
     get_new_position t x y h v = Ok (x, y)).
Proof.
  intros t x y h v. split; [| split].
  - intros p H. split.
    + eapply get_new_position_manhattan; eassumption.
    + eapply get_new_position_cases; eassumption.
  - intros [-> | ->]; reflexivity.
  - intros H1 H2 H3 H4. unfold get_new_position.
    destruct (Z.eqb_spec h 1); [contradiction |].
    destruct (Z.eqb_spec h (-1)); [contradiction |].
    destruct (Z.eqb_spec v 1); [contradiction |].
    destruct (Z.eqb_spec v (-1)); [contradiction |]. reflexivity.
Qed.

Lemma get_new_position_single_step_witness :
  manhattan (0, 1) (1, 1) <= 1.
Proof.
  apply (proj1 (get_new_position_single_step (trainer_of level_open)
                  1 1 (-1) 0) (0, 1)).
  reflexivity.
Defined.

(** X2.  On a rectangular level a move from a cell of the level always
    returns (no cell outside the grid is read), and what it returns is
    again a cell of the level: in particular never the escape coordinate. *)
Theorem get_new_position_stays_on_level :
  forall (t : Trainer) (x y h v : Z),
    well_formed t -> in_bounds t (x, y) ->
    exists p, get_new_position t x y h v = Ok p /\ in_bounds t p /\
              is_escape t p = false.
Proof.
  intros t x y h v Hwf Hin.
  destruct (get_new_position_in_bounds t x y h v Hwf Hin) as (p & Hp & Hb).
  exists p. split; [exact Hp |]. split; [exact Hb |].
  destruct Hb as [_ Hy]. unfold is_escape.
  destruct (Z.eqb_spec (snd p) (game_grid_height t)); [lia |].
  apply andb_false_r.
Qed.

Lemma get_new_position_stays_on_level_witness :
  exists p, get_new_position (trainer_of level_open) 2 2 0 1 = Ok p /\
            in_bounds (trainer_of level_open) p.
Proof.
  destruct (get_new_position_stays_on_level (trainer_of level_open) 2 2 0 1)
    as (p & Hp & Hb & _).
  - split; [reflexivity | repeat constructor].
  - split; cbn; lia.
  - exists p. split; assumption.
Defined.

(** X3.  On a rectangular level, from a cell of the level and in one of
    the four unit directions: the move goes to the target cell when that
    cell is on the level and is no wall; a down move in the last column
    above the last row goes down whatever the cell below holds; in every
    other case (target a wall or off the grid) the position is returned
    unchanged. *)
Theorem get_new_position_characterised :
  forall (t : Trainer) (x y h v : Z),
    well_formed t -> in_bounds t (x, y) -> unit_direction h v ->
    (in_bounds t (x + h, y + v) -> ~ is_wall t (x + h, y + v) ->
     get_new_position t x y h v = Ok (x + h, y + v)) /\
    (v = 1 -> x = game_grid_width t - 1 -> y < game_grid_height t - 1 ->
     get_new_position t x y h v = Ok (x, y + 1)) /\
    (~ (v = 1 /\ x = game_grid_width t - 1 /\ y < game_grid_height t - 1) ->
     ~ in_bounds t (x + h, y + v) \/ is_wall t (x + h, y + v) ->
     get_new_position t x y h v = Ok (x, y)).
Proof.
  intros t x y h v Hwf Hin Hdir. split; [| split].
  - apply get_new_position_open; assumption.
  - intros -> Hx Hy.
    assert (h = 0) as -> by (unfold unit_direction in Hdir; lia).
    unfold get_new_position.
    change (0 =? 1) with false. change (0 =? -1) with false.
    change (1 =? 1) with true. cbv iota.
    destruct (Z.eqb_spec x (game_grid_width t - 1)); [| contradiction].
    destruct (Z.ltb_spec y (game_grid_height t - 1)); [| lia]. reflexivity.
  - intros Hnot Htgt. apply get_new_position_blocked; assumption.
Qed.

Lemma get_new_position_characterised_witness :
  get_new_position (trainer_of level_blocked) 0 1 1 0 = Ok (0, 1) /\
  get_new_position (trainer_of level_blocked) 0 1 0 1 = Ok (0, 2).
Proof.
  assert (Hwf : well_formed (trainer_of level_blocked)).
  { split; [reflexivity | repeat constructor]. }
  assert (Hin : in_bounds (trainer_of level_blocked) (0, 1)).
  { split; cbn; lia. }
  split.
  - assert (Hdir : unit_direction 1 0) by (left; split; reflexivity).
    destruct (get_new_position_characterised (trainer_of level_blocked)
                0 1 1 0 Hwf Hin Hdir) as (_ & _ & Hblocked).
    apply Hblocked.
    + intros [H _]. discriminate H.
    + right. reflexivity.
  - assert (Hdir : unit_direction 0 1)
      by (right; right; left; split; reflexivity).
    destruct (get_new_position_characterised (trainer_of level_blocked)
                0 1 0 1 Hwf Hin Hdir) as (Hopen & _ & _).
    apply Hopen.
    + split; cbn; lia.
    + intros H. discriminate H.
Defined.

(** ** More on [get_valid_moves] *)

Lemma append_if_open_eq (t : Trainer) (b : bool) (x y : Z) (target : Z * Z)
    (moves : list (Z * Z)) :
  well_formed t -> (b = true -> in_bounds t (x, y)) ->
  append_if_open t b y x target moves
  = Ok (moves ++ if b && open_cell t x y then [target] else []).
Proof.
  intros Hwf Hb. unfold append_if_open, open_cell. destruct b; cbn [andb].
  - destruct (grid_at_in_bounds t x y Hwf (Hb eq_refl)) as [c ->].
    cbn [bind]. destruct (negb _); [reflexivity | rewrite app_nil_r; reflexivity].
  - rewrite app_nil_r. reflexivity.
Qed.

(** The list of moves, entry by entry. *)
Lemma get_valid_moves_eq (t : Trainer) (x y : Z) :
  well_formed t -> in_bounds t (x, y) ->
  get_valid_moves t x y
  = Ok ([(x, y)]
        ++ (if (x >? 0) && open_cell t (x - 1) y then [(x - 1, y)] else [])
        ++ (if (x <? game_grid_width t - 1) && open_cell t (x + 1) y
            then [(x + 1, y)] else [])
        ++ (if (y >? 0) && open_cell t x (y - 1) then [(x, y - 1)] else [])
        ++ (if at_corner t x y then [(x, y + 1)] else [])
        ++ (if (y <? game_grid_height t - 1) && open_cell t x (y + 1)
            then [(x, y + 1)] else [])).
Proof.
  intros Hwf [Hx Hy]. cbn [fst snd] in Hx, Hy. unfold get_valid_moves.
  rewrite append_if_open_eq; [cbn [bind] | exact Hwf |].
  2:{ intros Hb. apply Z.gtb_lt in Hb. split; cbn [fst snd]; lia. }
  rewrite append_if_open_eq; [cbn [bind] | exact Hwf |].
  2:{ intros Hb. apply Z.ltb_lt in Hb. split; cbn [fst snd]; lia. }
  rewrite append_if_open_eq; [cbn [bind] | exact Hwf |].
  2:{ intros Hb. apply Z.gtb_lt in Hb. split; cbn [fst snd]; lia. }
  rewrite append_if_open_eq; [| exact Hwf |].
  2:{ intros Hb. apply Z.ltb_lt in Hb. split; cbn [fst snd]; lia. }
  fold (at_corner t x y). f_equal.
  destruct (at_corner t x y); rewrite <- ?app_assoc; cbn [app];
    rewrite ?app_nil_r; reflexivity.
Qed.

Lemma in_optional {A : Type} (b : bool) (a q : A) :
  In q (if b then [a] else []) <-> b = true /\ q = a.
Proof.
  destruct b; cbn [In].
  - split; [intros [H | []]; auto | intros [_ H]; auto].
  - split; [intros [] | intros [H _]; discriminate H].
Qed.

Lemma neighbour_open (t : Trainer) (b : bool) (x y : Z) :
  well_formed t -> (b = true <-> in_bounds t (x, y)) ->
  (b && open_cell t x y = true <-> in_bounds t (x, y) /\ ~ is_wall t (x, y)).
Proof.
  intros Hwf Hb. rewrite andb_true_iff. split.
  - intros [H1 H2]. apply Hb in H1. split; [exact H1 |].
    apply (is_wall_open_cell t x y Hwf H1). exact H2.
  - intros [H1 H2]. split; [apply Hb, H1 |].
    apply (is_wall_open_cell t x y Hwf H1). exact H2.
Qed.

Ltac distinct_cells :=
  let H := fresh "H" in
  intros H; cbn [In app] in H;
  repeat (destruct H as [H | H]; [injection H; lia |]);
  exact H.

Lemma get_valid_moves_spec :
  forall (t : Trainer) (x y : Z),
    well_formed t -> in_bounds t (x, y) ->
    exists moves,
      get_valid_moves t x y = Ok moves /\
      hd_error moves = Some (x, y) /\
      forall q,
        In q moves <->
        q = (x, y) \/
        (manhattan q (x, y) = 1 /\ in_bounds t q /\ ~ is_wall t q) \/
        (at_corner t x y = true /\ q = (x, y + 1)).
Proof.
  intros t x y Hwf Hin. pose proof Hin as [Hx Hy]. cbn [fst snd] in Hx, Hy.
  rewrite (get_valid_moves_eq t x y Hwf Hin).
  pose proof (neighbour_open t (x >? 0) (x - 1) y Hwf) as HL.
  pose proof (neighbour_open t (x <? game_grid_width t - 1) (x + 1) y Hwf)
    as HR.
  pose proof (neighbour_open t (y >? 0) x (y - 1) Hwf) as HU.
  pose proof (neighbour_open t (y <? game_grid_height t - 1) x (y + 1) Hwf)
    as HD.
  destruct HL as [HL1 HL2].
  { rewrite Z.gtb_lt. unfold in_bounds. cbn [fst snd]. lia. }
  destruct HR as [HR1 HR2].
  { rewrite Z.ltb_lt. unfold in_bounds. cbn [fst snd]. lia. }
  destruct HU as [HU1 HU2].
  { rewrite Z.gtb_lt. unfold in_bounds. cbn [fst snd]. lia. }
  destruct HD as [HD1 HD2].
  { rewrite Z.ltb_lt. unfold in_bounds. cbn [fst snd]. lia. }
  eexists. split; [reflexivity |]. split; [reflexivity |].
  intros q. rewrite !in_app_iff, !in_optional. cbn [In].
  split.
  - intros [[H | []] | [[Hb ->] | [[Hb ->] | [[Hb ->] | [[Hb ->] | [Hb ->]]]]]].
    + left. symmetry. exact H.
    + right. left. split; [unfold manhattan; cbn [fst snd]; lia | auto].
    + right. left. split; [unfold manhattan; cbn [fst snd]; lia | auto].
    + right. left. split; [unfold manhattan; cbn [fst snd]; lia | auto].
    + right. right. split; [exact Hb | reflexivity].
    + right. left. split; [unfold manhattan; cbn [fst snd]; lia | auto].
  - intros [-> | [(Hm & Hb & Hw) | [Hb ->]]].
    + left. left. reflexivity.
    + destruct q as [qx qy]. unfold manhattan in Hm. cbn [fst snd] in Hm.
      assert (Hcases : (qx = x - 1 /\ qy = y) \/ (qx = x + 1 /\ qy = y) \/
                       (qx = x /\ qy = y - 1) \/ (qx = x /\ qy = y + 1))
        by lia.
      destruct Hcases as [[-> ->] | [[-> ->] | [[-> ->] | [-> ->]]]].
      * right. left. split; [apply HL2; split; assumption | reflexivity].
      * right. right. left.
        split; [apply HR2; split; assumption | reflexivity].
      * right. right. right. left.
        split; [apply HU2; split; assumption | reflexivity].
      * right. right. right. right. right.
        split; [apply HD2; split; assumption | reflexivity].
    + right. right. right. right. left. split; [exact Hb | reflexivity].
Qed.

(** X4.  From a cell of a rectangular level, [get_valid_moves] returns a
    list without repetitions of at most five positions that starts with
    the current cell and holds, besides it, exactly the orthogonal
    neighbours that are cells of the level and no walls, plus the position
    below the bottom right cell when standing there. *)
Theorem get_valid_moves_exact :
  forall (t : Trainer) (x y : Z),
    well_formed t -> in_bounds t (x, y) ->
    exists moves,
      get_valid_moves t x y = Ok moves /\
      hd_error moves = Some (x, y) /\
      NoDup moves /\
      (length moves <= 5)%nat /\
      forall q,
        In q moves <->
        q = (x, y) \/
        (manhattan q (x, y) = 1 /\ in_bounds t q /\ ~ is_wall t q) \/
        (at_corner t x y = true /\ q = (x, y + 1)).
Proof.
  intros t x y Hwf Hin.
  destruct (get_valid_moves_spec t x y Hwf Hin) as (moves & E & Hhd & Hiff).
  exists moves. split; [exact E |]. split; [exact Hhd |].
  assert (Hshape : NoDup moves /\ (length moves <= 5)%nat);
    [| destruct Hshape; repeat split; try assumption; apply Hiff].
  rewrite (get_valid_moves_eq t x y Hwf Hin) in E. injection E as <-.
  assert (HE : at_corner t x y = true ->
               (y <? game_grid_height t - 1)
               && open_cell t x (y + 1) = true -> False).
  { unfold at_corner. rewrite !andb_true_iff.
    intros [_ H1] [H2 _]. apply Z.eqb_eq in H1. apply Z.ltb_lt in H2. lia. }
  destruct ((x >? 0) && open_cell t (x - 1) y),
    ((x <? game_grid_width t - 1) && open_cell t (x + 1) y),
    ((y >? 0) && open_cell t x (y - 1)),
    (at_corner t x y),
    ((y <? game_grid_height t - 1) && open_cell t x (y + 1));
    cbn [app length];
    try (exfalso; apply HE; reflexivity);
    (split; [repeat (constructor; [distinct_cells |]); constructor | lia]).
Qed.

Lemma get_valid_moves_exact_witness :
  exists moves,
    get_valid_moves (trainer_of level_blocked) 0 1 = Ok moves /\
    NoDup moves /\ (length moves <= 5)%nat.
Proof.
  destruct (get_valid_moves_exact (trainer_of level_blocked) 0 1)
    as (moves & E & _ & Hnd & Hlen & _).
  - split; [reflexivity | repeat constructor].
  - split; cbn; lia.
  - exists moves. split; [exact E |]. split; assumption.
Defined.

Example get_valid_moves_next_to_wall :
  get_valid_moves (trainer_of level_blocked) 0 1 = Ok [(0, 1); (0, 0); (0, 2)].
Proof. reflexivity. Qed.

(** X5.  The two movement functions agree except for the two transitions
    of the last column.  On a rectangular level, from a cell of the level:
    whatever [get_new_position] returns in a unit direction is listed by
    [get_valid_moves], unless it is a wall (the down move in the last
    column); every listed cell of the level is returned by
    [get_new_position] for some direction or for no movement; and the
    listed position that is not a cell of the level, the one below the
    bottom right cell, is never returned by [get_new_position]. *)
Theorem valid_moves_and_new_position_agree :
  forall (t : Trainer) (x y : Z),
    well_formed t -> in_bounds t (x, y) ->
    exists moves,
      get_valid_moves t x y = Ok moves /\
      (forall h v p,
         get_new_position t x y h v = Ok p ->
         p = (x, y) \/ ~ is_wall t p ->
         In p moves) /\
      (forall q,
         In q moves -> in_bounds t q ->
         exists h v,
           (unit_direction h v \/ (h = 0 /\ v = 0)) /\
           get_new_position t x y h v = Ok q) /\
      (forall h v,
         get_new_position t x y h v
         <> Ok (game_grid_width t - 1, game_grid_height t)).
Proof.
  intros t x y Hwf Hin.
  destruct (get_valid_moves_spec t x y Hwf Hin)
    as (moves & E & _ & Hiff).
  exists moves. split; [exact E |]. split; [| split].
  - intros h v p Hp Hopen. apply Hiff.
    destruct (get_new_position_in_bounds t x y h v Hwf Hin) as (p' & Hp' & Hb).
    rewrite Hp in Hp'. injection Hp' as <-.
    pose proof (get_new_position_manhattan t x y h v p Hp) as Hm.
    destruct p as [qx qy].
    destruct (Z.eq_dec qx x) as [-> | Hnx];
      [destruct (Z.eq_dec qy y) as [-> | Hny]; [left; reflexivity |] |].
    + destruct Hopen as [H | Hopen]; [injection H; lia |].
      right. left. split; [| split; assumption].
      unfold manhattan in *. cbn [fst snd] in *. lia.
    + destruct Hopen as [H | Hopen]; [injection H; lia |].
      right. left. split; [| split; assumption].
      unfold manhattan in *. cbn [fst snd] in *. lia.
  - intros q Hq Hqb. apply Hiff in Hq.
    destruct Hq as [-> | [(Hm & _ & Hw) | [Hc ->]]].
    + exists 0, 0. split; [right; split; reflexivity | reflexivity].
    + destruct q as [qx qy]. unfold manhattan in Hm. cbn [fst snd] in Hm.
      exists (qx - x), (qy - y). split.
      * left. unfold unit_direction. lia.
      * replace (qx, qy) with (x + (qx - x), y + (qy - y)) by (f_equal; lia).
        apply get_new_position_open; try assumption.
        -- unfold unit_direction. lia.
        -- replace (x + (qx - x)) with qx by lia.
           replace (y + (qy - y)) with qy by lia. exact Hqb.
        -- replace (x + (qx - x)) with qx by lia.
           replace (y + (qy - y)) with qy by lia. exact Hw.
    + exfalso. unfold at_corner in Hc. apply andb_true_iff in Hc.
      destruct Hc as [_ Hc]. apply Z.eqb_eq in Hc.
      destruct Hqb as [_ Hqy]. cbn [snd] in Hqy. lia.
  - intros h v Hp.
    destruct (get_new_position_in_bounds t x y h v Hwf Hin) as (p' & Hp' & Hb).
    rewrite Hp in Hp'. injection Hp' as <-.
    destruct Hb as [_ Hb]. cbn [snd] in Hb. lia.
Qed.

Lemma valid_moves_and_new_position_agree_witness :
  exists moves,
    get_valid_moves (trainer_of level_open) 2 2 = Ok moves /\
    In (2, 1) moves.
Proof.
  destruct (valid_moves_and_new_position_agree (trainer_of level_open) 2 2)
    as (moves & E & Hin & _).
  - split; [reflexivity | repeat constructor].
  - split; cbn; lia.
  - exists moves. split; [exact E |].
    apply (Hin 0 (-1)); [reflexivity | right].
    intros H. discriminate H.
Defined.

(** ** More on level loading *)

Lemma py_index_nonneg {A : Type} (l : list A) (i : Z) (a : A) :
  0 <= i ->
  (py_index l i = Ok a <-> nth_error l (Z.to_nat i) = Some a).
Proof.
  intros Hi. unfold py_index.
  destruct (Z.ltb_spec i 0); [lia |].
  destruct (Z.ltb_spec i 0); [lia |].
  destruct (nth_error l (Z.to_nat i)); split; congruence.
Qed.

Lemma grid_at_nonneg (t : Trainer) (x y c : Z) :
  0 <= x -> 0 <= y ->
  (grid_at t y x = Ok c <->
   exists row, nth_error (game_grid t) (Z.to_nat y) = Some row /\
               nth_error row (Z.to_nat x) = Some c).
Proof.
  intros Hx Hy. unfold grid_at. split.
  - destruct (py_index (game_grid t) y) as [row |] eqn:Hrow; [| discriminate].
    cbn [bind]. intros Hc. exists row.
    split; [apply py_index_nonneg | apply py_index_nonneg]; assumption.
  - intros (row & Hrow & Hc).
    apply py_index_nonneg in Hrow; [| exact Hy]. rewrite Hrow. cbn [bind].
    apply py_index_nonneg; assumption.
Qed.

Lemma nth_error_shift {A : Type} (a : A) (l : list A) (i s : Z) :
  s < i ->
  nth_error (a :: l) (Z.to_nat (i - s)) = nth_error l (Z.to_nat (i - (s + 1))).
Proof.
  intros H. replace (Z.to_nat (i - s)) with (S (Z.to_nat (i - (s + 1)))) by lia.
  reflexivity.
Qed.

Lemma find_in_row_enemies_iff (y : Z) (row : list Z) :
  forall start player enemies q,
    In q (snd (find_in_row y (enumerate_from start row) (player, enemies))) <->
    In q enemies \/
    (snd q = y /\ start <= fst q /\
     nth_error row (Z.to_nat (fst q - start)) = Some ENEMY_CELL_STATE_CODE).
Proof.
  induction row as [| c row IH]; intros start player enemies q;
    cbn [enumerate_from find_in_row].
  - cbn [snd]. split; [tauto |]. intros [H | (_ & _ & H)]; [exact H |].
    destruct (Z.to_nat _); discriminate H.
  - assert (Hshift : start < fst q ->
              nth_error (c :: row) (Z.to_nat (fst q - start))
              = nth_error row (Z.to_nat (fst q - (start + 1))))
      by apply nth_error_shift.
    assert (Hhere : fst q = start ->
              nth_error (c :: row) (Z.to_nat (fst q - start)) = Some c).
    { intros ->. rewrite Z.sub_diag. reflexivity. }
    destruct (Z.eqb_spec c PLAYER_CELL_STATE_CODE) as [Hc | Hc];
      [| destruct (Z.eqb_spec c ENEMY_CELL_STATE_CODE) as [Hc' | Hc']];
      rewrite IH; try rewrite in_app_iff; cbn [In]; split.
    + intros [H | (Hy & Hs & Hn)]; [tauto |]. right.
      rewrite Hshift by lia. split; [exact Hy |]. split; [lia | exact Hn].
    + intros [H | (Hy & Hs & Hn)]; [tauto |]. right.
      destruct (Z.eq_dec (fst q) start) as [He | He].
      * rewrite (Hhere He) in Hn. injection Hn as Hn.
        unfold PLAYER_CELL_STATE_CODE, ENEMY_CELL_STATE_CODE in *. lia.
      * rewrite Hshift in Hn by lia. split; [exact Hy |]. split; [lia | exact Hn].
    + intros [[H | [<- | []]] | (Hy & Hs & Hn)]; [tauto | |].
      * right. cbn [fst snd]. split; [reflexivity |]. split; [lia |].
        rewrite Z.sub_diag. cbn. congruence.
      * right. rewrite Hshift by lia.
        split; [exact Hy |]. split; [lia | exact Hn].
    + intros [H | (Hy & Hs & Hn)]; [tauto |].
      destruct (Z.eq_dec (fst q) start) as [He | He].
      * left. right. left. destruct q as [qx qy]. cbn [fst snd] in *.
        subst. reflexivity.
      * right. rewrite Hshift in Hn by lia.
        split; [exact Hy |]. split; [lia | exact Hn].
    + intros [H | (Hy & Hs & Hn)]; [tauto |]. right.
      rewrite Hshift by lia. split; [exact Hy |]. split; [lia | exact Hn].
    + intros [H | (Hy & Hs & Hn)]; [tauto |]. right.
      destruct (Z.eq_dec (fst q) start) as [He | He].
      * rewrite (Hhere He) in Hn. injection Hn as Hn. contradiction.
      * rewrite Hshift in Hn by lia. split; [exact Hy |]. split; [lia | exact Hn].
Qed.

Lemma find_in_rows_enemies_iff (rows : list (list Z)) :
  forall start player enemies q,
    In q (snd (find_in_rows (enumerate_from start rows) (player, enemies))) <->
    In q enemies \/
    (start <= snd q /\ 0 <= fst q /\
     exists row,
       nth_error rows (Z.to_nat (snd q - start)) = Some row /\
       nth_error row (Z.to_nat (fst q)) = Some ENEMY_CELL_STATE_CODE).
Proof.
  induction rows as [| row rows IH]; intros start player enemies q;
    cbn [enumerate_from find_in_rows].
  - cbn [snd]. split; [tauto |]. intros [H | (_ & _ & r & H & _)]; [exact H |].
    destruct (Z.to_nat _); discriminate H.
  - unfold enumerate.
    destruct (find_in_row start (enumerate_from 0 row) (player, enemies))
      as [player' enemies'] eqn:Hrow.
    rewrite IH.
    pose proof (find_in_row_enemies_iff start row 0 player enemies q) as Hq.
    rewrite Hrow in Hq. cbn [snd] in Hq. rewrite Hq, Z.sub_0_r. split.
    + intros [[H | (Hy & Hx & Hn)] | (Hy & Hx & r & Hr & Hn)]; [tauto | |].
      * right. split; [lia |]. split; [exact Hx |]. exists row.
        rewrite Hy, Z.sub_diag. split; [reflexivity | exact Hn].
      * right. split; [lia |]. split; [exact Hx |]. exists r.
        rewrite nth_error_shift by lia. split; assumption.
    + intros [H | (Hy & Hx & r & Hr & Hn)]; [tauto |].
      destruct (Z.eq_dec (snd q) start) as [He | He].
      * left. right. rewrite He, Z.sub_diag in Hr. injection Hr as <-.
        split; [exact He |]. split; [exact Hx | exact Hn].
      * right. rewrite nth_error_shift in Hr by lia.
        split; [lia |]. split; [exact Hx |]. exists r. split; assumption.
Qed.

Lemma sorted_snoc (l : list (Z * Z)) (a : Z * Z) :
  StronglySorted row_major_lt l -> Forall (fun e => row_major_lt e a) l ->
  StronglySorted row_major_lt (l ++ [a]).
Proof.
  induction 1 as [| e l Hs IH He]; intros Hall; cbn [app].
  - constructor; constructor.
  - inversion Hall as [| ? ? Hea Hrest]; subst.
    constructor; [apply IH, Hrest |].
    apply Forall_app. split; [exact He |]. constructor; [exact Hea | constructor].
Qed.

Lemma find_in_row_sorted (y : Z) (row : list Z) :
  forall start player enemies,
    StronglySorted row_major_lt enemies ->
    Forall (fun e => row_major_lt e (start, y)) enemies ->
    let r := snd (find_in_row y (enumerate_from start row) (player, enemies)) in
    StronglySorted row_major_lt r /\
    Forall (fun e => row_major_lt e (start + len row, y)) r.
Proof.
  induction row as [| c row IH]; intros start player enemies Hs Hb;
    cbn [enumerate_from find_in_row].
  - cbn [snd]. unfold len. cbn [length Z.of_nat]. rewrite Z.add_0_r. tauto.
  - assert (Hlen : start + len (c :: row) = start + 1 + len row)
      by (unfold len; cbn [length]; lia).
    rewrite Hlen.
    assert (Hb' : Forall (fun e => row_major_lt e (start + 1, y)) enemies).
    { eapply Forall_impl; [| exact Hb]. intros e. unfold row_major_lt.
      cbn [fst snd]. lia. }
    destruct (c =? PLAYER_CELL_STATE_CODE); [apply IH; assumption |].
    destruct (c =? ENEMY_CELL_STATE_CODE); [| apply IH; assumption].
    apply IH.
    + apply sorted_snoc; assumption.
    + apply Forall_app. split; [exact Hb' |].
      constructor; [| constructor]. right. cbn [fst snd]. lia.
Qed.

Lemma find_in_rows_sorted (rows : list (list Z)) :
  forall start player enemies,
    StronglySorted row_major_lt enemies ->
    Forall (fun e => snd e < start) enemies ->
    StronglySorted row_major_lt
      (snd (find_in_rows (enumerate_from start rows) (player, enemies))).
Proof.
  induction rows as [| row rows IH]; intros start player enemies Hs Hb;
    cbn [enumerate_from find_in_rows].
  - exact Hs.
  - unfold enumerate.
    destruct (find_in_row_sorted start row 0 player enemies Hs) as [Hs' Hb'].
    { eapply Forall_impl; [| exact Hb]. intros e He. left. exact He. }
    destruct (find_in_row start (enumerate_from 0 row) (player, enemies))
      as [player' enemies'].
    cbn [snd] in *. apply IH; [exact Hs' |].
    rewrite Forall_forall in *. intros e He.
    destruct (Hb' e He) as [Hlt | [Heq _]]; cbn [snd] in *; lia.
Qed.

Lemma row_major_sorted_nodup (l : list (Z * Z)) :
  StronglySorted row_major_lt l -> NoDup l.
Proof.
  induction 1 as [| e l Hs IH He]; constructor; [| exact IH].
  intros Hin. rewrite Forall_forall in He. specialize (He e Hin).
  unfold row_major_lt in He. lia.
Qed.

Lemma find_in_row_player_last (y : Z) (row : list Z) :
  forall start player enemies p,
    fst (find_in_row y (enumerate_from start row) (player, enemies)) = Some p ->
    (player = Some p /\
     forall k, nth_error row k <> Some PLAYER_CELL_STATE_CODE) \/
    (snd p = y /\ start <= fst p /\
     nth_error row (Z.to_nat (fst p - start)) = Some PLAYER_CELL_STATE_CODE /\
     forall k, nth_error row k = Some PLAYER_CELL_STATE_CODE ->
               start + Z.of_nat k <= fst p).
Proof.
  induction row as [| c row IH]; intros start player enemies p;
    cbn [enumerate_from find_in_row].
  - cbn [fst]. intros ->. left. split; [reflexivity |].
    intros [| k]; discriminate.
  - assert (Hstep : forall player' enemies',
              fst (find_in_row y (enumerate_from (start + 1) row)
                     (player', enemies')) = Some p ->
              (player' = Some p /\
               forall k, nth_error row k <> Some PLAYER_CELL_STATE_CODE) \/
              (snd p = y /\ start <= fst p /\
               nth_error (c :: row) (Z.to_nat (fst p - start))
               = Some PLAYER_CELL_STATE_CODE /\
               forall k, nth_error (c :: row) k = Some PLAYER_CELL_STATE_CODE ->
                         start + Z.of_nat k <= fst p)).
    { intros player' enemies' H.
      destruct (IH _ _ _ _ H) as [Hkeep | (Hy & Hs & Hn & Hlast)];
        [left; exact Hkeep | right].
      split; [exact Hy |]. split; [lia |].
      split; [rewrite nth_error_shift by lia; exact Hn |].
      intros [| k] Hk; [lia |]. cbn [nth_error] in Hk.
      specialize (Hlast k Hk). lia. }
    destruct (Z.eqb_spec c PLAYER_CELL_STATE_CODE) as [Hc | Hc].
    + intros H. destruct (Hstep _ _ H) as [[Heq Hnone] | Hin]; [| right; exact Hin].
      injection Heq as <-. right. cbn [fst snd].
      split; [reflexivity |]. split; [lia |].
      split; [rewrite Z.sub_diag; cbn; congruence |].
      intros [| k] Hk; [lia |]. cbn [nth_error] in Hk.
      exfalso. exact (Hnone k Hk).
    + assert (Hnot : forall player',
                player' = Some p /\
                (forall k, nth_error row k <> Some PLAYER_CELL_STATE_CODE) ->
                player' = Some p /\
                (forall k, nth_error (c :: row) k
                           <> Some PLAYER_CELL_STATE_CODE)).
      { intros player' [Hp Hnone]. split; [exact Hp |].
        intros [| k]; cbn [nth_error]; [congruence | apply Hnone]. }
      destruct (c =? ENEMY_CELL_STATE_CODE); intros H;
        (destruct (Hstep _ _ H) as [Hkeep | Hin];
         [left; apply Hnot, Hkeep | right; exact Hin]).
Qed.

Lemma find_in_rows_player_last (rows : list (list Z)) :
  forall start player enemies p,
    fst (find_in_rows (enumerate_from start rows) (player, enemies)) = Some p ->
    (player = Some p /\
     forall j row k, nth_error rows j = Some row ->
                     nth_error row k <> Some PLAYER_CELL_STATE_CODE) \/
    (start <= snd p /\ 0 <= fst p /\
     (exists row,
        nth_error rows (Z.to_nat (snd p - start)) = Some row /\
        nth_error row (Z.to_nat (fst p)) = Some PLAYER_CELL_STATE_CODE) /\
     forall j row k,
       nth_error rows j = Some row ->
       nth_error row k = Some PLAYER_CELL_STATE_CODE ->
       (start + Z.of_nat j, Z.of_nat k) = (snd p, fst p) \/
       start + Z.of_nat j < snd p \/
       (start + Z.of_nat j = snd p /\ Z.of_nat k < fst p)).
Proof.
  induction rows as [| row rows IH]; intros start player enemies p;
    cbn [enumerate_from find_in_rows].
  - cbn [fst]. intros ->. left. split; [reflexivity |].
    intros [| j]; discriminate.
  - unfold enumerate.
    destruct (find_in_row start (enumerate_from 0 row) (player, enemies))
      as [player' enemies'] eqn:Hrow.
    intros H.
    destruct (IH _ _ _ _ H) as [[Hp Hnone] | (Hy & Hx & (r & Hr & Hn) & Hlast)].
    + subst player'.
      pose proof (find_in_row_player_last start row 0 player enemies p) as Hq.
      rewrite Hrow in Hq.
      destruct (Hq eq_refl) as [[Hp Hnone0] | (Hy & Hx & Hn & Hlast)].
      * left. split; [exact Hp |].
        intros [| j] r k Hr; cbn [nth_error] in Hr.
        -- injection Hr as <-. apply Hnone0.
        -- eapply Hnone; eassumption.
      * right. rewrite Z.sub_0_r in Hn.
        split; [lia |]. split; [exact Hx |]. split.
        -- exists row. rewrite Hy, Z.sub_diag. split; [reflexivity | exact Hn].
        -- intros [| j] r k Hr Hk; cbn [nth_error] in Hr.
           ++ injection Hr as <-. specialize (Hlast k Hk).
              destruct (Z.eq_dec (Z.of_nat k) (fst p)) as [He | He].
              ** left. f_equal; lia.
              ** right. right. lia.
           ++ exfalso. eapply Hnone; eassumption.
    + right. split; [lia |]. split; [exact Hx |]. split.
      * exists r. rewrite nth_error_shift by lia. split; assumption.
      * intros [| j] r' k Hr' Hk; cbn [nth_error] in Hr'.
        -- right. left. lia.
        -- destruct (Hlast j r' k Hr' Hk) as [He | [Hlt | [He Hlt]]].
           ++ left. injection He as He1 He2. f_equal; lia.
           ++ right. left. lia.
           ++ right. right. lia.
Qed.

Lemma find_start_positions_spec :
  forall (grid : Grid) (t : Trainer),
    Trainer_init grid = Ok t ->
    (forall q,
       In q (enemy_start_positions t) <->
       0 <= fst q /\ 0 <= snd q /\
       grid_at t (snd q) (fst q) = Ok ENEMY_CELL_STATE_CODE) /\
    (forall p,
       player_start t = Some p ->
       0 <= fst p /\ 0 <= snd p /\
       grid_at t (snd p) (fst p) = Ok PLAYER_CELL_STATE_CODE /\
       forall q,
         0 <= fst q -> 0 <= snd q ->
         grid_at t (snd q) (fst q) = Ok PLAYER_CELL_STATE_CODE ->
         q = p \/ row_major_lt q p).
Proof.
  intros grid t Hinit.
  destruct grid as [| row0 rest]; [discriminate |].
  rewrite (trainer_init_fields (row0 :: rest) row0 rest eq_refl) in Hinit.
  injection Hinit as <-.
  cbn [enemy_start_positions player_start].
  unfold find_start_positions, enumerate.
  split.
  - intros q. rewrite find_in_rows_enemies_iff. cbn [In]. rewrite Z.sub_0_r.
    split.
    + intros [[] | (Hy & Hx & row & Hrow & Hn)].
      split; [exact Hx |]. split; [exact Hy |].
      apply grid_at_nonneg; [assumption | assumption |].
      exists row. split; assumption.
    + intros (Hx & Hy & Hc). right. split; [exact Hy |]. split; [exact Hx |].
      apply grid_at_nonneg in Hc; assumption.
  - intros p Hp.
    destruct (find_in_rows_player_last _ _ _ _ _ Hp)
      as [[Hnone _] | (Hy & Hx & (row & Hrow & Hn) & Hlast)]; [discriminate |].
    rewrite Z.sub_0_r in Hrow.
    split; [exact Hx |]. split; [exact Hy |]. split.
    + apply grid_at_nonneg; [assumption | assumption |].
      exists row. split; assumption.
    + intros q Hqx Hqy Hq. apply grid_at_nonneg in Hq; [| assumption ..].
      destruct Hq as (r & Hr & Hk). cbn [game_grid] in Hr.
      destruct (Hlast _ _ _ Hr Hk) as [He | [Hlt | [He Hlt]]].
      * left. injection He as He1 He2. destruct q, p. cbn [fst snd] in *.
        f_equal; lia.
      * right. left. lia.
      * right. right. lia.
Qed.

(** X6.  What [find_start_positions] records of a loaded level, whatever
    its shape.  The enemy start positions are exactly the cells holding
    the enemy code, each once, in row-major order (row by row, left to
    right).  The player start, when set, is a cell holding the player
    code, and it is the last such cell in row-major order: a level with
    several player cells keeps only the last one. *)
Theorem find_start_positions_exact :
  forall (grid : Grid) (t : Trainer),
    Trainer_init grid = Ok t ->
    (forall q,
       In q (enemy_start_positions t) <->
       0 <= fst q /\ 0 <= snd q /\
       grid_at t (snd q) (fst q) = Ok ENEMY_CELL_STATE_CODE) /\
    StronglySorted row_major_lt (enemy_start_positions t) /\
    NoDup (enemy_start_positions t) /\
    (forall p,
       player_start t = Some p ->
       0 <= fst p /\ 0 <= snd p /\
       grid_at t (snd p) (fst p) = Ok PLAYER_CELL_STATE_CODE /\
       forall q,
         0 <= fst q -> 0 <= snd q ->
         grid_at t (snd q) (fst q) = Ok PLAYER_CELL_STATE_CODE ->
         q = p \/ row_major_lt q p).
Proof.
  intros grid t Hinit.
  destruct (find_start_positions_spec grid t Hinit) as [Henemy Hplayer].
  assert (Hsorted : StronglySorted row_major_lt (enemy_start_positions t)).
  { destruct grid as [| row0 rest]; [discriminate |].
    rewrite (trainer_init_fields (row0 :: rest) row0 rest eq_refl) in Hinit.
    injection Hinit as <-. cbn [enemy_start_positions].
    unfold find_start_positions, enumerate.
    apply find_in_rows_sorted; constructor. }
  split; [exact Henemy |]. split; [exact Hsorted |].
  split; [apply row_major_sorted_nodup, Hsorted | exact Hplayer].
Qed.

Lemma find_start_positions_exact_witness :
  In (1, 1) (enemy_start_positions (trainer_of level_open)).
Proof.
  apply (proj1 (find_start_positions_exact level_open (trainer_of level_open)
                  eq_refl) (1, 1)).
  split; [cbn; lia |]. split; [cbn; lia | reflexivity].
Defined.

(** A level with two player cells: the one met last wins. *)
Example find_start_positions_two_players :
  player_start (trainer_of [[2; 0]; [0; 2]]) = Some (1, 1).
Proof. reflexivity. Qed.

Lemma trainer_init_loaded (grid : Grid) (t : Trainer) :
  Trainer_init grid = Ok t -> rectangular grid = true ->
  well_formed t /\
  Forall (in_bounds t) (enemy_start_positions t) /\
  (forall p, player_start t = Some p -> in_bounds t p /\ ~ is_wall t p).
Proof.
  intros Hinit Hrect.
  destruct (trainer_init_well_formed grid t Hinit Hrect) as [Hwf Hen].
  split; [exact Hwf |]. split; [exact Hen |].
  intros p Hp.
  destruct (find_start_positions_spec grid t Hinit) as (_ & Hplayer).
  destruct (Hplayer p Hp) as (Hx & Hy & Hc & _).
  assert (Hin : in_bounds t p).
  { apply grid_at_nonneg in Hc; [| assumption ..].
    destruct Hc as (row & Hrow & Hcell).
    destruct Hwf as [Hh Hrows]. rewrite Forall_forall in Hrows.
    pose proof (Hrows row (nth_error_In _ _ Hrow)) as Hlen.
    assert (Hr : (Z.to_nat (snd p) < length (game_grid t))%nat)
      by (apply nth_error_Some; congruence).
    assert (Hc' : (Z.to_nat (fst p) < length row)%nat)
      by (apply nth_error_Some; congruence).
    unfold len in *. split; lia. }
  split; [exact Hin |].
  unfold is_wall. rewrite Hc. intros H. discriminate H.
Qed.

(** X7.  A level that is rectangular and has at least one row loads into
    a trainer whose recorded height and width are those of the grid, whose
    enemy start positions are cells of the level, and whose player start,
    when set, is a cell of the level that is no wall. *)
Theorem trainer_init_rectangular :
  forall (grid : Grid),
    grid <> [] -> rectangular grid = true ->
    exists t,
      Trainer_init grid = Ok t /\
      well_formed t /\
      Forall (in_bounds t) (enemy_start_positions t) /\
      (forall p, player_start t = Some p ->
                 in_bounds t p /\ ~ is_wall t p).
Proof.
  intros grid Hne Hrect.
  assert (Hload : exists t, Trainer_init grid = Ok t).
  { destruct grid as [| row0 rest]; [contradiction |].
    rewrite (trainer_init_fields (row0 :: rest) row0 rest eq_refl).
    eexists. reflexivity. }
  destruct Hload as [t Hinit].
  exists t. split; [exact Hinit |].
  apply (trainer_init_loaded grid t Hinit Hrect).
Qed.

Lemma trainer_init_rectangular_witness :
  exists t, Trainer_init level_blocked = Ok t /\ well_formed t.
Proof.
  destruct (trainer_init_rectangular level_blocked) as (t & Hinit & Hwf & _).
  - discriminate.
  - reflexivity.
  - exists t. split; assumption.
Defined.

(** ** More on the combat resolver *)

Lemma py_all_true (f : Z -> result bool) :
  forall (n : nat) (lo hi : Z),
    Z.to_nat (hi - lo) = n ->
    (forall k, lo <= k < hi -> f k = Ok true) ->
    py_all f (py_range lo hi) = Ok true.
Proof.
  induction n as [| n IH]; intros lo hi Hn Hall.
  - rewrite py_range_empty by lia. reflexivity.
  - rewrite py_range_step by lia. cbn [py_all].
    rewrite (Hall lo) by lia. cbn [bind]. apply IH; [lia |].
    intros k Hk. apply Hall. lia.
Qed.

Lemma open_cell_test (t : Trainer) (x y : Z) :
  well_formed t -> in_bounds t (x, y) -> ~ is_wall t (x, y) ->
  (c <- grid_at t y x ;; Ok (negb (c =? WALL_CELL_STATE_CODE))) = Ok true.
Proof.
  intros Hwf Hin Hopen. apply (is_wall_open_cell t x y Hwf Hin) in Hopen.
  unfold open_cell in Hopen.
  destruct (grid_at t y x) as [c |]; [| discriminate]. cbn [bind].
  rewrite Hopen. reflexivity.
Qed.

Lemma row_clear_open (t : Trainer) (y lo hi : Z) :
  well_formed t -> 0 <= y < game_grid_height t ->
  0 <= lo -> hi <= game_grid_width t ->
  (forall x, lo <= x < hi -> ~ is_wall t (x, y)) ->
  row_clear t y lo hi = Ok true.
Proof.
  intros Hwf Hy Hlo Hhi Hopen. unfold row_clear.
  eapply py_all_true; [reflexivity |].
  intros k Hk. apply open_cell_test; [exact Hwf | | apply Hopen, Hk].
  split; cbn [fst snd]; lia.
Qed.

Lemma column_clear_open (t : Trainer) (x lo hi : Z) :
  well_formed t -> 0 <= x < game_grid_width t ->
  0 <= lo -> hi <= game_grid_height t ->
  (forall y, lo <= y < hi -> ~ is_wall t (x, y)) ->
  column_clear t x lo hi = Ok true.
Proof.
  intros Hwf Hx Hlo Hhi Hopen. unfold column_clear.
  eapply py_all_true; [reflexivity |].
  intros k Hk. apply open_cell_test; [exact Hwf | | apply Hopen, Hk].
  split; cbn [fst snd]; lia.
Qed.

(** X8.  The line of fire of [SHOOT_PLAYER], for attacker and player on
    different cells of a rectangular level within distance 3.  On a shared
    row the cells inspected run from the smaller x coordinate (included)
    to the larger one (excluded); on a shared column likewise for y.  The
    shot takes 20 points when none of these cells is a wall and nothing
    when one is.  So the cell of whoever stands left or above counts: an
    attacker standing on a wall cannot shoot to the right or downwards. *)
Theorem shoot_player_line_of_fire :
  forall (t : Trainer) (px py ex ey health : Z),
    well_formed t -> in_bounds t (ex, ey) -> in_bounds t (px, py) ->
    dist2 px py ex ey <= 9 -> (ex, ey) <> (px, py) ->
    (ey = py ->
     ((forall x, Z.min ex px <= x < Z.max ex px -> ~ is_wall t (x, ey)) ->
      shoot_player t px py ex ey health = Ok (health - ENEMY_SHOOT_DAMAGE)) /\
     ((exists x, Z.min ex px <= x < Z.max ex px /\ is_wall t (x, ey)) ->
      shoot_player t px py ex ey health = Ok health)) /\
    (ex = px ->
     ((forall y, Z.min ey py <= y < Z.max ey py -> ~ is_wall t (ex, y)) ->
      shoot_player t px py ex ey health = Ok (health - ENEMY_SHOOT_DAMAGE)) /\
     ((exists y, Z.min ey py <= y < Z.max ey py /\ is_wall t (ex, y)) ->
      shoot_player t px py ex ey health = Ok health)).
Proof.
  intros t px py ex ey health Hwf [Hex Hey] [Hpx Hpy] Hnear Hdiff.
  cbn [fst snd] in *. unfold shoot_player.
  destruct (Z.leb_spec (dist2 px py ex ey) (3 * 3)); [| lia].
  split.
  - intros ->. assert (Hx : ex <> px) by congruence.
    rewrite Z.eqb_refl. destruct (Z.eqb_spec ex px); [contradiction |].
    unfold shoot_along_row.
    destruct (Z.leb_spec ex px) as [Hle | Hgt];
      destruct (Z.gtb_spec ex px) as [Hgt' | Hle']; try lia; cbn [py_and].
    + replace (Z.min ex px) with ex by lia.
      replace (Z.max ex px) with px by lia. split.
      * intros Hopen. rewrite row_clear_open by (assumption || lia).
        reflexivity.
      * intros (x & Hx' & Hwall).
        rewrite (row_clear_blocked t py ex px x) by (assumption || lia).
        reflexivity.
    + replace (Z.min ex px) with px by lia.
      replace (Z.max ex px) with ex by lia. cbn [bind]. split.
      * intros Hopen. rewrite row_clear_open by (assumption || lia).
        reflexivity.
      * intros (x & Hx' & Hwall).
        rewrite (row_clear_blocked t py px ex x) by (assumption || lia).
        reflexivity.
  - intros ->. assert (Hy : ey <> py) by congruence.
    rewrite Z.eqb_refl. destruct (Z.eqb_spec ey py); [contradiction |].
    cbn [bind]. unfold shoot_along_column.
    destruct (Z.leb_spec ey py) as [Hle | Hgt];
      destruct (Z.gtb_spec ey py) as [Hgt' | Hle']; try lia; cbn [py_and].
    + replace (Z.min ey py) with ey by lia.
      replace (Z.max ey py) with py by lia. split.
      * intros Hopen. rewrite column_clear_open by (assumption || lia).
        reflexivity.
      * intros (y & Hy' & Hwall).
        rewrite (column_clear_blocked t px ey py y) by (assumption || lia).
        reflexivity.
    + replace (Z.min ey py) with py by lia.
      replace (Z.max ey py) with ey by lia. cbn [bind]. split.
      * intros Hopen. rewrite column_clear_open by (assumption || lia).
        reflexivity.
      * intros (y & Hy' & Hwall).
        rewrite (column_clear_blocked t px py ey y) by (assumption || lia).
        reflexivity.
Qed.

(** X8 on the 2 x 2 level with a wall at (1, 1): the shot from (1, 0) at a
    player on the wall cell below passes, and so does the shot of an
    attacker standing on the wall at the player to its left, at (0, 1). *)
Lemma shoot_player_line_of_fire_witness :
  shoot_player (trainer_of level_wall_corner) 1 1 1 0 100 = Ok 80 /\
  shoot_player (trainer_of level_wall_corner) 0 1 1 1 100 = Ok 80.
Proof.
  assert (Hwf : well_formed (trainer_of level_wall_corner)).
  { split; [reflexivity | repeat constructor]. }
  split.
  - refine (proj1 (proj2 (shoot_player_line_of_fire
                            (trainer_of level_wall_corner) 1 1 1 0 100
                            Hwf _ _ _ _) eq_refl) _).
    + split; cbn; lia.
    + split; cbn; lia.
    + vm_compute. discriminate.
    + intros H. discriminate H.
    + intros y Hy. assert (y = 0) as -> by lia. intros H. discriminate H.
  - refine (proj1 (proj1 (shoot_player_line_of_fire
                            (trainer_of level_wall_corner) 0 1 1 1 100
                            Hwf _ _ _ _) eq_refl) _).
    + split; cbn; lia.
    + split; cbn; lia.
    + vm_compute. discriminate.
    + intros H. discriminate H.
    + intros x Hx. assert (x = 0) as -> by lia. intros H. discriminate H.
Defined.

(** An enemy that went down onto the wall at (2, 1) of the last column
    hits the player above it and misses the player below it. *)
Example shoot_from_a_wall_cell :
  get_new_position (trainer_of level_wall_last_column) 2 0 0 1 = Ok (2, 1) /\
  shoot_player (trainer_of level_wall_last_column) 2 0 2 1 100 = Ok 80 /\
  shoot_player (trainer_of level_wall_last_column) 2 2 2 1 100 = Ok 100.
Proof. repeat split; reflexivity. Qed.

Lemma shoot_along_row_values (t : Trainer) (px ex ey h h' : Z) :
  shoot_along_row t px ex ey h = Ok h' ->
  h' = h \/ h' = h - ENEMY_SHOOT_DAMAGE.
Proof.
  unfold shoot_along_row.
  destruct (py_and _ _) as [[|] |]; cbn [bind]; try discriminate.
  - intros H; injection H as <-; tauto.
  - destruct (py_and _ _) as [[|] |]; cbn [bind]; try discriminate;
      intros H; injection H as <-; tauto.
Qed.

Lemma shoot_along_column_values (t : Trainer) (py ex ey h h' : Z) :
  shoot_along_column t py ex ey h = Ok h' ->
  h' = h \/ h' = h - ENEMY_SHOOT_DAMAGE.
Proof.
  unfold shoot_along_column.
  destruct (py_and _ _) as [[|] |]; cbn [bind]; try discriminate.
  - intros H; injection H as <-; tauto.
  - destruct (py_and _ _) as [[|] |]; cbn [bind]; try discriminate;
      intros H; injection H as <-; tauto.
Qed.

Lemma shoot_player_values (t : Trainer) (px py ex ey h h' : Z) :
  shoot_player t px py ex ey h = Ok h' ->
  h' = h \/ h' = h - 20 \/ (h' = h - 40 /\ ex = px /\ ey = py).
Proof.
  unfold shoot_player. destruct (_ <=? _); [| intros H; injection H as <-; tauto].
  destruct (Z.eqb_spec ey py) as [Hy | Hy];
    destruct (Z.eqb_spec ex px) as [Hx | Hx].
  - destruct (shoot_along_row t px ex ey h) as [h1 |] eqn:H1; [| discriminate].
    cbn [bind]. intros H2.
    apply shoot_along_row_values in H1. apply shoot_along_column_values in H2.
    unfold ENEMY_SHOOT_DAMAGE in *. lia.
  - destruct (shoot_along_row t px ex ey h) as [h1 |] eqn:H1; [| discriminate].
    cbn [bind]. intros H2. injection H2 as <-.
    apply shoot_along_row_values in H1. unfold ENEMY_SHOOT_DAMAGE in *. lia.
  - cbn [bind]. intros H2. apply shoot_along_column_values in H2.
    unfold ENEMY_SHOOT_DAMAGE in *. lia.
  - cbn [bind]. intros H; injection H as <-; tauto.
Qed.

Lemma apply_action_effect (t : Trainer) (action : EnemyAction)
    (px py ex ey h : Z) (p : Z * Z) (h' : Z) :
  apply_action t action px py ex ey h = Ok (p, h') ->
  manhattan p (ex, ey) <= 1 /\
  (p <> (ex, ey) -> h' = h) /\
  (h' = h \/ h' = h - 20 \/ h' = h - 50 \/
   (h' = h - 40 /\ action = SHOOT_PLAYER /\ (ex, ey) = (px, py))).
Proof.
  assert (Hstay : manhattan (ex, ey) (ex, ey) <= 1).
  { unfold manhattan. cbn [fst snd]. lia. }
  destruct action; cbn [apply_action];
    try (destruct (get_new_position t ex ey _ _) as [q |] eqn:Hq;
         [| discriminate]; cbn [bind]; intros H; injection H as <- <-;
         split; [eapply get_new_position_manhattan; eassumption |];
         split; [reflexivity | left; reflexivity]).
  - intros H; injection H as <- <-.
    split; [exact Hstay |]. split; [reflexivity | left; reflexivity].
  - destruct (shoot_player t px py ex ey h) as [h1 |] eqn:Hs; [| discriminate].
    cbn [bind]. intros H; injection H as <- <-.
    split; [exact Hstay |]. split; [intros H; contradiction |].
    apply shoot_player_values in Hs.
    destruct Hs as [-> | [-> | (-> & -> & ->)]]; tauto.
  - intros H; injection H as <- <-.
    split; [exact Hstay |]. split; [intros H; contradiction |].
    unfold hit_player, ENEMY_HIT_DAMAGE. destruct (_ <=? _); tauto.
Qed.

(** X9.  What one enemy action can do, on any level and whether or not
    the positions are on it: the enemy ends on its cell or one orthogonal
    step away; the health never rises and falls by 0, 20 or 50, or by 40
    only for a shot at a player on the attacker's own cell; an action
    that moves the enemy leaves the health alone. *)
Theorem enemy_action_effect :
  forall (t : Trainer) (action : EnemyAction) (px py ex ey h : Z)
         (p : Z * Z) (h' : Z),
    apply_action t action px py ex ey h = Ok (p, h') ->
    manhattan p (ex, ey) <= 1 /\
    h - 50 <= h' <= h /\
    (p <> (ex, ey) -> h' = h) /\
    (h' = h \/ h' = h - 20 \/ h' = h - 50 \/
     (h' = h - 40 /\ action = SHOOT_PLAYER /\ (ex, ey) = (px, py))).
Proof.
  intros t action px py ex ey h p h' H.
  destruct (apply_action_effect _ _ _ _ _ _ _ _ _ H) as (Hm & Hmove & Hv).
  split; [exact Hm |]. split; [lia |]. split; assumption.
Qed.

Lemma enemy_action_effect_witness :
  100 - 50 <= 50 <= 100.
Proof.
  apply (enemy_action_effect (trainer_of level_open) HIT_PLAYER
           1 0 1 1 100 (1, 1) 50 eq_refl).
Defined.

(** ** Episode invariants *)

Lemma enemy_turn_effect (t : Trainer) (policy : Policy) (px py : Z)
    (done : list (Z * Z)) (enemy : Z * Z) (rest : list (Z * Z)) (h : Z)
    (fit : list FitnessTerm) (moved : Z * Z) (h' : Z)
    (fit' : list FitnessTerm) :
  enemy_turn t policy px py done enemy rest h fit = Ok (moved, h', fit') ->
  exists action,
    apply_action t action px py (fst enemy) (snd enemy) h = Ok (moved, h') /\
    fit' = (if pos_neqb enemy moved then fit ++ [MoveReward] else fit)
           ++ [DistancePenalty (dist2 px py (fst moved) (snd moved))].
Proof.
  unfold enemy_turn. destruct enemy as [ex ey].
  destruct (network_inputs _ _ _ _ _ _) as [inputs |]; [| discriminate].
  cbn [bind]. destruct (policy inputs) as [output |]; [| discriminate].
  cbn [bind]. destruct (EnemyAction_of_value _) as [action |]; [| discriminate].
  cbn [bind].
  destruct (apply_action t action px py ex ey h) as [[m h1] |] eqn:Hact;
    [| discriminate].
  cbn [bind]. intros H. injection H as <- <- <-.
  exists action. split; [exact Hact | reflexivity].
Qed.

Lemma enemy_turn_health (t : Trainer) (policy : Policy) (px py : Z)
    (done : list (Z * Z)) (enemy : Z * Z) (rest : list (Z * Z)) (h : Z)
    (fit : list FitnessTerm) (moved : Z * Z) (h' : Z)
    (fit' : list FitnessTerm) :
  enemy_turn t policy px py done enemy rest h fit = Ok (moved, h', fit') ->
  h - 50 <= h' <= h /\ ((10 | h) -> (10 | h')).
Proof.
  intros H. destruct (enemy_turn_effect _ _ _ _ _ _ _ _ _ _ _ _ H)
    as (action & Hact & _).
  destruct (apply_action_effect _ _ _ _ _ _ _ _ _ Hact) as (_ & _ & Hv).
  split; [lia |]. intros [k Hk].
  destruct Hv as [-> | [-> | [-> | (-> & _)]]].
  - exists k. exact Hk.
  - exists (k - 2). lia.
  - exists (k - 5). lia.
  - exists (k - 4). lia.
Qed.

Lemma enemies_loop_health (t : Trainer) (policy : Policy) (px py : Z)
    (todo : list (Z * Z)) :
  forall done h fit enemies h' fit',
    0 < h -> (10 | h) ->
    enemies_loop t policy px py done todo h fit = Ok (enemies, h', fit') ->
    -40 <= h' <= h /\ (10 | h').
Proof.
  induction todo as [| enemy rest IH];
    intros done h fit enemies h' fit' Hpos Hdiv H; cbn [enemies_loop] in H.
  - injection H as <- <- <-. split; [lia | exact Hdiv].
  - destruct (enemy_turn _ _ _ _ _ _ _ _ _) as [[[m h1] f1] |] eqn:Hturn;
      [| discriminate].
    cbn [bind] in H.
    destruct (enemy_turn_health _ _ _ _ _ _ _ _ _ _ _ _ Hturn) as [Hr Hd].
    specialize (Hd Hdiv).
    assert (Hten : 10 <= h) by (destruct Hdiv as [k Hk]; lia).
    destruct (Z.leb_spec h1 0).
    + injection H as <- <- <-. split; [lia | exact Hd].
    + assert (Hpos1 : 0 < h1) by lia.
      destruct (IH _ _ _ _ _ _ Hpos1 Hd H) as [Hr' Hd'].
      split; [lia | exact Hd'].
Qed.

Lemma moves_loop_health (t : Trainer) (policy : Policy) (moves : list (Z * Z)) :
  forall st outcome st',
    0 < player_health st -> (10 | player_health st) ->
    moves_loop t policy moves st = Ok (outcome, st') ->
    -40 <= player_health st' <= player_health st /\
    (10 | player_health st') /\
    (outcome = Defeated <-> player_health st' <= 0).
Proof.
  induction moves as [| [px py] rest IH]; intros st outcome st' Hpos Hdiv H;
    cbn [moves_loop] in H.
  - injection H as <- <-. split; [lia |]. split; [exact Hdiv |].
    split; [discriminate | lia].
  - destruct (is_escape t (px, py)).
    + injection H as <- <-. cbn [player_health].
      split; [lia |]. split; [exact Hdiv |]. split; [discriminate | lia].
    + destruct (enemies_loop _ _ _ _ _ _ _ _) as [[[es h] f] |] eqn:Hloop;
        [| discriminate].
      cbn [bind] in H.
      destruct (enemies_loop_health _ _ _ _ _ _ _ _ _ _ _ Hpos Hdiv Hloop)
        as [Hr Hd].
      destruct (Z.leb_spec h 0).
      * injection H as <- <-. cbn [player_health].
        split; [lia |]. split; [exact Hd |]. split; [lia | reflexivity].
      * assert (Hpos1 : 0 < player_health
                                 (mkEpisode h es (moves_made st + 1) f))
          by (cbn [player_health]; lia).
        destruct (IH _ _ _ Hpos1 Hd H) as (Hr' & Hd' & Ho).
        cbn [player_health] in Hr'. split; [lia |]. split; assumption.
Qed.

(** X10.  Whenever the simulation of a trajectory returns, the final
    health is a multiple of 10 between -40 and 100 (health never rises,
    and the episode stops at the first action that brings it to zero or
    below); the loop over the moves was left by the defeat [break] exactly
    when that health is at most zero; and the magnitude of the terminal
    term is never negative. *)
Theorem episode_health_range :
  forall (t : Trainer) (policy : Policy) (moves : list Pos) (fit : Fitness)
         (outcome : Outcome) (st : EpisodeState),
    play_trajectory t policy moves fit = Ok (outcome, st) ->
    -40 <= player_health st <= PLAYER_STARTING_HEALTH /\
    (10 | player_health st) /\
    (outcome = Defeated <-> player_health st <= 0) /\
    0 <= (MAX_PLAYER_MOVES - moves_made st) ^ 2
         + (PLAYER_STARTING_HEALTH - player_health st).
Proof.
  intros t policy moves fit outcome st. unfold play_trajectory.
  destruct (moves_loop _ _ _ _) as [[o st1] |] eqn:Hloop; [| discriminate].
  cbn [bind]. intros H. injection H as <- <-. cbn [player_health moves_made].
  assert (Hpos0 : 0 < player_health
                         (mkEpisode PLAYER_STARTING_HEALTH
                            (enemy_start_positions t) 0 fit))
    by reflexivity.
  assert (Hdiv0 : (10 | player_health
                          (mkEpisode PLAYER_STARTING_HEALTH
                             (enemy_start_positions t) 0 fit)))
    by (exists 10; reflexivity).
  destruct (moves_loop_health _ _ _ _ _ _ Hpos0 Hdiv0 Hloop) as (Hr & Hd & Ho).
  cbn [player_health] in Hr. unfold PLAYER_STARTING_HEALTH in *.
  split; [lia |]. split; [exact Hd |]. split; [exact Ho |].
  pose proof (Z.pow_even_nonneg (MAX_PLAYER_MOVES - moves_made st1) 2
                ltac:(exists 1; reflexivity)).
  lia.
Qed.

Lemma episode_health_range_witness :
  -40 <= 0 <= PLAYER_STARTING_HEALTH.
Proof.
  apply (episode_health_range (trainer_of level_open) (constant_policy 6)
           [(1, 0); (1, 0); (1, 0)] [] Defeated
           (mkEpisode 0 [(1, 1)] 2
              [DistancePenalty 1; DistancePenalty 1; TerminalAdd 9704])).
  vm_compute. reflexivity.
Defined.

Lemma enemy_turn_step (t : Trainer) (policy : Policy) (px py : Z)
    (done : list (Z * Z)) (enemy : Z * Z) (rest : list (Z * Z)) (h : Z)
    (fit : list FitnessTerm) (moved : Z * Z) (h' : Z)
    (fit' : list FitnessTerm) :
  enemy_turn t policy px py done enemy rest h fit = Ok (moved, h', fit') ->
  manhattan moved enemy <= 1 /\
  (well_formed t -> in_bounds t enemy -> in_bounds t moved).
Proof.
  intros H. destruct (enemy_turn_effect _ _ _ _ _ _ _ _ _ _ _ _ H)
    as (action & Hact & _).
  destruct enemy as [ex ey]. cbn [fst snd] in Hact. split.
  - apply (apply_action_effect _ _ _ _ _ _ _ _ _ Hact).
  - intros Hwf Hin.
    destruct action; cbn [apply_action] in Hact;
      try (destruct (get_new_position t ex ey _ _) as [q |] eqn:Hq;
           [| discriminate]; cbn [bind] in Hact; injection Hact as <- _;
           match type of Hq with
           | get_new_position _ _ _ ?a ?b = _ =>
               destruct (get_new_position_in_bounds t ex ey a b Hwf Hin)
                 as (q' & Hq' & Hb)
           end;
           rewrite Hq in Hq'; injection Hq' as <-; exact Hb).
    + injection Hact as <- _. exact Hin.
    + destruct (shoot_player _ _ _ _ _ _); [| discriminate].
      cbn [bind] in Hact. injection Hact as <- _. exact Hin.
    + injection Hact as <- _. exact Hin.
Qed.

Lemma near_weaken (k k' : Z) (starts positions : list (Z * Z)) :
  k <= k' ->
  Forall2 (fun s p => manhattan p s <= k) starts positions ->
  Forall2 (fun s p => manhattan p s <= k') starts positions.
Proof.
  intros Hk H. induction H as [| s p starts positions Hsp _ IH];
    constructor; [lia | exact IH].
Qed.

Lemma enemies_loop_near (t : Trainer) (policy : Policy) (px py : Z)
    (k : Z) (todo : list (Z * Z)) :
  forall starts_todo starts_done done h fit enemies h' fit',
    Forall2 (fun s p => manhattan p s <= k + 1) starts_done done ->
    Forall2 (fun s p => manhattan p s <= k) starts_todo todo ->
    enemies_loop t policy px py done todo h fit = Ok (enemies, h', fit') ->
    Forall2 (fun s p => manhattan p s <= k + 1)
      (starts_done ++ starts_todo) enemies.
Proof.
  induction todo as [| enemy rest IH];
    intros starts_todo starts_done done h fit enemies h' fit' Hdone Htodo H;
    cbn [enemies_loop] in H.
  - injection H as <- <- <-. inversion Htodo; subst.
    rewrite app_nil_r. exact Hdone.
  - inversion Htodo as [| s ? starts_rest ? Hs Hrest]; subst.
    destruct (enemy_turn _ _ _ _ _ _ _ _ _) as [[[m h1] f1] |] eqn:Hturn;
      [| discriminate].
    cbn [bind] in H.
    destruct (enemy_turn_step _ _ _ _ _ _ _ _ _ _ _ _ Hturn) as [Hm _].
    assert (Hms : manhattan m s <= k + 1).
    { unfold manhattan in *. lia. }
    destruct (h1 <=? 0).
    + injection H as <- <- <-. apply Forall2_app; [exact Hdone |].
      constructor; [exact Hms |]. eapply near_weaken; [| exact Hrest]. lia.
    + replace (starts_done ++ s :: starts_rest)
        with ((starts_done ++ [s]) ++ starts_rest)
        by (rewrite <- app_assoc; reflexivity).
      eapply IH; [| exact Hrest | exact H].
      apply Forall2_app; [exact Hdone |]. constructor; [exact Hms | constructor].
Qed.

Lemma enemies_loop_on_level (t : Trainer) (policy : Policy) (px py : Z)
    (todo : list (Z * Z)) :
  well_formed t ->
  forall done h fit enemies h' fit',
    Forall (in_bounds t) done -> Forall (in_bounds t) todo ->
    enemies_loop t policy px py done todo h fit = Ok (enemies, h', fit') ->
    Forall (in_bounds t) enemies.
Proof.
  intros Hwf. induction todo as [| enemy rest IH];
    intros done h fit enemies h' fit' Hdone Htodo H; cbn [enemies_loop] in H.
  - injection H as <- <- <-. exact Hdone.
  - inversion Htodo as [| ? ? He Hrest]; subst.
    destruct (enemy_turn _ _ _ _ _ _ _ _ _) as [[[m h1] f1] |] eqn:Hturn;
      [| discriminate].
    cbn [bind] in H.
    destruct (enemy_turn_step _ _ _ _ _ _ _ _ _ _ _ _ Hturn) as [_ Hb].
    specialize (Hb Hwf He).
    destruct (h1 <=? 0).
    + injection H as <- <- <-. apply Forall_app. split; [exact Hdone |].
      constructor; assumption.
    + eapply IH; [| exact Hrest | exact H].
      apply Forall_app. split; [exact Hdone |]. constructor; [exact Hb |].
      constructor.
Qed.

Lemma moves_loop_enemies (t : Trainer) (policy : Policy) (starts : list (Z * Z))
    (moves : list (Z * Z)) :
  forall st outcome st',
    Forall2 (fun s p => manhattan p s <= moves_made st) starts
      (enemy_positions st) ->
    moves_loop t policy moves st = Ok (outcome, st') ->
    moves_made st <= moves_made st' /\
    Forall2 (fun s p => manhattan p s <= moves_made st') starts
      (enemy_positions st') /\
    (well_formed t -> Forall (in_bounds t) (enemy_positions st) ->
     Forall (in_bounds t) (enemy_positions st')).
Proof.
  induction moves as [| [px py] rest IH]; intros st outcome st' Hnear H;
    cbn [moves_loop] in H.
  - injection H as <- <-. split; [lia |]. split; [exact Hnear | auto].
  - destruct (is_escape t (px, py)).
    + injection H as <- <-. cbn [moves_made enemy_positions].
      split; [lia |]. split; [| auto].
      eapply near_weaken; [| exact Hnear]. lia.
    + destruct (enemies_loop _ _ _ _ _ _ _ _) as [[[es h] f] |] eqn:Hloop;
        [| discriminate].
      cbn [bind] in H.
      assert (Hes : Forall2 (fun s p => manhattan p s <= moves_made st + 1)
                      starts es).
      { apply (enemies_loop_near t policy px py (moves_made st)
                 (enemy_positions st) starts [] [] _ _ _ _ _
                 (Forall2_nil _) Hnear Hloop). }
      assert (Hin : well_formed t -> Forall (in_bounds t) (enemy_positions st) ->
                    Forall (in_bounds t) es).
      { intros Hwf Hst.
        apply (enemies_loop_on_level t policy px py (enemy_positions st) Hwf
                 [] _ _ _ _ _ (Forall_nil _) Hst Hloop). }
      destruct (h <=? 0).
      * injection H as <- <-. cbn [moves_made enemy_positions].
        split; [lia |]. split; assumption.
      * destruct (IH (mkEpisode h es (moves_made st + 1) f) _ _ Hes H)
          as (Hle & Hnear' & Hin').
        cbn [moves_made enemy_positions] in *.
        split; [lia |]. split; [exact Hnear' | auto].
Qed.

(** X11.  Whenever the simulation of a trajectory returns: the list of
    enemies has the length it started with, and each enemy stands at most
    [moves_made] orthogonal steps from its start position (one action per
    step of the trajectory); on a rectangular level whose enemies start on
    cells of the level, every enemy ends on a cell of the level. *)
Theorem episode_enemies_invariant :
  forall (t : Trainer) (policy : Policy) (moves : list Pos) (fit : Fitness)
         (outcome : Outcome) (st : EpisodeState),
    play_trajectory t policy moves fit = Ok (outcome, st) ->
    length (enemy_positions st) = length (enemy_start_positions t) /\
    Forall2 (fun start p => manhattan p start <= moves_made st)
      (enemy_start_positions t) (enemy_positions st) /\
    (well_formed t -> Forall (in_bounds t) (enemy_start_positions t) ->
     Forall (in_bounds t) (enemy_positions st)).
Proof.
  intros t policy moves fit outcome st. unfold play_trajectory.
  destruct (moves_loop _ _ _ _) as [[o st1] |] eqn:Hloop; [| discriminate].
  cbn [bind]. intros H. injection H as <- <-.
  cbn [enemy_positions moves_made].
  assert (H0 : forall l : list (Z * Z),
                 Forall2 (fun s p => manhattan p s <= 0) l l).
  { induction l as [| s l IHl]; [constructor |].
    constructor; [unfold manhattan; lia | exact IHl]. }
  destruct (moves_loop_enemies t policy (enemy_start_positions t) moves
              (mkEpisode PLAYER_STARTING_HEALTH (enemy_start_positions t) 0 fit)
              o st1 (H0 (enemy_start_positions t)) Hloop)
    as (_ & Hnear & Hin).
  split; [symmetry; eapply Forall2_length; exact Hnear |].
  split; [exact Hnear | exact Hin].
Qed.

Lemma episode_enemies_invariant_witness :
  length [(0, 1)] = length (enemy_start_positions (trainer_of level_open)).
Proof.
  apply (episode_enemies_invariant (trainer_of level_open) (constant_policy 0)
           [(2, 0)] [] MoveLimit
           (mkEpisode 100 [(0, 1)] 1
              [MoveReward; DistancePenalty 5; TerminalSub 9801])).
  vm_compute. reflexivity.
Defined.

(** ** The fitness log of an episode *)

Lemma count_distance_app (a b : list FitnessTerm) :
  count_distance (a ++ b) = (count_distance a + count_distance b)%nat.
Proof. unfold count_distance. rewrite filter_app, length_app. reflexivity. Qed.

Lemma count_move_reward_app (a b : list FitnessTerm) :
  count_move_reward (a ++ b)
  = (count_move_reward a + count_move_reward b)%nat.
Proof.
  unfold count_move_reward. rewrite filter_app, length_app. reflexivity.
Qed.

Lemma enemy_turn_counts (t : Trainer) (policy : Policy) (px py : Z)
    (done : list (Z * Z)) (enemy : Z * Z) (rest : list (Z * Z)) (h : Z)
    (fit : list FitnessTerm) (moved : Z * Z) (h' : Z)
    (fit' : list FitnessTerm) :
  enemy_turn t policy px py done enemy rest h fit = Ok (moved, h', fit') ->
  count_distance fit' = S (count_distance fit) /\
  (count_move_reward fit <= count_move_reward fit'
   <= S (count_move_reward fit))%nat.
Proof.
  intros H. destruct (enemy_turn_effect _ _ _ _ _ _ _ _ _ _ _ _ H)
    as (action & _ & ->).
  destruct (pos_neqb enemy moved);
    rewrite ?count_distance_app, ?count_move_reward_app; cbn; lia.
Qed.

Lemma enemies_loop_counts (t : Trainer) (policy : Policy) (px py : Z)
    (todo : list (Z * Z)) :
  forall done h fit enemies h' fit',
    enemies_loop t policy px py done todo h fit = Ok (enemies, h', fit') ->
    length enemies = (length done + length todo)%nat /\
    (count_distance fit <= count_distance fit'
     <= count_distance fit + length todo)%nat /\
    (count_move_reward fit <= count_move_reward fit')%nat /\
    (count_move_reward fit' - count_move_reward fit
     <= count_distance fit' - count_distance fit)%nat.
Proof.
  induction todo as [| enemy rest IH]; intros done h fit enemies h' fit' H;
    cbn [enemies_loop] in H.
  - injection H as <- <- <-. cbn [length]. lia.
  - destruct (enemy_turn _ _ _ _ _ _ _ _ _) as [[[m h1] f1] |] eqn:Hturn;
      [| discriminate].
    cbn [bind] in H.
    destruct (enemy_turn_counts _ _ _ _ _ _ _ _ _ _ _ _ Hturn) as [Hd Hr].
    destruct (h1 <=? 0).
    + injection H as <- <- <-. rewrite length_app. cbn [length]. lia.
    + destruct (IH _ _ _ _ _ _ H) as (Hl & Hd' & Hr' & Hrd).
      rewrite length_app in Hl. cbn [length] in *. lia.
Qed.

Lemma moves_loop_counts (t : Trainer) (policy : Policy) (moves : list (Z * Z)) :
  forall st outcome st',
    moves_loop t policy moves st = Ok (outcome, st') ->
    exists steps : nat,
      moves_made st' = moves_made st + Z.of_nat steps /\
      (steps <= length moves)%nat /\
      length (enemy_positions st') = length (enemy_positions st) /\
      (count_distance (fitness st) <= count_distance (fitness st')
       <= count_distance (fitness st)
          + steps * length (enemy_positions st))%nat /\
      (count_move_reward (fitness st) <= count_move_reward (fitness st'))%nat /\
      (count_move_reward (fitness st') - count_move_reward (fitness st)
       <= count_distance (fitness st') - count_distance (fitness st))%nat.
Proof.
  induction moves as [| [px py] rest IH]; intros st outcome st' H;
    cbn [moves_loop] in H.
  - injection H as <- <-. exists 0%nat. cbn [length]. lia.
  - destruct (is_escape t (px, py)).
    + injection H as <- <-. exists 1%nat.
      cbn [moves_made enemy_positions fitness length]. lia.
    + destruct (enemies_loop _ _ _ _ _ _ _ _) as [[[es h] f] |] eqn:Hloop;
        [| discriminate].
      cbn [bind] in H.
      destruct (enemies_loop_counts _ _ _ _ _ _ _ _ _ _ _ Hloop)
        as (Hl & Hd & Hr & Hrd).
      cbn [length] in Hl.
      destruct (h <=? 0).
      * injection H as <- <-. exists 1%nat.
        cbn [moves_made enemy_positions fitness length]. lia.
      * destruct (IH _ _ _ H) as (steps & Hm & Hs & Hl' & Hd' & Hr' & Hrd').
        cbn [moves_made enemy_positions fitness] in *.
        exists (S steps). cbn [length].
        split; [lia |]. split; [lia |]. split; [lia |].
        rewrite Hl in Hd'. split; [| split]; nia.
Qed.

(** X12.  The work and the log of one trajectory are bounded.  Whenever
    the simulation returns, the moves made are at most the length of the
    trajectory; the log grows by one distance penalty per enemy action,
    hence by at most [moves_made] times the number of enemies; and it
    holds at most as many move rewards as distance penalties. *)
Theorem episode_log_budget :
  forall (t : Trainer) (policy : Policy) (moves : list Pos) (fit : Fitness)
         (outcome : Outcome) (st : EpisodeState),
    play_trajectory t policy moves fit = Ok (outcome, st) ->
    exists steps : nat,
      moves_made st = Z.of_nat steps /\
      (steps <= length moves)%nat /\
      (count_distance (fitness st) - count_distance fit
       <= steps * length (enemy_start_positions t))%nat /\
      (count_move_reward (fitness st) - count_move_reward fit
       <= count_distance (fitness st) - count_distance fit)%nat.
Proof.
  intros t policy moves fit outcome st. unfold play_trajectory.
  destruct (moves_loop _ _ _ _) as [[o st1] |] eqn:Hloop; [| discriminate].
  cbn [bind]. intros H. injection H as <- <-.
  destruct (moves_loop_counts _ _ _ _ _ _ Hloop)
    as (steps & Hm & Hs & _ & Hd & Hr & Hrd).
  cbn [moves_made enemy_positions fitness] in *.
  exists steps. split; [lia |]. split; [exact Hs |].
  rewrite count_distance_app, count_move_reward_app.
  unfold terminal_term.
  destruct (player_health st1 >? 0); cbn; lia.
Qed.

Lemma episode_log_budget_witness :
  exists steps : nat, 2 = Z.of_nat steps /\ (steps <= 3)%nat.
Proof.
  destruct (episode_log_budget (trainer_of level_open) (constant_policy 6)
              [(1, 0); (1, 0); (1, 0)] [] Defeated
              (mkEpisode 0 [(1, 1)] 2
                 [DistancePenalty 1; DistancePenalty 1; TerminalAdd 9704]))
    as (steps & Hm & Hs & _).
  - vm_compute. reflexivity.
  - exists steps. split; [exact Hm | exact Hs].
Defined.

Lemma enemy_turn_prepend (t : Trainer) (policy : Policy) (px py : Z)
    (done : list (Z * Z)) (enemy : Z * Z) (rest : list (Z * Z)) (h : Z)
    (fit g : list FitnessTerm) :
  enemy_turn t policy px py done enemy rest h (fit ++ g)
  = prepend_log fit (enemy_turn t policy px py done enemy rest h g).
Proof.
  unfold enemy_turn. destruct enemy as [ex ey].
  destruct (network_inputs _ _ _ _ _ _) as [inputs |]; [| reflexivity].
  cbn [bind]. destruct (policy inputs) as [output |]; [| reflexivity].
  cbn [bind]. destruct (EnemyAction_of_value _) as [action |]; [| reflexivity].
  cbn [bind]. destruct (apply_action _ _ _ _ _ _ _) as [[m h1] |];
    [| reflexivity].
  cbn [bind prepend_log]. destruct (pos_neqb (ex, ey) m);
    rewrite <- ?app_assoc; reflexivity.
Qed.

Lemma enemies_loop_prepend (t : Trainer) (policy : Policy) (px py : Z)
    (todo : list (Z * Z)) :
  forall done h fit g,
    enemies_loop t policy px py done todo h (fit ++ g)
    = prepend_log fit (enemies_loop t policy px py done todo h g).
Proof.
  induction todo as [| enemy rest IH]; intros done h fit g;
    cbn [enemies_loop].
  - reflexivity.
  - rewrite enemy_turn_prepend.
    destruct (enemy_turn t policy px py done enemy rest h g)
      as [[[m h1] f1] |]; [| reflexivity].
    cbn [prepend_log bind]. destruct (h1 <=? 0); [reflexivity | apply IH].
Qed.

Lemma moves_loop_prepend (t : Trainer) (policy : Policy) (moves : list (Z * Z)) :
  forall h es made fit g,
    moves_loop t policy moves (mkEpisode h es made (fit ++ g))
    = prepend_episode fit (moves_loop t policy moves (mkEpisode h es made g)).
Proof.
  induction moves as [| [px py] rest IH]; intros h es made fit g;
    cbn [moves_loop].
  - reflexivity.
  - destruct (is_escape t (px, py)); [reflexivity |].
    cbn [enemy_positions player_health fitness moves_made].
    rewrite enemies_loop_prepend.
    destruct (enemies_loop t policy px py [] es h g) as [[[es1 h1] f1] |];
      [| reflexivity].
    cbn [prepend_log bind]. destruct (h1 <=? 0); [reflexivity | apply IH].
Qed.

Lemma play_trajectory_prepend (t : Trainer) (policy : Policy)
    (moves : list (Z * Z)) (fit : list FitnessTerm) :
  play_trajectory t policy moves fit
  = prepend_episode fit (play_trajectory t policy moves []).
Proof.
  unfold play_trajectory.
  rewrite <- (app_nil_r fit) at 1. rewrite moves_loop_prepend.
  destruct (moves_loop t policy moves _) as [[o st] |]; [| reflexivity].
  cbn [prepend_episode bind player_health enemy_positions moves_made fitness].
  rewrite <- app_assoc. reflexivity.
Qed.

Lemma play_game_prepend (t : Trainer) (policy : Policy)
    (player_moves : list (list (Z * Z))) :
  forall fit g,
    play_game_no_display t policy player_moves (fit ++ g)
    = prepend_fitness fit (play_game_no_display t policy player_moves g).
Proof.
  induction player_moves as [| moves rest IH]; intros fit g;
    cbn [play_game_no_display].
  - reflexivity.
  - rewrite (play_trajectory_prepend t policy moves (fit ++ g)).
    rewrite (play_trajectory_prepend t policy moves g).
    destruct (play_trajectory t policy moves []) as [[o st] |]; [| reflexivity].
    cbn [prepend_episode bind fitness]. rewrite <- app_assoc. apply IH.
Qed.

(** X13.  Fitness is accumulated and never read: what a trajectory adds
    to the log, its outcome and its final state do not depend on the log
    so far, and neither do the errors.  Hence a batch started on a log
    gives that log followed by what the batch gives on an empty one, and
    a batch split in two can be played part after part. *)
Theorem fitness_is_additive :
  forall (t : Trainer) (policy : Policy),
    (forall moves fit,
       play_trajectory t policy moves fit
       = prepend_episode fit (play_trajectory t policy moves [])) /\
    (forall player_moves fit,
       play_game_no_display t policy player_moves fit
       = prepend_fitness fit (eval_genomes_no_display t policy player_moves)) /\
    (forall first second fit,
       play_game_no_display t policy (first ++ second) fit
       = (f <- play_game_no_display t policy first fit ;;
          play_game_no_display t policy second f)).
Proof.
  intros t policy. split; [| split].
  - apply play_trajectory_prepend.
  - intros player_moves fit. unfold eval_genomes_no_display.
    rewrite <- (app_nil_r fit) at 1. apply play_game_prepend.
  - induction first as [| moves rest IH]; intros second fit;
      cbn [app play_game_no_display].
    + reflexivity.
    + destruct (play_trajectory t policy moves fit) as [[o st] |];
        [| reflexivity].
      cbn [bind]. apply IH.
Qed.

(** ** Edge cases of the episode *)

Lemma moves_loop_no_enemies (t : Trainer) (policy : Policy)
    (moves : list (Z * Z)) :
  forall st,
    enemy_positions st = [] -> 0 < player_health st ->
    exists outcome (k : nat),
      moves_loop t policy moves st
      = Ok (outcome,
            mkEpisode (player_health st) [] (moves_made st + Z.of_nat k)
              (fitness st)) /\
      (k <= length moves)%nat /\
      (outcome = Escaped \/ (outcome = MoveLimit /\ k = length moves)).
Proof.
  induction moves as [| [px py] rest IH]; intros st Hnone Hpos;
    cbn [moves_loop].
  - exists MoveLimit, 0%nat. destruct st as [h es made f].
    cbn [enemy_positions player_health moves_made fitness] in *. subst es.
    rewrite Z.add_0_r. split; [reflexivity |]. split; [cbn; lia |].
    right. split; reflexivity.
  - destruct (is_escape t (px, py)).
    + exists Escaped, 1%nat. rewrite Hnone.
      split; [reflexivity |]. split; [cbn [length]; lia | left; reflexivity].
    + rewrite Hnone. cbn [enemies_loop bind].
      destruct (Z.leb_spec (player_health st) 0); [lia |].
      destruct (IH (mkEpisode (player_health st) [] (moves_made st + 1)
                      (fitness st)) eq_refl Hpos)
        as (outcome & k & -> & Hk & Hout).
      cbn [player_health moves_made fitness].
      exists outcome, (S k). split; [do 3 f_equal; lia |].
      split; [cbn [length]; lia |].
      destruct Hout as [-> | [-> ->]]; [left | right]; auto.
Qed.

(** X14.  On a level without enemy cells the policy is never consulted:
    for every policy, even one that raises, every trajectory is simulated
    to the end with full health, either Escaped or, when it holds no
    escape coordinate, MoveLimit after all its moves, and it adds to the
    log the single term that subtracts (MAX_PLAYER_MOVES - moves_made)^2. *)
Theorem episode_without_enemies :
  forall (t : Trainer) (policy : Policy) (moves : list Pos) (fit : Fitness),
    enemy_start_positions t = [] ->
    exists outcome st,
      play_trajectory t policy moves fit = Ok (outcome, st) /\
      player_health st = PLAYER_STARTING_HEALTH /\
      enemy_positions st = [] /\
      0 <= moves_made st <= len moves /\
      fitness st
      = fit ++ [TerminalSub ((MAX_PLAYER_MOVES - moves_made st) ^ 2)] /\
      (outcome = Escaped \/
       (outcome = MoveLimit /\ moves_made st = len moves)).
Proof.
  intros t policy moves fit Hnone. unfold play_trajectory.
  destruct (moves_loop_no_enemies t policy moves
              (mkEpisode PLAYER_STARTING_HEALTH (enemy_start_positions t) 0 fit)
              Hnone eq_refl) as (outcome & k & -> & Hk & Hout).
  cbn [bind player_health enemy_positions moves_made fitness].
  eexists outcome, _. split; [reflexivity |].
  cbn [player_health enemy_positions moves_made fitness]. unfold len.
  split; [reflexivity |]. split; [reflexivity |]. split; [lia |].
  split.
  - unfold terminal_term. change (PLAYER_STARTING_HEALTH >? 0) with true.
    cbv iota. rewrite Z.sub_diag, Z.add_0_r. reflexivity.
  - destruct Hout as [-> | [-> ->]]; [left; reflexivity |].
    right. split; [reflexivity | lia].
Qed.

Lemma episode_without_enemies_witness :
  exists outcome st,
    play_trajectory (trainer_of level_1x1) (raising_policy RuntimeError)
      [(0, 0); (0, 0)] [] = Ok (outcome, st) /\
    fitness st = [TerminalSub ((MAX_PLAYER_MOVES - moves_made st) ^ 2)].
Proof.
  destruct (episode_without_enemies (trainer_of level_1x1)
              (raising_policy RuntimeError) [(0, 0); (0, 0)] [] eq_refl)
    as (outcome & st & Hplay & _ & _ & _ & Hfit & _).
  exists outcome, st. split; [exact Hplay | exact Hfit].
Defined.

Lemma select_decision_none (output : list Q) :
  (forall v, In v output -> (v <= inject_Z (-1))%Q) ->
  select_decision output = -1.
Proof.
  intros Hall. unfold select_decision, enumerate.
  destruct (select_loop_spec output 0 (inject_Z (-1)) (-1))
    as [[Hr _] | (k & Hk & _ & Hgt & _)]; [exact Hr |].
  exfalso. eapply Qlt_not_le; [exact Hgt |]. apply Hall, nth_In, Hk.
Qed.

Lemma first_turn_fails (t : Trainer) (policy : Policy) (e : PyError)
    (p : Z * Z) (moves : list (Z * Z)) (rest : list (list (Z * Z)))
    (fit : list FitnessTerm) :
  enemy_start_positions t <> [] ->
  game_grid_width t <> 0 -> game_grid_height t <> 0 ->
  is_escape t p = false ->
  (forall inputs,
     (output <- policy inputs ;;
      EnemyAction_of_value (select_decision output)) = Err e) ->
  play_game_no_display t policy ((p :: moves) :: rest) fit = Err e.
Proof.
  intros Hen HW HH Hesc Hfail.
  cbn [play_game_no_display]. unfold play_trajectory.
  destruct p as [px py]. cbn [moves_loop]. rewrite Hesc.
  cbn [enemy_positions player_health fitness].
  destruct (enemy_start_positions t) as [| [ex ey] others]; [contradiction |].
  cbn [enemies_loop]. unfold enemy_turn.
  destruct (network_inputs_total t (len (@nil (Z * Z))) ([] ++ (ex, ey) :: others)
              px py PLAYER_STARTING_HEALTH HW HH) as [inputs ->];
    [discriminate |].
  cbn [bind]. specialize (Hfail inputs).
  destruct (policy inputs) as [output |]; cbn [bind] in *.
  - rewrite Hfail. reflexivity.
  - injection Hfail as ->. reflexivity.
Qed.

(** X15.  No answer of the policy is tolerated.  On a level with at least
    one enemy and non-zero width and height, for a batch whose first
    trajectory does not start at the escape coordinate, with that first
    position and the enemy spawns within [FLOAT_SAFE], so that the
    observation is built and the policy is asked: a policy that raises
    makes the whole batch raise the same error, and a policy whose outputs
    never exceed -1 makes it raise [ValueError]; in both cases the first
    enemy turn fails, no fitness is returned and the remaining
    trajectories are not played. *)
Theorem bad_policy_aborts_batch :
  forall (t : Trainer) (policy : Policy) (p : Pos) (moves : list Pos)
         (rest : list (list Pos)) (fit : Fitness),
    enemy_start_positions t <> [] ->
    game_grid_width t <> 0 -> game_grid_height t <> 0 ->
    float_safe_pos p ->
    Forall float_safe_pos (enemy_start_positions t) ->
    is_escape t p = false ->
    (forall e,
       (forall inputs, policy inputs = Err e) ->
       play_game_no_display t policy ((p :: moves) :: rest) fit = Err e) /\
    ((forall inputs, exists output,
        policy inputs = Ok output /\
        forall v, In v output -> (v <= inject_Z (-1))%Q) ->
     play_game_no_display t policy ((p :: moves) :: rest) fit
     = Err ValueError).
Proof.
  intros t policy p moves rest fit Hen HW HH _ _ Hesc. split.
  - intros e Hraise. apply first_turn_fails; try assumption.
    intros inputs. rewrite Hraise. reflexivity.
  - intros Hlow. apply first_turn_fails; try assumption.
    intros inputs. destruct (Hlow inputs) as (output & -> & Hall).
    cbn [bind]. rewrite (select_decision_none output Hall). reflexivity.
Qed.

Lemma bad_policy_aborts_batch_witness :
  play_game_no_display (trainer_of level_open) (raising_policy RuntimeError)
    [[(1, 0)]; [(2, 0)]] [] = Err RuntimeError.
Proof.
  refine (proj1 (bad_policy_aborts_batch (trainer_of level_open)
                   (raising_policy RuntimeError) (1, 0) [] [[(2, 0)]] []
                   _ _ _ _ _ _) RuntimeError _).
  - discriminate.
  - discriminate.
  - discriminate.
  - split; vm_compute; reflexivity.
  - constructor; [split; vm_compute; reflexivity | constructor].
  - reflexivity.
  - intros inputs. reflexivity.
Defined.

(** ** More on decision selection *)

Lemma EnemyAction_of_value_inv (z : Z) (action : EnemyAction) :
  EnemyAction_of_value z = Ok action -> z = EnemyAction_value action.
Proof.
  unfold EnemyAction_of_value.
  repeat (match goal with
          | |- context [?a =? ?b] => destruct (Z.eqb_spec a b) as [-> | ?]
          end;
          [intros H; injection H as <-; reflexivity |]).
  discriminate.
Qed.

(** X16.  The [EnemyAction] enum and its values: looking a member's value
    up gives the member back, a successful lookup of [z] gives the member
    whose value is [z], and the lookup raises [ValueError] exactly for the
    integers outside 0..6. *)
Theorem EnemyAction_round_trip :
  (forall action,
     EnemyAction_of_value (EnemyAction_value action) = Ok action) /\
  (forall z action,
     EnemyAction_of_value z = Ok action -> z = EnemyAction_value action) /\
  (forall z, EnemyAction_of_value z = Err ValueError <-> z < 0 \/ 6 < z).
Proof.
  split; [| split].
  - intros []; reflexivity.
  - apply EnemyAction_of_value_inv.
  - intros z. split.
    + intros Herr.
      destruct (Z_lt_le_dec z 0) as [Hneg | Hnn]; [left; exact Hneg |].
      destruct (Z_lt_le_dec 6 z) as [Hbig | Hsmall]; [right; exact Hbig |].
      destruct (EnemyAction_of_value_total z (conj Hnn Hsmall)) as [a Ha].
      rewrite Ha in Herr. discriminate Herr.
    + intros Hout. destruct (EnemyAction_of_value z) as [a | e] eqn:Hz.
      * apply EnemyAction_of_value_inv in Hz. destruct a; cbn in Hz; lia.
      * unfold EnemyAction_of_value in Hz.
        repeat (match type of Hz with
                | context [?a =? ?b] => destruct (a =? b)
                end; [discriminate Hz |]).
        symmetry. exact Hz.
Qed.

Lemma EnemyAction_round_trip_witness :
  EnemyAction_of_value 7 = Err ValueError.
Proof.
  apply (proj2 (proj2 EnemyAction_round_trip) 7). right. lia.
Defined.

(** X17.  The selected index is -1 or an index into the output vector,
    and it is -1 exactly when no output exceeds -1.  For a network with at
    most seven outputs the selection therefore names an action exactly
    when some output exceeds -1; with more outputs an index beyond 6 can
    be selected, which names no action. *)
Theorem select_decision_range :
  forall output : list Q,
    -1 <= select_decision output < len output /\
    (select_decision output = -1 <->
     forall v, In v output -> (v <= inject_Z (-1))%Q) /\
    ((length output <= 7)%nat ->
     ((exists action,
         EnemyAction_of_value (select_decision output) = Ok action) <->
      exists v, In v output /\ (inject_Z (-1) < v)%Q)).
Proof.
  intros output. unfold select_decision, enumerate, len.
  destruct (select_loop_spec output 0 (inject_Z (-1)) (-1))
    as [[Hr Hall] | (k & Hk & Hr & Hgt & Hmax & Hfirst)]; rewrite Hr.
  - split; [lia |]. split; [tauto |]. intros _. split.
    + intros [action Ha]. discriminate Ha.
    + intros (v & Hv & Hlt). exfalso.
      eapply Qlt_not_le; [exact Hlt | apply Hall, Hv].
  - split; [lia |]. split.
    + split; [lia |]. intros Hall. exfalso.
      eapply Qlt_not_le; [exact Hgt |]. apply Hall, nth_In, Hk.
    + intros Hlen. split.
      * intros _. exists (nth k output 0%Q). split; [apply nth_In, Hk | exact Hgt].
      * intros _. apply EnemyAction_of_value_total. lia.
Qed.

Lemma select_decision_range_witness :
  exists action,
    EnemyAction_of_value
      (select_decision [inject_Z (-2); inject_Z 0; inject_Z (-1)])
    = Ok action.
Proof.
  apply (proj2 (proj2 (select_decision_range
                         [inject_Z (-2); inject_Z 0; inject_Z (-1)]))).
  - cbn. lia.
  - exists (inject_Z 0). split; [cbn; tauto | reflexivity].
Defined.

Example select_decision_eighth_output :
  EnemyAction_of_value
    (select_decision (map inject_Z [0; 0; 0; 0; 0; 0; 0; 1]))
  = Err ValueError.
Proof. reflexivity. Qed.

(** ** Trajectory generation *)

Lemma random_choice_in {A : Type} (draw : nat) (l : list A) :
  l <> [] -> exists a, random_choice draw l = Ok a /\ In a l.
Proof.
  intros Hne. destruct l as [| a0 l0]; [contradiction |].
  unfold random_choice.
  destruct (py_index_in_range (a0 :: l0)
              (Z.of_nat (draw mod length (a0 :: l0)))) as (a & Ha & Hnth).
  { unfold len. split; [lia |]. apply Nat2Z.inj_lt.
    apply Nat.mod_upper_bound. discriminate. }
  exists a. split; [exact Ha |]. eapply nth_error_In. exact Hnth.
Qed.

Lemma in_bounds_not_escape (t : Trainer) (p : Z * Z) :
  in_bounds t p -> is_escape t p = false.
Proof.
  intros [_ Hy]. unfold is_escape.
  destruct (Z.eqb_spec (snd p) (game_grid_height t)); [lia |].
  apply andb_false_r.
Qed.

Lemma random_walk_spec (t : Trainer) (rand : nat -> nat) (fuel : nat) :
  well_formed t ->
  forall n x y current,
    in_bounds t (x, y) -> ~ is_wall t (x, y) ->
    exists walk n',
      random_walk t rand fuel n x y current = Ok (current ++ walk, n') /\
      (length walk <= fuel)%nat /\
      (fuel <> 0%nat -> walk <> []) /\
      (length walk = fuel \/ ends_in_escape t walk) /\
      walk_ok t (x, y) walk.
Proof.
  intros Hwf. induction fuel as [| fuel IH]; intros n x y current Hin Hopen;
    cbn [random_walk].
  - exists [], n. rewrite app_nil_r. split; [reflexivity |].
    split; [cbn; lia |]. split; [intros H; contradiction |].
    split; [left; reflexivity | exact I].
  - destruct (get_valid_moves_spec t x y Hwf Hin)
      as (moves & -> & Hhd & Hiff).
    cbn [bind].
    destruct (random_choice_in (rand n) moves) as (p & -> & Hp).
    { intros ->. discriminate Hhd. }
    cbn [bind]. apply Hiff in Hp.
    assert (Hcases : (manhattan p (x, y) <= 1 /\ in_bounds t p /\ ~ is_wall t p)
                     \/ (manhattan p (x, y) <= 1 /\ is_escape t p = true)).
    { destruct Hp as [-> | [(Hm & Hb & Hw) | [Hc ->]]].
      - left. split; [unfold manhattan; lia | split; assumption].
      - left. split; [lia | split; assumption].
      - right. split; [unfold manhattan; cbn [fst snd]; lia |].
        unfold at_corner in Hc. apply andb_true_iff in Hc.
        destruct Hc as [Hx Hy]. apply Z.eqb_eq in Hx, Hy.
        unfold is_escape. cbn [fst snd].
        rewrite (proj2 (Z.eqb_eq _ _) Hx).
        apply Z.eqb_eq. lia. }
    destruct Hcases as [(Hm & Hb & Hw) | (Hm & Hesc)].
    + rewrite (in_bounds_not_escape t p Hb).
      destruct p as [qx qy]. cbn [fst snd].
      destruct (IH (S n) qx qy (current ++ [(qx, qy)]) Hb Hw)
        as (walk & n' & -> & Hlen & _ & Hend & Hok).
      exists ((qx, qy) :: walk), n'. rewrite <- app_assoc.
      split; [reflexivity |]. split; [cbn [length]; lia |].
      split; [discriminate |]. split.
      * destruct Hend as [Hfull | (init & q & -> & Hq)].
        -- left. cbn [length]. lia.
        -- right. exists ((qx, qy) :: init), q. split; [reflexivity | exact Hq].
      * cbn [walk_ok]. split; [exact Hm |]. left. split; [exact Hb |].
        split; assumption.
    + rewrite Hesc. exists [p], (S n). split; [reflexivity |].
      split; [cbn [length]; lia |]. split; [discriminate |]. split.
      * right. exists [], p. split; [reflexivity | exact Hesc].
      * cbn [walk_ok]. split; [exact Hm |]. right. split; [exact Hesc | reflexivity].
Qed.

Lemma generate_games_spec (t : Trainer) (rand : nat -> nat) (start : Z * Z)
    (games : nat) :
  well_formed t -> in_bounds t start -> ~ is_wall t start ->
  forall n moves,
    exists new,
      generate_games t rand games n start moves = Ok (moves ++ new) /\
      length new = games /\
      Forall (generated_trajectory t start) new.
Proof.
  intros Hwf Hin Hopen. destruct start as [sx sy].
  induction games as [| games IH]; intros n moves; cbn [generate_games].
  - exists []. rewrite app_nil_r. split; [reflexivity |].
    split; [reflexivity | constructor].
  - cbn [fst snd].
    destruct (random_walk_spec t rand (Z.to_nat MAX_PLAYER_MOVES) Hwf n sx sy []
                Hin Hopen) as (walk & n' & -> & Hlen & Hne & Hend & Hok).
    cbn [bind app].
    destruct (IH n' (moves ++ [walk])) as (new & -> & Hcount & Hall).
    exists (walk :: new). rewrite <- app_assoc.
    split; [reflexivity |]. split; [cbn [length]; lia |].
    constructor; [| exact Hall].
    split; [| split; assumption].
    split; [| exact Hlen].
    destruct walk; [exfalso; apply Hne; [discriminate | reflexivity] |].
    cbn [length]. lia.
Qed.

Lemma walk_ok_on_level (t : Trainer) (walk : list (Z * Z)) :
  forall from, walk_ok t from walk -> trajectory_on_level t walk.
Proof.
  induction walk as [| p rest IH]; intros from H; [constructor |].
  cbn [walk_ok] in H. destruct H as [_ [(Hb & _ & Hrest) | (Hesc & ->)]].
  - constructor; [left; exact Hb | eapply IH; exact Hrest].
  - constructor; [right; exact Hesc | constructor].
Qed.

Lemma walk_ok_positions (t : Trainer) (walk : list (Z * Z)) :
  forall from,
    walk_ok t from walk ->
    (forall i p, nth_error walk i = Some p ->
       (in_bounds t p /\ ~ is_wall t p /\ is_escape t p = false) \/
       (is_escape t p = true /\ S i = length walk)) /\
    (forall i a b, nth_error (from :: walk) i = Some a ->
                   nth_error walk i = Some b -> manhattan b a <= 1).
Proof.
  induction walk as [| p rest IH]; intros from H.
  - split; intros [| i]; discriminate.
  - cbn [walk_ok] in H. destruct H as [Hm [(Hb & Hw & Hrest) | (Hesc & ->)]].
    + destruct (IH p Hrest) as [Hpos Hstep]. split.
      * intros [| i] q Hq; cbn [nth_error] in Hq.
        -- injection Hq as <-. left. split; [exact Hb |].
           split; [exact Hw | apply in_bounds_not_escape, Hb].
        -- destruct (Hpos i q Hq) as [Hl | [He Hi]]; [left; exact Hl |].
           right. split; [exact He | cbn [length]; lia].
      * intros [| i] a b Ha Hb'; cbn [nth_error] in Ha, Hb'.
        -- injection Ha as <-. injection Hb' as <-. exact Hm.
        -- eapply Hstep; eassumption.
    + split.
      * intros [| i] q Hq; cbn [nth_error] in Hq.
        -- injection Hq as <-. right. split; [exact Hesc | reflexivity].
        -- destruct i; discriminate Hq.
      * intros [| i] a b Ha Hb'; cbn [nth_error] in Ha, Hb'.
        -- injection Ha as <-. injection Hb' as <-. exact Hm.
        -- destruct i; discriminate Hb'.
Qed.

Lemma generate_player_moves_spec (grid : Grid) (t : Trainer)
    (rand : nat -> nat) :
  Trainer_init grid = Ok t -> rectangular grid = true ->
  (has_player_spawn grid = false ->
   generate_player_moves t rand = AttributeError) /\
  (has_player_spawn grid = true ->
   exists start games,
     player_start t = Some start /\
     generate_player_moves t rand = Returned games /\
     length games = Z.to_nat GAMES_PER_GENERATION /\
     Forall (generated_trajectory t start) games).
Proof.
  intros Hinit Hrect.
  destruct (trainer_init_loaded grid t Hinit Hrect) as (Hwf & _ & Hplayer).
  assert (Hnone : player_start t = None <-> has_player_spawn grid = false).
  { destruct grid as [| row0 rest]; [discriminate |].
    rewrite (trainer_init_fields (row0 :: rest) row0 rest eq_refl) in Hinit.
    injection Hinit as <-. cbn [player_start].
    apply find_start_positions_player. }
  unfold generate_player_moves. split.
  - intros Hno. apply Hnone in Hno. rewrite Hno. reflexivity.
  - intros Hyes. destruct (player_start t) as [start |] eqn:Hstart.
    + destruct (Hplayer start eq_refl) as [Hin Hopen].
      destruct (generate_games_spec t rand start
                  (Z.to_nat GAMES_PER_GENERATION) Hwf Hin Hopen 0%nat [])
        as (games & -> & Hcount & Hall).
      exists start, games. cbn [app]. repeat split; assumption.
    + rewrite (proj1 Hnone eq_refl) in Hyes. discriminate Hyes.
Qed.

(** X18.  Trajectory generation on a loaded rectangular level.  Without a
    player cell it raises [AttributeError].  With one, whatever the random
    draws, it returns GAMES_PER_GENERATION (10) trajectories; each holds
    between 1 and MAX_PLAYER_MOVES (100) positions, all cells of the level
    or the escape coordinate, and a trajectory shorter than 100 positions
    ends at the escape coordinate. *)
Theorem generate_player_moves_shape :
  forall (grid : Grid) (t : Trainer) (rand : nat -> nat),
    Trainer_init grid = Ok t -> rectangular grid = true ->
    (has_player_spawn grid = false ->
     generate_player_moves t rand = AttributeError) /\
    (has_player_spawn grid = true ->
     exists games,
       generate_player_moves t rand = Returned games /\
       length games = 10%nat /\
       Forall (fun walk =>
                 (1 <= length walk <= 100)%nat /\
                 ((length walk < 100)%nat -> ends_in_escape t walk) /\
                 trajectory_on_level t walk) games).
Proof.
  intros grid t rand Hinit Hrect.
  destruct (generate_player_moves_spec grid t rand Hinit Hrect) as [Hno Hyes].
  split; [exact Hno |]. intros Hspawn.
  destruct (Hyes Hspawn) as (start & games & _ & Hgen & Hcount & Hall).
  exists games. split; [exact Hgen |]. split; [exact Hcount |].
  eapply Forall_impl; [| exact Hall].
  intros walk (Hlen & Hend & Hok).
  change (Z.to_nat MAX_PLAYER_MOVES) with 100%nat in *.
  split; [exact Hlen |]. split.
  - intros Hshort. destruct Hend as [Hfull | Hend]; [lia | exact Hend].
  - eapply walk_ok_on_level. exact Hok.
Qed.

Lemma generate_player_moves_shape_witness :
  exists games,
    generate_player_moves (trainer_of level_blocked) (fun n => n)
    = Returned games /\ length games = 10%nat.
Proof.
  destruct (proj2 (generate_player_moves_shape level_blocked
                     (trainer_of level_blocked) (fun n => n)
                     eq_refl eq_refl) eq_refl)
    as (games & Hgen & Hcount & _).
  exists games. split; assumption.
Defined.

(** X19.  The random walk behind each generated trajectory, on a loaded
    rectangular level with player start [start]: every position is a cell
    of the level that is no wall, except that the last one may be the
    escape coordinate, which occurs nowhere else; and each position is the
    one before it (the first: [start]) or one orthogonal step from it. *)
Theorem generate_player_moves_walks :
  forall (grid : Grid) (t : Trainer) (rand : nat -> nat) (start : Pos)
         (games : list (list Pos)),
    Trainer_init grid = Ok t -> rectangular grid = true ->
    player_start t = Some start ->
    generate_player_moves t rand = Returned games ->
    Forall (fun walk =>
              (forall i p, nth_error walk i = Some p ->
                 (in_bounds t p /\ ~ is_wall t p /\ is_escape t p = false) \/
                 (is_escape t p = true /\ S i = length walk)) /\
              (forall i a b, nth_error (start :: walk) i = Some a ->
                             nth_error walk i = Some b ->
                             manhattan b a <= 1)) games.
Proof.
  intros grid t rand start games Hinit Hrect Hstart Hgen.
  destruct (generate_player_moves_spec grid t rand Hinit Hrect) as [Hno Hyes].
  destruct (has_player_spawn grid) eqn:Hspawn.
  - destruct (Hyes eq_refl) as (start' & games' & Hstart' & Hgen' & _ & Hall).
    rewrite Hstart in Hstart'. injection Hstart' as <-.
    rewrite Hgen in Hgen'. injection Hgen' as <-.
    eapply Forall_impl; [| exact Hall].
    intros walk (_ & _ & Hok). eapply walk_ok_positions. exact Hok.
  - rewrite (Hno eq_refl) in Hgen. discriminate Hgen.
Qed.

Lemma generate_player_moves_walks_witness :
  Forall (fun walk =>
            forall i a b, nth_error ((0, 0) :: walk) i = Some a ->
                          nth_error walk i = Some b ->
                          manhattan b a <= 1)
    (repeat [(0, 1)] 10).
Proof.
  eapply Forall_impl;
    [| apply (generate_player_moves_walks level_1x1 (trainer_of level_1x1)
                (fun _ => 1%nat) (0, 0) (repeat [(0, 1)] 10))].
  - intros walk [_ H]. exact H.
  - reflexivity.
  - reflexivity.
  - reflexivity.
  - vm_compute. reflexivity.
Defined.

Lemma play_trajectory_total (t : Trainer) (policy : Policy)
    (moves : list (Z * Z)) (fit : list FitnessTerm) :
  well_formed t -> policy_decides policy ->
  Forall (in_bounds t) (enemy_start_positions t) ->
  trajectory_on_level t moves ->
  exists outcome st, play_trajectory t policy moves fit = Ok (outcome, st).
Proof.
  intros Hwf Hpol Hstart Hmoves. unfold play_trajectory.
  destruct (moves_loop_total t policy moves Hwf Hpol Hmoves
              (mkEpisode PLAYER_STARTING_HEALTH (enemy_start_positions t) 0 fit))
    as (outcome & st & k & -> & _); [reflexivity | exact Hstart |].
  cbn [bind]. eexists. eexists. reflexivity.
Qed.

Lemma play_game_total (t : Trainer) (policy : Policy)
    (player_moves : list (list (Z * Z))) :
  well_formed t -> policy_decides policy ->
  Forall (in_bounds t) (enemy_start_positions t) ->
  Forall (trajectory_on_level t) player_moves ->
  forall fit, exists fit',
    play_game_no_display t policy player_moves fit = Ok fit'.
Proof.
  intros Hwf Hpol Hstart Hall.
  induction Hall as [| moves rest Hmoves _ IH]; intros fit;
    cbn [play_game_no_display].
  - exists fit. reflexivity.
  - destruct (play_trajectory_total t policy moves fit Hwf Hpol Hstart Hmoves)
      as (outcome & st & ->).
    cbn [bind]. apply IH.
Qed.

(** X20.  Generation and evaluation fit together.  On a loaded rectangular
    level with a player cell, for every sequence of random draws and every
    policy whose selected index always names an action, the generated
    batch is evaluated to the end without an error, and the evaluation
    adds exactly one terminal term per generated trajectory, ten in all. *)
Theorem generated_batch_evaluates :
  forall (grid : Grid) (t : Trainer) (rand : nat -> nat) (policy : Policy)
         (fit : Fitness),
    Trainer_init grid = Ok t -> rectangular grid = true ->
    has_player_spawn grid = true -> policy_decides policy ->
    exists games fit',
      generate_player_moves t rand = Returned games /\
      play_game_no_display t policy games fit = Ok fit' /\
      count_terminal fit' = (count_terminal fit + 10)%nat.
Proof.
  intros grid t rand policy fit Hinit Hrect Hspawn Hpol.
  destruct (trainer_init_loaded grid t Hinit Hrect) as (Hwf & Hen & _).
  destruct (proj2 (generate_player_moves_spec grid t rand Hinit Hrect) Hspawn)
    as (start & games & _ & Hgen & Hcount & Hall).
  assert (Hlevel : Forall (trajectory_on_level t) games).
  { eapply Forall_impl; [| exact Hall].
    intros walk (_ & _ & Hok). eapply walk_ok_on_level. exact Hok. }
  destruct (play_game_total t policy games Hwf Hpol Hen Hlevel fit)
    as [fit' Hplay].
  exists games, fit'. split; [exact Hgen |]. split; [exact Hplay |].
  rewrite (play_game_count_terminal t policy games fit fit' Hplay), Hcount.
  reflexivity.
Qed.

Lemma generated_batch_evaluates_witness :
  exists games fit',
    generate_player_moves (trainer_of level_open) (fun n => n)
    = Returned games /\
    play_game_no_display (trainer_of level_open) (constant_policy 5) games []
    = Ok fit'.
Proof.
  destruct (generated_batch_evaluates level_open (trainer_of level_open)
              (fun n => n) (constant_policy 5) [] eq_refl eq_refl eq_refl)
    as (games & fit' & Hgen & Hplay & _).
  - intros inputs. eexists. split; [reflexivity |].
    vm_compute. split; discriminate.
  - exists games, fit'. split; assumption.
Defined.

(** ** The displayed game against the headless one *)

Lemma enemy_turn_display_eq (t : Trainer) (policy : Policy) (px py : Z)
    (done : list (Z * Z)) (enemy : Z * Z) (rest : list (Z * Z)) (h : Z)
    (fit : list FitnessTerm) :
  enemy_turn_display t policy px py done enemy rest h
  = drop_log (enemy_turn t policy px py done enemy rest h fit).
Proof.
  unfold enemy_turn_display, enemy_turn. destruct enemy as [ex ey].
  destruct (network_inputs _ _ _ _ _ _) as [inputs |]; [| reflexivity].
  cbn [bind]. destruct (policy inputs) as [output |]; [| reflexivity].
  cbn [bind]. destruct (EnemyAction_of_value _) as [action |]; [| reflexivity].
  cbn [bind]. destruct (apply_action _ _ _ _ _ _ _) as [[m h1] |]; reflexivity.
Qed.

Lemma enemies_loop_display_eq (t : Trainer) (policy : Policy) (px py : Z)
    (todo : list (Z * Z)) :
  forall done h fit,
    enemies_loop_display t policy px py done todo h
    = drop_log (enemies_loop t policy px py done todo h fit).
Proof.
  induction todo as [| enemy rest IH]; intros done h fit;
    cbn [enemies_loop_display enemies_loop].
  - reflexivity.
  - rewrite (enemy_turn_display_eq t policy px py done enemy rest h fit).
    destruct (enemy_turn t policy px py done enemy rest h fit)
      as [[[m h1] f1] |]; [| reflexivity].
    cbn [drop_log bind]. destruct (h1 <=? 0); [reflexivity | apply IH].
Qed.

Lemma moves_loop_display_eq (t : Trainer) (policy : Policy)
    (moves : list (Z * Z)) (kept : list FitnessTerm) :
  forall h es made fit,
    moves_loop_display t policy moves (mkEpisode h es made kept)
    = match moves_loop t policy moves (mkEpisode h es made fit) with
      | Ok (outcome, st) =>
          Ok (outcome,
              mkEpisode (player_health st) (enemy_positions st)
                (moves_made st) kept)
      | Err e => Err e
      end.
Proof.
  induction moves as [| [px py] rest IH]; intros h es made fit;
    cbn [moves_loop_display moves_loop].
  - reflexivity.
  - destruct (is_escape t (px, py)); [reflexivity |].
    cbn [enemy_positions player_health fitness moves_made].
    rewrite (enemies_loop_display_eq t policy px py es [] h fit).
    destruct (enemies_loop t policy px py [] es h fit) as [[[es1 h1] f1] |];
      [| reflexivity].
    cbn [drop_log bind]. destruct (h1 <=? 0); [reflexivity | apply IH].
Qed.

Lemma play_trajectory_display_eq (t : Trainer) (policy : Policy)
    (moves : list (Z * Z)) (fit : list FitnessTerm) :
  play_trajectory_display t policy moves fit
  = match play_trajectory t policy moves fit with
    | Ok (outcome, st) => Ok (outcome, drop_step_terms fit st)
    | Err e => Err e
    end.
Proof.
  unfold play_trajectory_display, play_trajectory.
  rewrite (moves_loop_display_eq t policy moves fit _ _ _ fit).
  destruct (moves_loop t policy moves _) as [[o st] |]; reflexivity.
Qed.

Lemma display_trajectories_prepend (t : Trainer) (policy : Policy)
    (player_moves : list (list (Z * Z))) :
  forall fit g,
    display_trajectories t policy player_moves (fit ++ g)
    = prepend_fitness fit (display_trajectories t policy player_moves g).
Proof.
  induction player_moves as [| moves rest IH]; intros fit g;
    cbn [display_trajectories].
  - reflexivity.
  - rewrite !play_trajectory_display_eq.
    rewrite (play_trajectory_prepend t policy moves (fit ++ g)).
    rewrite (play_trajectory_prepend t policy moves g).
    destruct (play_trajectory t policy moves []) as [[o st] |]; [| reflexivity].
    cbn [prepend_episode bind drop_step_terms fitness player_health moves_made].
    rewrite <- app_assoc. apply IH.
Qed.

Lemma filter_no_terminal (steps : list FitnessTerm) :
  no_terminal steps -> filter is_terminal steps = [].
Proof.
  induction 1 as [| term steps Hterm _ IH]; [reflexivity |].
  cbn [filter]. rewrite Hterm. exact IH.
Qed.

Lemma display_trajectories_eq (t : Trainer) (policy : Policy)
    (player_moves : list (list (Z * Z))) :
  display_trajectories t policy player_moves []
  = (f <- play_game_no_display t policy player_moves [] ;;
     Ok (filter is_terminal f)).
Proof.
  induction player_moves as [| moves rest IH];
    cbn [display_trajectories play_game_no_display].
  - reflexivity.
  - rewrite play_trajectory_display_eq.
    destruct (play_trajectory t policy moves []) as [[o st] |] eqn:Hplay;
      [| reflexivity].
    cbn [bind drop_step_terms fitness app].
    destruct (play_trajectory_fitness _ _ _ _ _ _ Hplay) as (steps & Hfit & Hs).
    cbn [app] in Hfit.
    rewrite <- (app_nil_r [terminal_term (player_health st) (moves_made st)]).
    rewrite display_trajectories_prepend, IH.
    rewrite <- (app_nil_r (fitness st)) at 1. rewrite play_game_prepend.
    destruct (play_game_no_display t policy rest []) as [f |]; [| reflexivity].
    cbn [prepend_fitness bind]. rewrite Hfit, !filter_app.
    rewrite (filter_no_terminal steps Hs). cbn [filter app].
    rewrite terminal_term_is_terminal. reflexivity.
Qed.

Lemma display_setup_refused (video : Z -> Z -> bool) (t : Trainer) :
  video 800 600 = false -> display_setup video t = Err RuntimeError.
Proof.
  intros Hv. unfold display_setup, Editor.set_mode. rewrite Hv. reflexivity.
Qed.

Lemma display_setup_zero (video : Z -> Z -> bool) (t : Trainer) :
  video 800 600 = true ->
  game_grid_width t = 0 \/ game_grid_height t = 0 ->
  display_setup video t = Err ZeroDivisionError.
Proof.
  intros Hv Hzero. unfold display_setup, Editor.set_mode. rewrite Hv.
  cbn [bind]. unfold Editor.py_floordiv.
  destruct (Z.eqb_spec (game_grid_width t) 0) as [| HW]; [reflexivity |].
  cbn [bind].
  destruct (Z.eqb_spec (game_grid_height t) 0) as [| HH]; [reflexivity |].
  lia.
Qed.

(** On a level with cells the window is set up, and the surface of the
    grid fits between its margins. *)
Lemma display_setup_ok (video : Z -> Z -> bool) (t : Trainer) :
  video 800 600 = true ->
  1 <= game_grid_width t -> 1 <= game_grid_height t ->
  exists cell_size,
    display_setup video t = Ok cell_size /\
    0 <= cell_size /\
    cell_size * game_grid_width t <= 700 /\
    cell_size * game_grid_height t <= 500.
Proof.
  intros Hv HW HH. unfold display_setup, Editor.set_mode. rewrite Hv.
  cbn [bind]. unfold Editor.py_floordiv.
  destruct (Z.eqb_spec (game_grid_width t) 0); [lia |].
  destruct (Z.eqb_spec (game_grid_height t) 0); [lia |].
  cbn [bind]. change (800 - 50 * 2) with 700. change (600 - 50 * 2) with 500.
  set (c := Z.min (700 / game_grid_width t) (500 / game_grid_height t)).
  assert (Ha : 0 <= 700 / game_grid_width t) by (apply Z.div_pos; lia).
  assert (Hb : 0 <= 500 / game_grid_height t) by (apply Z.div_pos; lia).
  assert (Ha' : game_grid_width t * (700 / game_grid_width t) <= 700)
    by (apply Z.mul_div_le; lia).
  assert (Hb' : game_grid_height t * (500 / game_grid_height t) <= 500)
    by (apply Z.mul_div_le; lia).
  assert (Hc : 0 <= c) by (unfold c; lia).
  assert (HcW : c * game_grid_width t <= 700) by (unfold c; nia).
  assert (HcH : c * game_grid_height t <= 500) by (unfold c; nia).
  unfold Editor.surface_rect.
  destruct (Z.ltb_spec (c * game_grid_width t) 0); [nia |].
  destruct (Z.ltb_spec (c * game_grid_height t) 0); [nia |].
  cbn [orb bind]. exists c. repeat split; assumption.
Qed.

(** X21.  The displayed game first opens its window and lays out the
    grid: it raises [pygame.error] when the 800 x 600 window is refused
    and [ZeroDivisionError] on a level of width or height zero, whatever
    the trajectories, even none, where the headless game plays.  On a
    level with cells, with the enemy spawns and the trajectories on the
    level, it plays the same episodes as the headless game but scores them
    differently.  Drawing left aside, on every trajectory both return or
    raise alike, with the same way of ending, final health, enemy
    positions and number of moves; the displayed game logs only the
    terminal term, neither move rewards nor distance penalties.  Over a
    batch started on an empty log, its fitness log is the headless log
    with everything but the terminal terms removed. *)
Theorem display_matches_headless :
  forall (video : Z -> Z -> bool) (t : Trainer) (policy : Policy),
    (video 800 600 = false ->
     forall player_moves fit,
       play_game_display video t policy player_moves fit
       = Err RuntimeError) /\
    (video 800 600 = true ->
     game_grid_width t = 0 \/ game_grid_height t = 0 ->
     forall player_moves fit,
       play_game_display video t policy player_moves fit
       = Err ZeroDivisionError) /\
    (video 800 600 = true ->
     1 <= game_grid_width t -> 1 <= game_grid_height t ->
     level_fits t ->
     Forall (in_bounds t) (enemy_start_positions t) ->
     (forall moves fit,
        trajectory_on_level t moves ->
        play_trajectory_display t policy moves fit
        = match play_trajectory t policy moves fit with
          | Ok (outcome, st) =>
              Ok (outcome,
                  mkEpisode (player_health st) (enemy_positions st)
                    (moves_made st)
                    (fit ++ [terminal_term (player_health st) (moves_made st)]))
          | Err e => Err e
          end) /\
     (forall player_moves,
        Forall (trajectory_on_level t) player_moves ->
        play_game_display video t policy player_moves []
        = (f <- play_game_no_display t policy player_moves [] ;;
           Ok (filter is_terminal f)))).
Proof.
  intros video t policy. split; [| split].
  - intros Hv player_moves fit. unfold play_game_display.
    rewrite (display_setup_refused video t Hv). reflexivity.
  - intros Hv Hzero player_moves fit. unfold play_game_display.
    rewrite (display_setup_zero video t Hv Hzero). reflexivity.
  - intros Hv HW HH _ _. split.
    + intros moves fit _. apply play_trajectory_display_eq.
    + intros player_moves _. unfold play_game_display.
      destruct (display_setup_ok video t Hv HW HH) as (cell_size & -> & _).
      cbn [bind]. apply display_trajectories_eq.
Qed.

(** X21 (witness): a batch of two trajectories on the open level, the
    second one ending in the escape. *)
Lemma display_matches_headless_witness :
  play_game_display (fun _ _ => true) (trainer_of level_open)
    (constant_policy 0) [[(2, 0)]; [(2, 2); (2, 3)]] []
  = (f <- play_game_no_display (trainer_of level_open) (constant_policy 0)
            [[(2, 0)]; [(2, 2); (2, 3)]] [] ;;
     Ok (filter is_terminal f)).
Proof.
  refine (proj2 (proj2 (proj2 (display_matches_headless (fun _ _ => true)
                                 (trainer_of level_open) (constant_policy 0)))
                   _ _ _ _ _) _ _).
  - reflexivity.
  - vm_compute. discriminate.
  - vm_compute. discriminate.
  - split; vm_compute; discriminate.
  - constructor; [split; cbn; lia | constructor].
  - constructor; [| constructor; [| constructor]].
    + constructor; [left; split; cbn; lia | constructor].
    + constructor; [left; split; cbn; lia |].
      constructor; [right; reflexivity | constructor].
Defined.

Example display_drops_step_terms :
  play_game_display (fun _ _ => true) (trainer_of level_open)
    (constant_policy 0) [[(2, 0)]; [(2, 2); (2, 3)]] []
  = Ok [TerminalSub 9801; TerminalSub 9604] /\
  play_game_no_display (trainer_of level_open) (constant_policy 0)
    [[(2, 0)]; [(2, 2); (2, 3)]] []
  = Ok [MoveReward; DistancePenalty 5; TerminalSub 9801;
        MoveReward; DistancePenalty 5; TerminalSub 9604].
Proof. split; vm_compute; reflexivity. Qed.

(** Without trajectories the headless game returns the fitness it was
    given, on any level; the displayed game still lays out its grid. *)
Example display_needs_cells :
  play_game_display (fun _ _ => true) (trainer_of level_zero_width)
    (constant_policy 0) [] []
  = Err ZeroDivisionError /\
  play_game_no_display (trainer_of level_zero_width) (constant_policy 0) [] []
  = Ok [].
Proof. split; vm_compute; reflexivity. Qed.

(** ** The level editor *)

Lemma editor_layout_inv (sw sh mx my w h cs : Z) (rect : Editor.Rect) :
  1 <= w -> 1 <= h ->
  Editor.layout sw sh mx my w h = Ok (cs, rect) ->
  mx * 2 <= sw /\ my * 2 <= sh /\ 0 <= cs /\
  Editor.rect_width rect = cs * w /\ Editor.rect_height rect = cs * h.
Proof.
  intros Hw Hh. unfold Editor.layout, Editor.py_floordiv.
  destruct (Z.eqb_spec w 0); [lia |]. destruct (Z.eqb_spec h 0); [lia |].
  cbn [bind]. unfold Editor.surface_rect.
  set (c := Z.min ((sw - mx * 2) / w) ((sh - my * 2) / h)).
  destruct (Z.ltb_spec (c * w) 0) as [| Hcw]; [discriminate |].
  destruct (Z.ltb_spec (c * h) 0) as [| Hch]; [discriminate |].
  cbn [orb bind]. intros H. injection H as <- <-.
  cbn [Editor.rect_width Editor.rect_height].
  assert (Hc : 0 <= c) by nia.
  assert (Ha : 0 <= (sw - mx * 2) / w) by lia.
  assert (Hb : 0 <= (sh - my * 2) / h) by lia.
  assert (Hsw : ~ sw - mx * 2 < 0).
  { intros Hneg. assert ((sw - mx * 2) / w < 0); [| lia].
    apply Z.div_lt_upper_bound; lia. }
  assert (Hsh : ~ sh - my * 2 < 0).
  { intros Hneg. assert ((sh - my * 2) / h < 0); [| lia].
    apply Z.div_lt_upper_bound; lia. }
  repeat split; lia.
Qed.

Lemma editor_layout_ok (sw sh mx my w h : Z) :
  1 <= w -> 1 <= h -> mx * 2 <= sw -> my * 2 <= sh ->
  exists cs rect, Editor.layout sw sh mx my w h = Ok (cs, rect).
Proof.
  intros Hw Hh Hsw Hsh. unfold Editor.layout, Editor.py_floordiv.
  destruct (Z.eqb_spec w 0); [lia |]. destruct (Z.eqb_spec h 0); [lia |].
  cbn [bind]. unfold Editor.surface_rect.
  set (c := Z.min ((sw - mx * 2) / w) ((sh - my * 2) / h)).
  assert (Ha : 0 <= (sw - mx * 2) / w) by (apply Z.div_pos; lia).
  assert (Hb : 0 <= (sh - my * 2) / h) by (apply Z.div_pos; lia).
  assert (Hc : 0 <= c) by lia.
  destruct (Z.ltb_spec (c * w) 0); [nia |].
  destruct (Z.ltb_spec (c * h) 0); [nia |].
  cbn [orb bind]. eexists. eexists. reflexivity.
Qed.

Lemma editor_set_nth_length {A : Type} (v : A) (l : list A) :
  forall n, length (Editor.set_nth n v l) = length l.
Proof.
  induction l as [| a l IH]; intros [| n]; cbn [Editor.set_nth length];
    try reflexivity.
  rewrite IH. reflexivity.
Qed.

Lemma editor_set_nth_lookup {A : Type} (v : A) (l : list A) :
  forall n m,
    (n < length l)%nat ->
    nth_error (Editor.set_nth n v l) m
    = if Nat.eqb m n then Some v else nth_error l m.
Proof.
  induction l as [| a l IH]; intros n m Hn; [cbn in Hn; lia |].
  destruct n as [| n]; destruct m as [| m]; cbn [Editor.set_nth nth_error Nat.eqb];
    try reflexivity.
  apply IH. cbn [length] in Hn. lia.
Qed.

Lemma editor_setitem_in_range {A : Type} (l : list A) (i : Z) (v : A) :
  0 <= i < len l ->
  Editor.py_setitem l i v = Ok (Editor.set_nth (Z.to_nat i) v l).
Proof.
  intros Hi. unfold Editor.py_setitem.
  destruct (Z.ltb_spec i 0); [lia |].
  destruct (Z.ltb_spec i 0); [lia |].
  destruct (Z.leb_spec (len l) i); [lia |]. reflexivity.
Qed.

(** The cell a click falls on, when it falls on the grid. *)
Lemma editor_click_in_grid (ed : Editor.LevelEditor) (mx my : Z) :
  Editor.editor_ok ed ->
  Editor.collidepoint (Editor.grid_rect ed) mx my = true ->
  0 < Editor.cell_size ed /\
  0 <= (mx - Editor.rect_left (Editor.grid_rect ed)) / Editor.cell_size ed
    < Editor.grid_width ed /\
  0 <= (my - Editor.rect_top (Editor.grid_rect ed)) / Editor.cell_size ed
    < Editor.grid_height ed.
Proof.
  intros (Hgrid & _ & _ & Hcs & Hrw & Hrh) Hhit.
  destruct Hgrid as (Hw & Hh & _).
  unfold Editor.collidepoint in Hhit. rewrite !andb_true_iff in Hhit.
  destruct Hhit as [[[H1 H2] H3] H4].
  apply Z.leb_le in H1, H3. apply Z.ltb_lt in H2, H4.
  rewrite Hrw in H2. rewrite Hrh in H4.
  assert (Hpos : 0 < Editor.cell_size ed) by nia.
  split; [exact Hpos |]. split; split.
  - apply Z.div_pos; lia.
  - apply Z.div_lt_upper_bound; lia.
  - apply Z.div_pos; lia.
  - apply Z.div_lt_upper_bound; lia.
Qed.

(** A click on the grid replaces one element of one row. *)
Lemma editor_update_cell_state_inside (ed : Editor.LevelEditor) (mx my : Z)
    (state : Editor.CellState) :
  Editor.editor_ok ed ->
  Editor.collidepoint (Editor.grid_rect ed) mx my = true ->
  let x := (mx - Editor.rect_left (Editor.grid_rect ed)) / Editor.cell_size ed in
  let y := (my - Editor.rect_top (Editor.grid_rect ed)) / Editor.cell_size ed in
  0 <= x < Editor.grid_width ed /\ 0 <= y < Editor.grid_height ed /\
  exists row,
    nth_error (Editor.grid ed) (Z.to_nat y) = Some row /\
    len row = Editor.grid_width ed /\
    Editor.update_cell_state ed (mx, my) state
    = Ok (Editor.mkEditor (Editor.screen_width ed) (Editor.screen_height ed)
            (Editor.grid_margin_x ed) (Editor.grid_margin_y ed)
            (Editor.grid_width ed) (Editor.grid_height ed)
            (Editor.cell_size ed) (Editor.grid_rect ed)
            (Editor.set_nth (Z.to_nat y)
               (Editor.set_nth (Z.to_nat x) state row) (Editor.grid ed))
            (Editor.left_click_draw_mode ed)).
Proof.
  intros Hok Hhit x y.
  destruct (editor_click_in_grid ed mx my Hok Hhit) as (Hcs & Hx & Hy).
  fold x in Hx. fold y in Hy.
  split; [exact Hx |]. split; [exact Hy |].
  pose proof Hok as ((Hw & Hh & Hlen & Hrows) & Hrest).
  destruct (py_index_in_range (Editor.grid ed) y) as (row & Hidx & Hrow);
    [lia |].
  assert (Hrowlen : len row = Editor.grid_width ed).
  { rewrite Forall_forall in Hrows. apply Hrows.
    eapply nth_error_In; exact Hrow. }
  exists row. split; [exact Hrow |]. split; [exact Hrowlen |].
  unfold Editor.update_cell_state. rewrite Hhit. cbn [negb].
  unfold Editor.py_floordiv.
  destruct (Z.eqb_spec (Editor.cell_size ed) 0); [lia |]. cbn [bind].
  fold x y. rewrite Hidx. cbn [bind].
  rewrite (editor_setitem_in_range row x state) by lia. cbn [bind].
  rewrite (editor_setitem_in_range (Editor.grid ed) y) by lia. reflexivity.
Qed.

Lemma editor_set_cell_ok (ed : Editor.LevelEditor) (x y : Z)
    (state : Editor.CellState) (row : list Editor.CellState) :
  Editor.editor_ok ed ->
  0 <= y < Editor.grid_height ed ->
  nth_error (Editor.grid ed) (Z.to_nat y) = Some row ->
  len row = Editor.grid_width ed ->
  Editor.editor_ok
    (Editor.mkEditor (Editor.screen_width ed) (Editor.screen_height ed)
       (Editor.grid_margin_x ed) (Editor.grid_margin_y ed)
       (Editor.grid_width ed) (Editor.grid_height ed)
       (Editor.cell_size ed) (Editor.grid_rect ed)
       (Editor.set_nth (Z.to_nat y)
          (Editor.set_nth (Z.to_nat x) state row) (Editor.grid ed))
       (Editor.left_click_draw_mode ed)).
Proof.
  intros ((Hw & Hh & Hlen & Hrows) & Hrest) Hy Hrow Hrowlen.
  split; [| exact Hrest].
  split; [exact Hw |]. split; [exact Hh |].
  cbn [Editor.grid Editor.grid_height Editor.grid_width]. split.
  - unfold len. rewrite editor_set_nth_length. exact Hlen.
  - apply Forall_forall. intros r Hr.
    apply In_nth_error in Hr. destruct Hr as [m Hm].
    rewrite editor_set_nth_lookup in Hm by (unfold len in *; lia).
    destruct (Nat.eqb m (Z.to_nat y)).
    + injection Hm as <-. unfold len. rewrite editor_set_nth_length.
      exact Hrowlen.
    + rewrite Forall_forall in Hrows. apply Hrows.
      eapply nth_error_In; exact Hm.
Qed.


Lemma removelast_length_pred {A : Type} (l : list A) :
  length (removelast l) = pred (length l).
Proof.
  induction l as [| a [| b l] IH]; cbn [removelast length] in *;
    try reflexivity.
  rewrite IH. reflexivity.
Qed.

Lemma removelast_lookup {A : Type} (l : list A) :
  forall n, (S n < length l)%nat ->
            nth_error (removelast l) n = nth_error l n.
Proof.
  induction l as [| a [| b l] IH]; intros n Hn; cbn [length] in Hn; try lia.
  destruct n as [| n]; cbn [removelast nth_error]; [reflexivity |].
  apply IH. cbn [length]. lia.
Qed.

Lemma editor_for_each_pop {A : Type} (rows : list (list A)) :
  Forall (fun row => row <> []) rows ->
  Editor.for_each Editor.py_pop rows = Ok (map (@removelast A) rows).
Proof.
  induction 1 as [| row rows Hrow _ IH]; cbn [Editor.for_each map];
    [reflexivity |].
  destruct row as [| a row]; [contradiction |].
  cbn [Editor.py_pop bind]. rewrite IH. reflexivity.
Qed.

Lemma editor_cell_at_row (rows : list (list Editor.CellState)) (x y : Z)
    (row : list Editor.CellState) :
  nth_error rows (Z.to_nat y) = Some row ->
  Editor.cell_at rows x y = nth_error row (Z.to_nat x).
Proof. intros H. unfold Editor.cell_at. rewrite H. reflexivity. Qed.

Lemma editor_row_exists {A : Type} (rows : list (list A)) (w y : Z) :
  Forall (fun row => len row = w) rows -> 0 <= y < len rows ->
  exists row, nth_error rows (Z.to_nat y) = Some row /\ len row = w.
Proof.
  intros Hall Hy.
  destruct (nth_error rows (Z.to_nat y)) as [row |] eqn:Hrow.
  - exists row. split; [reflexivity |].
    rewrite Forall_forall in Hall. apply Hall.
    eapply nth_error_In; exact Hrow.
  - apply nth_error_None in Hrow. unfold len in Hy. lia.
Qed.

(** The width part of [update_grid_dimensions]. *)
Lemma editor_width_phase (ed : Editor.LevelEditor) (wi : Z) :
  Editor.grid_ok ed -> wi = -1 \/ wi = 0 \/ wi = 1 ->
  exists rows,
    (if (wi =? -1) && (Editor.grid_width ed >? 1) then
       Editor.for_each Editor.py_pop (Editor.grid ed)
     else if wi =? 1 then
       Ok (map (fun row => row ++ [Editor.EMPTY]) (Editor.grid ed))
     else Ok (Editor.grid ed)) = Ok rows /\
    len rows = Editor.grid_height ed /\
    Forall (fun row => len row = Z.max 1 (Editor.grid_width ed + wi)) rows /\
    forall x y,
      0 <= x < Z.max 1 (Editor.grid_width ed + wi) ->
      0 <= y < Editor.grid_height ed ->
      Editor.cell_at rows x y
      = if x <? Editor.grid_width ed then Editor.cell_at (Editor.grid ed) x y
        else Some Editor.EMPTY.
Proof.
  intros (Hw & Hh & Hlen & Hrows) Hwi.
  assert (Hsame : forall x y,
             0 <= x < Editor.grid_width ed ->
             Editor.cell_at (Editor.grid ed) x y
             = (if x <? Editor.grid_width ed
                then Editor.cell_at (Editor.grid ed) x y
                else Some Editor.EMPTY)).
  { intros x y Hx. destruct (Z.ltb_spec x (Editor.grid_width ed)); [reflexivity | lia]. }
  destruct (Z.eqb_spec wi (-1)) as [-> | Hm1]; cbn [andb].
  - destruct (Z.gtb_spec (Editor.grid_width ed) 1) as [Hbig | Hone].
    + rewrite editor_for_each_pop.
      2:{ eapply Forall_impl; [| exact Hrows]. intros row Hr ->.
          unfold len in Hr. cbn in Hr. lia. }
      eexists. split; [reflexivity |]. split; [| split].
      * unfold len. rewrite length_map. exact Hlen.
      * apply Forall_map. eapply Forall_impl; [| exact Hrows].
        intros row Hr. unfold len in *. rewrite removelast_length_pred. lia.
      * intros x y Hx Hy.
        destruct (editor_row_exists (Editor.grid ed) _ y Hrows)
          as (row & Hrow & Hrl); [lia |].
        rewrite (editor_cell_at_row _ x y (removelast row)).
        2:{ rewrite nth_error_map, Hrow. reflexivity. }
        rewrite (editor_cell_at_row _ x y row Hrow).
        destruct (Z.ltb_spec x (Editor.grid_width ed)); [| lia].
        apply removelast_lookup. unfold len in Hrl. lia.
    + exists (Editor.grid ed). split; [reflexivity |]. split; [exact Hlen |].
      replace (Z.max 1 (Editor.grid_width ed + -1)) with (Editor.grid_width ed)
        by lia.
      split; [exact Hrows |]. intros x y Hx _. apply Hsame. exact Hx.
  - destruct (Z.eqb_spec wi 1) as [-> | H1].
    + eexists. split; [reflexivity |]. split; [| split].
      * unfold len. rewrite length_map. exact Hlen.
      * apply Forall_map. eapply Forall_impl; [| exact Hrows].
        intros row Hr. unfold len in *. rewrite length_app. cbn [length]. lia.
      * intros x y Hx Hy.
        destruct (editor_row_exists (Editor.grid ed) _ y Hrows)
          as (row & Hrow & Hrl); [lia |].
        rewrite (editor_cell_at_row _ x y (row ++ [Editor.EMPTY])).
        2:{ rewrite nth_error_map, Hrow. reflexivity. }
        rewrite (editor_cell_at_row _ x y row Hrow).
        unfold len in Hrl.
        destruct (Z.ltb_spec x (Editor.grid_width ed)).
        -- apply nth_error_app1. lia.
        -- rewrite nth_error_app2 by lia.
           replace (Z.to_nat x - length row)%nat with 0%nat by lia.
           reflexivity.
    + assert (wi = 0) as -> by lia.
      exists (Editor.grid ed). split; [reflexivity |]. split; [exact Hlen |].
      replace (Z.max 1 (Editor.grid_width ed + 0)) with (Editor.grid_width ed)
        by lia.
      split; [exact Hrows |]. intros x y Hx _. apply Hsame. exact Hx.
Qed.

(** The height part of [update_grid_dimensions], on the rows the width
    part left; the row it appends has the width the editor had before. *)
Lemma editor_height_phase (rows : list (list Editor.CellState))
    (old_width width height hi : Z) :
  1 <= height -> 1 <= old_width ->
  len rows = height -> Forall (fun row => len row = width) rows ->
  hi = -1 \/ hi = 0 \/ hi = 1 ->
  exists rows',
    (if (hi =? -1) && (height >? 1) then Editor.py_pop rows
     else if hi =? 1 then
       Ok (rows ++ [repeat Editor.EMPTY (Z.to_nat old_width)])
     else Ok rows) = Ok rows' /\
    len rows' = Z.max 1 (height + hi) /\
    (hi = 1 -> rows' = rows ++ [repeat Editor.EMPTY (Z.to_nat old_width)]) /\
    (~ (hi = 1 /\ width <> old_width) ->
     Forall (fun row => len row = width) rows' /\
     forall x y,
       0 <= x < width -> 0 <= y < Z.max 1 (height + hi) ->
       Editor.cell_at rows' x y
       = if y <? height then Editor.cell_at rows x y else Some Editor.EMPTY).
Proof.
  intros Hh How Hlen Hrows Hhi.
  assert (Hsame : forall x y,
             0 <= y < height ->
             Editor.cell_at rows x y
             = (if y <? height then Editor.cell_at rows x y
                else Some Editor.EMPTY)).
  { intros x y Hy. destruct (Z.ltb_spec y height); [reflexivity | lia]. }
  destruct (Z.eqb_spec hi (-1)) as [-> | Hm1]; cbn [andb].
  - destruct (Z.gtb_spec height 1) as [Hbig | Hone].
    + destruct rows as [| r0 rows0] eqn:Hr; [unfold len in Hlen; cbn in Hlen; lia |].
      rewrite <- Hr in *. assert (Hpop : Editor.py_pop rows = Ok (removelast rows))
        by (rewrite Hr; reflexivity).
      rewrite Hpop. eexists. split; [reflexivity |].
      split; [unfold len in *; rewrite removelast_length_pred; lia |].
      split; [lia |]. intros _. split.
      * apply Forall_forall. intros row Hin.
        apply In_nth_error in Hin. destruct Hin as [n Hn].
        assert (Hlt : (n < length (removelast rows))%nat)
          by (apply nth_error_Some; congruence).
        rewrite removelast_length_pred in Hlt.
        rewrite removelast_lookup in Hn by lia.
        rewrite Forall_forall in Hrows. apply Hrows.
        eapply nth_error_In; exact Hn.
      * intros x y Hx Hy.
        destruct (Z.ltb_spec y height); [| lia].
        unfold Editor.cell_at. rewrite removelast_lookup; [reflexivity |].
        unfold len in Hlen. lia.
    + exists rows. split; [reflexivity |]. split; [lia |]. split; [lia |].
      intros _. split; [exact Hrows |]. intros x y _ Hy. apply Hsame. lia.
  - destruct (Z.eqb_spec hi 1) as [-> | H1].
    + eexists. split; [reflexivity |].
      split; [unfold len in *; rewrite length_app; cbn [length]; lia |].
      split; [reflexivity |]. intros Hgood.
      assert (Hwidth : width = old_width).
      { destruct (Z.eq_dec width old_width); [assumption |].
        exfalso. apply Hgood. split; [reflexivity | assumption]. }
      subst width. split.
      * apply Forall_app. split; [exact Hrows |].
        constructor; [| constructor]. unfold len. rewrite repeat_length. lia.
      * intros x y Hx Hy. unfold Editor.cell_at. unfold len in Hlen.
        destruct (Z.ltb_spec y height).
        -- rewrite nth_error_app1 by lia. reflexivity.
        -- rewrite nth_error_app2 by lia.
           replace (Z.to_nat y - length rows)%nat with 0%nat by lia.
           cbn [nth_error]. apply nth_error_repeat. lia.
    + assert (hi = 0) as -> by lia.
      exists rows. split; [reflexivity |]. split; [lia |]. split; [lia |].
      intros _. split; [exact Hrows |]. intros x y _ Hy. apply Hsame. lia.
Qed.

Lemma editor_update_grid_dimensions_spec (ed : Editor.LevelEditor)
    (wi hi : Z) :
  Editor.editor_ok ed ->
  wi = -1 \/ wi = 0 \/ wi = 1 -> hi = -1 \/ hi = 0 \/ hi = 1 ->
  exists ed',
    Editor.update_grid_dimensions ed wi hi = Ok ed' /\
    Editor.grid_width ed' = Z.max 1 (Editor.grid_width ed + wi) /\
    Editor.grid_height ed' = Z.max 1 (Editor.grid_height ed + hi) /\
    len (Editor.grid ed') = Editor.grid_height ed' /\
    Editor.left_click_draw_mode ed' = Editor.left_click_draw_mode ed /\
    (hi = 1 -> Editor.grid_width ed' <> Editor.grid_width ed ->
     ~ Editor.grid_ok ed') /\
    (~ (hi = 1 /\ Editor.grid_width ed' <> Editor.grid_width ed) ->
     Editor.editor_ok ed' /\
     forall x y,
       0 <= x < Editor.grid_width ed' -> 0 <= y < Editor.grid_height ed' ->
       Editor.cell_at (Editor.grid ed') x y
       = if (x <? Editor.grid_width ed) && (y <? Editor.grid_height ed)
         then Editor.cell_at (Editor.grid ed) x y
         else Some Editor.EMPTY).
Proof.
  intros (Hgrid & Hmx & Hmy & _) Hwi Hhi.
  pose proof Hgrid as (Hw & Hh & Hlen & Hrows).
  unfold Editor.update_grid_dimensions.
  destruct (editor_width_phase ed wi Hgrid Hwi)
    as (rows1 & -> & Hlen1 & Hrows1 & Hcell1).
  cbn [bind].
  destruct (editor_height_phase rows1 (Editor.grid_width ed)
              (Z.max 1 (Editor.grid_width ed + wi)) (Editor.grid_height ed) hi
              Hh Hw Hlen1 Hrows1 Hhi)
    as (rows2 & -> & Hlen2 & Hnew & Hgood).
  cbn [bind].
  destruct (editor_layout_ok (Editor.screen_width ed) (Editor.screen_height ed)
              (Editor.grid_margin_x ed) (Editor.grid_margin_y ed)
              (Z.max 1 (Editor.grid_width ed + wi))
              (Z.max 1 (Editor.grid_height ed + hi)))
    as (cs & rect & Hlay); try lia.
  rewrite Hlay. cbn [bind].
  assert (Hw1 : 1 <= Z.max 1 (Editor.grid_width ed + wi)) by lia.
  assert (Hh1 : 1 <= Z.max 1 (Editor.grid_height ed + hi)) by lia.
  destruct (editor_layout_inv _ _ _ _ _ _ _ _ Hw1 Hh1 Hlay)
    as (_ & _ & Hcs & Hrw & Hrh).
  eexists. split; [reflexivity |].
  cbn [Editor.grid_width Editor.grid_height Editor.grid
         Editor.left_click_draw_mode].
  split; [reflexivity |]. split; [reflexivity |]. split; [exact Hlen2 |].
  split; [reflexivity |]. split.
  - intros Hone Hdiff (_ & _ & _ & Hall).
    cbn [Editor.grid Editor.grid_width] in Hall.
    rewrite (Hnew Hone) in Hall. apply Forall_app in Hall.
    destruct Hall as [_ Hlast]. inversion Hlast as [| ? ? Hl _]; subst.
    unfold len in Hl. rewrite repeat_length in Hl. lia.
  - intros Hfine. destruct (Hgood Hfine) as [Hrows2 Hcell2]. split.
    + split.
      * split; [cbn; lia |]. split; [cbn; lia |]. split; assumption.
      * cbn [Editor.grid_margin_x Editor.grid_margin_y Editor.screen_width
               Editor.screen_height Editor.cell_size Editor.grid_rect
               Editor.grid_width Editor.grid_height].
        repeat split; assumption.
    + intros x y Hx Hy. rewrite (Hcell2 x y Hx Hy).
      destruct (Z.ltb_spec y (Editor.grid_height ed)).
      * rewrite andb_true_r. apply Hcell1; lia.
      * rewrite andb_false_r. reflexivity.
Qed.

(** X22.  [update_grid_dimensions] on an editor whose grid is in shape,
    with increments among -1, 0 and 1: it returns; width and height move
    by the increments but never below 1; the grid has the new height.
    Unless the height grows while the width changes, the grid is again in
    shape, every cell that remains keeps its state and every new cell is
    EMPTY.  When the height grows while the width changes (never asked
    for by the editor's own keys), the appended row has the old width and
    the grid is left ragged. *)
Theorem update_grid_dimensions_resizes :
  forall (ed : Editor.LevelEditor) (wi hi : Z),
    Editor.editor_ok ed ->
    wi = -1 \/ wi = 0 \/ wi = 1 -> hi = -1 \/ hi = 0 \/ hi = 1 ->
    exists ed',
      Editor.update_grid_dimensions ed wi hi = Ok ed' /\
      Editor.grid_width ed' = Z.max 1 (Editor.grid_width ed + wi) /\
      Editor.grid_height ed' = Z.max 1 (Editor.grid_height ed + hi) /\
      len (Editor.grid ed') = Editor.grid_height ed' /\
      (hi = 1 -> Editor.grid_width ed' <> Editor.grid_width ed ->
       ~ Editor.grid_ok ed') /\
      (~ (hi = 1 /\ Editor.grid_width ed' <> Editor.grid_width ed) ->
       Editor.editor_ok ed' /\
       forall x y,
         0 <= x < Editor.grid_width ed' -> 0 <= y < Editor.grid_height ed' ->
         Editor.cell_at (Editor.grid ed') x y
         = if (x <? Editor.grid_width ed) && (y <? Editor.grid_height ed)
           then Editor.cell_at (Editor.grid ed) x y
           else Some Editor.EMPTY).
Proof.
  intros ed wi hi Hok Hwi Hhi.
  destruct (editor_update_grid_dimensions_spec ed wi hi Hok Hwi Hhi)
    as (ed' & E & Hw & Hh & Hlen & _ & Hbad & Hgood).
  exists ed'. repeat split; try assumption; apply Hgood; assumption.
Qed.

(** X23.  [update_cell_state] on an editor in shape never raises.  A
    click outside the grid rectangle changes nothing.  A click inside
    falls on a cell of the grid (no index is out of range or negative),
    sets that cell to the given state and leaves every other cell, the
    dimensions and the draw mode as they were. *)
Theorem update_cell_state_sets_one_cell :
  forall (ed : Editor.LevelEditor) (mx my : Z) (state : Editor.CellState),
    Editor.editor_ok ed ->
    exists ed',
      Editor.update_cell_state ed (mx, my) state = Ok ed' /\
      Editor.editor_ok ed' /\
      Editor.grid_width ed' = Editor.grid_width ed /\
      Editor.grid_height ed' = Editor.grid_height ed /\
      Editor.left_click_draw_mode ed' = Editor.left_click_draw_mode ed /\
      (Editor.collidepoint (Editor.grid_rect ed) mx my = false -> ed' = ed) /\
      (Editor.collidepoint (Editor.grid_rect ed) mx my = true ->
       let x := (mx - Editor.rect_left (Editor.grid_rect ed))
                / Editor.cell_size ed in
       let y := (my - Editor.rect_top (Editor.grid_rect ed))
                / Editor.cell_size ed in
       0 <= x < Editor.grid_width ed /\ 0 <= y < Editor.grid_height ed /\
       forall x' y',
         0 <= x' -> 0 <= y' ->
         Editor.cell_at (Editor.grid ed') x' y'
         = if (x' =? x) && (y' =? y) then Some state
           else Editor.cell_at (Editor.grid ed) x' y').
Proof.
  intros ed mx my state Hok.
  destruct (Editor.collidepoint (Editor.grid_rect ed) mx my) eqn:Hhit.
  - destruct (editor_update_cell_state_inside ed mx my state Hok Hhit)
      as (Hx & Hy & row & Hrow & Hrowlen & E).
    eexists. split; [exact E |].
    split; [apply editor_set_cell_ok; assumption |].
    cbn [Editor.grid_width Editor.grid_height Editor.left_click_draw_mode
           Editor.grid].
    split; [reflexivity |]. split; [reflexivity |]. split; [reflexivity |].
    split; [discriminate |]. intros _. cbv zeta.
    split; [exact Hx |]. split; [exact Hy |].
    destruct Hok as ((_ & _ & Hlen & _) & _).
    intros x' y' Hx' Hy'. unfold Editor.cell_at.
    rewrite editor_set_nth_lookup by (unfold len in *; lia).
    match goal with
    | |- context [y' =? ?b] => destruct (Z.eqb_spec y' b) as [-> | Hne]
    end.
    + rewrite Nat.eqb_refl, andb_true_r.
      rewrite editor_set_nth_lookup by (unfold len in *; lia).
      rewrite Hrow.
      match goal with
      | |- context [x' =? ?a] => destruct (Z.eqb_spec x' a) as [-> | Hnx]
      end.
      * rewrite Nat.eqb_refl. reflexivity.
      * match goal with
        | |- context [Nat.eqb ?a ?b] => destruct (Nat.eqb_spec a b)
        end; [lia | reflexivity].
    + rewrite andb_false_r.
      match goal with
      | |- context [Nat.eqb ?a ?b] => destruct (Nat.eqb_spec a b)
      end; [lia | reflexivity].
  - exists ed. split.
    + unfold Editor.update_cell_state. rewrite Hhit. reflexivity.
    + split; [exact Hok |]. split; [reflexivity |]. split; [reflexivity |].
      split; [reflexivity |]. split; [reflexivity | discriminate].
Qed.


Lemma editor_init_ok (video : Z -> Z -> bool) (sw sh : Z)
    (ed : Editor.LevelEditor) :
  Editor.init video sw sh = Ok ed ->
  Editor.editor_ok ed /\
  Editor.grid_width ed = 25 /\ Editor.grid_height ed = 25 /\
  Editor.left_click_draw_mode ed = Editor.WALL /\
  Editor.grid ed = repeat (repeat Editor.EMPTY 25) 25.
Proof.
  unfold Editor.init.
  destruct (Editor.layout sw sh 50 50 25 25) as [[cs rect] |] eqn:Hlay;
    [| discriminate].
  cbn [bind]. unfold Editor.set_mode.
  destruct (video sw sh); [| discriminate].
  cbn [bind]. intros H. injection H as <-.
  assert (H25 : 1 <= 25) by lia.
  destruct (editor_layout_inv _ _ _ _ _ _ _ _ H25 H25 Hlay)
    as (Hsw & Hsh & Hcs & Hrw & Hrh).
  change (Z.to_nat 25) with 25%nat.
  split; [| repeat split].
  split.
  - split; [cbn; lia |]. split; [cbn; lia |].
    cbn [Editor.grid Editor.grid_width Editor.grid_height].
    split; [reflexivity |].
    repeat (constructor; [reflexivity |]). constructor.
  - cbn [Editor.grid_margin_x Editor.grid_margin_y Editor.screen_width
           Editor.screen_height Editor.cell_size Editor.grid_rect
           Editor.grid_width Editor.grid_height].
    repeat split; assumption.
Qed.


Lemma editor_export_ok (ed : Editor.LevelEditor) :
  Editor.grid_ok ed -> level_ok (Editor.export_grid ed).
Proof.
  intros (Hw & Hh & Hlen & Hrows). unfold level_ok, Editor.export_grid.
  split; [| split].
  - intros Hnil. apply map_eq_nil in Hnil. rewrite Hnil in Hlen.
    unfold len in Hlen. cbn in Hlen. lia.
  - unfold rectangular.
    destruct (map (map Editor.cell_code) (Editor.grid ed)) as [| row0 rest]
      eqn:Hmap; [reflexivity |].
    rewrite <- Hmap. apply forallb_forall. intros row Hrow. apply Z.eqb_eq.
    assert (Hall : forall r, In r (map (map Editor.cell_code) (Editor.grid ed))
                             -> len r = Editor.grid_width ed).
    { intros r Hr. apply in_map_iff in Hr. destruct Hr as (r0 & <- & Hr0).
      unfold len. rewrite length_map. rewrite Forall_forall in Hrows.
      apply Hrows, Hr0. }
    rewrite (Hall row Hrow). symmetry. apply Hall. rewrite Hmap. left.
    reflexivity.
  - apply Forall_map. apply Forall_forall. intros row _.
    apply Forall_map. apply Forall_forall. intros [] _; cbn; lia.
Qed.





Lemma update_grid_dimensions_resizes_witness :
  exists ed',
    Editor.update_grid_dimensions default_editor 1 1 = Ok ed' /\
    ~ Editor.grid_ok ed'.
Proof.
  assert (Hok : Editor.editor_ok default_editor)
    by apply (editor_init_ok (fun _ _ => true) 800 600 default_editor eq_refl).
  destruct (update_grid_dimensions_resizes default_editor 1 1 Hok)
    as (ed' & E & Hw & _ & _ & Hbad & _); [lia | lia |].
  exists ed'. split; [exact E |]. apply Hbad; [reflexivity |].
  rewrite Hw. cbn. lia.
Defined.

Lemma update_cell_state_sets_one_cell_witness :
  exists ed',
    Editor.update_cell_state default_editor (160, 60) Editor.PLAYER = Ok ed' /\
    Editor.cell_at (Editor.grid ed') 0 0 = Some Editor.PLAYER.
Proof.
  assert (Hok : Editor.editor_ok default_editor)
    by apply (editor_init_ok (fun _ _ => true) 800 600 default_editor eq_refl).
  destruct (update_cell_state_sets_one_cell default_editor 160 60
              Editor.PLAYER Hok) as (ed' & E & _ & _ & _ & _ & _ & Hin).
  exists ed'. split; [exact E |].
  destruct (Hin eq_refl) as (_ & _ & Hcell).
  rewrite (Hcell 0 0); [reflexivity | lia | lia].
Defined.

Lemma editor_export_lookup (rows : list (list Editor.CellState)) (x y c : Z) :
  (exists row,
     nth_error (map (map Editor.cell_code) rows) (Z.to_nat y) = Some row /\
     nth_error row (Z.to_nat x) = Some c) <->
  exists state, Editor.cell_at rows x y = Some state /\
                Editor.cell_code state = c.
Proof.
  unfold Editor.cell_at. rewrite nth_error_map.
  destruct (nth_error rows (Z.to_nat y)) as [row |]; cbn [option_map].
  - split.
    + intros (r & Hr & Hc). injection Hr as <-.
      rewrite nth_error_map in Hc.
      destruct (nth_error row (Z.to_nat x)) as [state |]; [| discriminate].
      injection Hc as <-. exists state. split; reflexivity.
    + intros (state & Hs & <-). exists (map Editor.cell_code row).
      split; [reflexivity |]. rewrite nth_error_map, Hs. reflexivity.
  - split; [intros (r & Hr & _); discriminate Hr |
            intros (state & Hs & _); discriminate Hs].
Qed.

(** X25.  Every level the editor can save is one the trainer can load.
    For an editor whose grid is in shape, the saved grid loads into a
    trainer that is rectangular with the editor's width and height; its
    walls are exactly the WALL cells, its enemy start positions exactly
    the ENEMY cells, all on the level, and its player start, when there is
    one, is a PLAYER cell. *)
Theorem saved_level_loads :
  forall ed : Editor.LevelEditor,
    Editor.grid_ok ed ->
    exists t,
      Trainer_init (Editor.export_grid ed) = Ok t /\
      well_formed t /\
      game_grid_width t = Editor.grid_width ed /\
      game_grid_height t = Editor.grid_height ed /\
      Forall (in_bounds t) (enemy_start_positions t) /\
      (forall x y,
         0 <= x -> 0 <= y ->
         (is_wall t (x, y) <->
          Editor.cell_at (Editor.grid ed) x y = Some Editor.WALL) /\
         (In (x, y) (enemy_start_positions t) <->
          Editor.cell_at (Editor.grid ed) x y = Some Editor.ENEMY)) /\
      (forall p,
         player_start t = Some p ->
         Editor.cell_at (Editor.grid ed) (fst p) (snd p)
         = Some Editor.PLAYER).
Proof.
  intros ed Hgrid.
  destruct (editor_export_ok ed Hgrid) as (Hne & Hrect & _).
  pose proof Hgrid as (Hw & Hh & Hlen & Hrows).
  destruct (Editor.export_grid ed) as [| row0 rest] eqn:Hexp; [contradiction |].
  pose proof (trainer_init_fields (row0 :: rest) row0 rest eq_refl) as Hinit.
  set (t := mkTrainer (row0 :: rest) (len (row0 :: rest)) (len row0)
              (fst (find_start_positions (row0 :: rest)))
              (snd (find_start_positions (row0 :: rest)))) in *.
  exists t. split; [exact Hinit |].
  destruct (trainer_init_loaded _ t Hinit Hrect) as (Hwf & Hen & _).
  split; [exact Hwf |].
  assert (Hgridt : game_grid t = map (map Editor.cell_code) (Editor.grid ed)).
  { cbn [game_grid t]. symmetry. exact Hexp. }
  assert (Hwidth : game_grid_width t = Editor.grid_width ed).
  { cbn [game_grid_width t]. unfold Editor.export_grid in Hexp.
    destruct (Editor.grid ed) as [| r0 rs]; [discriminate |].
    cbn [map] in Hexp. injection Hexp as <- _.
    unfold len. rewrite length_map.
    inversion Hrows; subst. assumption. }
  assert (Hheight : game_grid_height t = Editor.grid_height ed).
  { cbn [game_grid_height t]. rewrite <- Hexp. unfold Editor.export_grid, len.
    rewrite length_map. exact Hlen. }
  split; [exact Hwidth |]. split; [exact Hheight |]. split; [exact Hen |].
  assert (Hlookup : forall x y c,
             0 <= x -> 0 <= y ->
             (grid_at t y x = Ok c <->
              exists state,
                Editor.cell_at (Editor.grid ed) x y = Some state /\
                Editor.cell_code state = c)).
  { intros x y c Hx Hy. rewrite grid_at_nonneg by assumption.
    rewrite Hgridt. apply editor_export_lookup. }
  destruct (find_start_positions_spec _ t Hinit) as (Henemy & Hplayer).
  split.
  - intros x y Hx Hy. split.
    + unfold is_wall. cbn [fst snd]. rewrite Hlookup by assumption. split.
      * intros (state & Hs & Hc). destruct state; try discriminate Hc.
        exact Hs.
      * intros Hs. exists Editor.WALL. split; [exact Hs | reflexivity].
    + rewrite Henemy. cbn [fst snd]. rewrite Hlookup by assumption. split.
      * intros (_ & _ & state & Hs & Hc). destruct state; try discriminate Hc.
        exact Hs.
      * intros Hs. split; [exact Hx |]. split; [exact Hy |].
        exists Editor.ENEMY. split; [exact Hs | reflexivity].
  - intros p Hp. destruct (Hplayer p Hp) as (Hx & Hy & Hc & _).
    apply Hlookup in Hc; [| assumption ..].
    destruct Hc as (state & Hs & Hc). destruct state; try discriminate Hc.
    exact Hs.
Qed.

Lemma saved_level_loads_witness :
  exists t,
    Trainer_init (Editor.export_grid default_editor) = Ok t /\
    game_grid_width t = 25.
Proof.
  destruct (saved_level_loads default_editor) as (t & Hinit & _ & Hw & _).
  - apply (editor_init_ok (fun _ _ => true) 800 600 default_editor eq_refl).
  - exists t. split; [exact Hinit | exact Hw].
Defined.
